(** * The process table of tinyos3 (kernel_proc.c)

    A shallow embedding of the process table, its slot allocator and the
    system calls Exec, GetPid, GetPPid, WaitChild and Exit, together with
    the process-information stream, followed by the properties of the
    design document that concern them.

    Conventions of the embedding.
    - A [PCB*] is [option nat]: [None] is NULL, [Some p] is [&PT[p]].
      The C code only forms pointers into [PT], so a theorem that needs a
      pointer to be a real slot says [p < MAX_PROC].
    - [Pid_t] and [int] are [Z]; [unsigned int] is [Z] with its wrap-around
      modulo [2^32] written out.  A PID is the index of a slot, so the
      conversion of [pcb - PT] to [Pid_t] does not wrap.
    - The constants [MAX_PROC], [MAX_FILEID], [NOPROC],
      [PROCINFO_MAX_ARGS_SIZE] and [sizeof(procinfo)] come from headers that
      are not part of kernel_proc.c; they are parameters of the development.
    - The kernel is a monitor: every function below runs with the kernel
      mutex held, so it is a function from kernel state to kernel state.
      A call of [kernel_wait] is the only point where a caller sleeps; it
      is modelled by the outcome [WBlocked]. *)

From Stdlib Require Import ZArith Lia Strings.Byte.
From stdpp Require Import base tactics option list gmap.

Local Open Scope Z_scope.

(** ** Data model *)

(** [pid_state]: the state of a slot of the process table. *)
Inductive pid_state : Set := FREE | ALIVE | ZOMBIE.

Global Instance pid_state_eq_dec : EqDecision pid_state.
Proof. solve_decision. Defined.

(** The function a spawned thread starts in. *)
Inductive thread_entry : Set := start_main_thread | start_thread.

(** The process control block.  The intrusive nodes [children_node] and
    [exited_node] of the C struct are the membership of the slot in its
    parent's [children_list] and [exited_list]; the condition variable
    [child_exit] is the sleep of [WBlocked]. *)
Record PCB : Type := mkPCB {
  pstate        : pid_state;
  parent        : option nat;          (* PCB*; the free-list link of a FREE slot *)
  exitval       : Z;
  main_thread   : option nat;          (* TCB* *)
  main_task     : option nat;          (* Task: NULL or a code address *)
  argl          : Z;
  args          : option nat;          (* void*: NULL or a heap block *)
  FIDT          : list (option nat);   (* FCB* FIDT[MAX_FILEID] *)
  children_list : list nat;
  exited_list   : list nat;
  thread_count  : Z;
  ptcb_list     : list nat             (* the PTCBs of the process *)
}.

Definition set_pstate (v : pid_state) (b : PCB) : PCB :=
  mkPCB v (parent b) (exitval b) (main_thread b) (main_task b) (argl b)
        (args b) (FIDT b) (children_list b) (exited_list b) (thread_count b)
        (ptcb_list b).
Definition set_parent (v : option nat) (b : PCB) : PCB :=
  mkPCB (pstate b) v (exitval b) (main_thread b) (main_task b) (argl b)
        (args b) (FIDT b) (children_list b) (exited_list b) (thread_count b)
        (ptcb_list b).
Definition set_exitval (v : Z) (b : PCB) : PCB :=
  mkPCB (pstate b) (parent b) v (main_thread b) (main_task b) (argl b)
        (args b) (FIDT b) (children_list b) (exited_list b) (thread_count b)
        (ptcb_list b).
Definition set_main_thread (v : option nat) (b : PCB) : PCB :=
  mkPCB (pstate b) (parent b) (exitval b) v (main_task b) (argl b)
        (args b) (FIDT b) (children_list b) (exited_list b) (thread_count b)
        (ptcb_list b).
Definition set_main_task (v : option nat) (b : PCB) : PCB :=
  mkPCB (pstate b) (parent b) (exitval b) (main_thread b) v (argl b)
        (args b) (FIDT b) (children_list b) (exited_list b) (thread_count b)
        (ptcb_list b).
Definition set_argl (v : Z) (b : PCB) : PCB :=
  mkPCB (pstate b) (parent b) (exitval b) (main_thread b) (main_task b) v
        (args b) (FIDT b) (children_list b) (exited_list b) (thread_count b)
        (ptcb_list b).
Definition set_args (v : option nat) (b : PCB) : PCB :=
  mkPCB (pstate b) (parent b) (exitval b) (main_thread b) (main_task b)
        (argl b) v (FIDT b) (children_list b) (exited_list b)
        (thread_count b) (ptcb_list b).
Definition set_FIDT (v : list (option nat)) (b : PCB) : PCB :=
  mkPCB (pstate b) (parent b) (exitval b) (main_thread b) (main_task b)
        (argl b) (args b) v (children_list b) (exited_list b)
        (thread_count b) (ptcb_list b).
Definition set_children_list (v : list nat) (b : PCB) : PCB :=
  mkPCB (pstate b) (parent b) (exitval b) (main_thread b) (main_task b)
        (argl b) (args b) (FIDT b) v (exited_list b) (thread_count b)
        (ptcb_list b).
Definition set_exited_list (v : list nat) (b : PCB) : PCB :=
  mkPCB (pstate b) (parent b) (exitval b) (main_thread b) (main_task b)
        (argl b) (args b) (FIDT b) (children_list b) v (thread_count b)
        (ptcb_list b).
Definition set_thread_count (v : Z) (b : PCB) : PCB :=
  mkPCB (pstate b) (parent b) (exitval b) (main_thread b) (main_task b)
        (argl b) (args b) (FIDT b) (children_list b) (exited_list b) v
        (ptcb_list b).
Definition set_ptcb_list (v : list nat) (b : PCB) : PCB :=
  mkPCB (pstate b) (parent b) (exitval b) (main_thread b) (main_task b)
        (argl b) (args b) (FIDT b) (children_list b) (exited_list b)
        (thread_count b) v.

(** Static storage before [initialize_processes] runs: all bits zero. *)
Definition zero_PCB : PCB :=
  mkPCB FREE None 0 None None 0 None [] [] [] 0 [].

Global Instance PCB_inhabited : Inhabited PCB := populate zero_PCB.

(** Thread control block, as far as kernel_proc.c touches it. *)
Record TCB : Type := mkTCB {
  owner_pcb   : nat;
  thread_func : thread_entry;
  tcb_ptcb    : option nat
}.

(** Per-thread control record of a process. *)
Record PTCB : Type := mkPTCB {
  ptcb_task : option nat;
  ptcb_argl : Z;
  ptcb_args : option nat;
  ptcb_tcb  : option nat
}.

(** What a thread made schedulable by [wakeup] may observe from then on. *)
Record wake_event : Type := mkWake {
  woken      : nat;
  seen_PT    : list PCB;
  seen_tcbs  : list TCB;
  seen_ptcbs : list PTCB
}.

(** The kernel state reachable from kernel_proc.c. *)
Record kstate : Type := mkK {
  PT            : list PCB;            (* PCB PT[MAX_PROC] *)
  process_count : Z;                   (* unsigned int *)
  pcb_freelist  : option nat;          (* static PCB* pcb_freelist *)
  refcount      : gmap nat nat;        (* the reference count of each FCB *)
  heap          : list (list byte);    (* blocks handed out by malloc *)
  tcbs          : list TCB;
  ptcbs         : list PTCB;
  sched         : list wake_event      (* calls of wakeup, oldest first *)
}.

Definition with_PT (v : list PCB) (s : kstate) : kstate :=
  mkK v (process_count s) (pcb_freelist s) (refcount s) (heap s) (tcbs s)
      (ptcbs s) (sched s).
Definition with_process_count (v : Z) (s : kstate) : kstate :=
  mkK (PT s) v (pcb_freelist s) (refcount s) (heap s) (tcbs s) (ptcbs s)
      (sched s).
Definition with_pcb_freelist (v : option nat) (s : kstate) : kstate :=
  mkK (PT s) (process_count s) v (refcount s) (heap s) (tcbs s) (ptcbs s)
      (sched s).
Definition with_refcount (v : gmap nat nat) (s : kstate) : kstate :=
  mkK (PT s) (process_count s) (pcb_freelist s) v (heap s) (tcbs s)
      (ptcbs s) (sched s).
Definition with_heap (v : list (list byte)) (s : kstate) : kstate :=
  mkK (PT s) (process_count s) (pcb_freelist s) (refcount s) v (tcbs s)
      (ptcbs s) (sched s).
Definition with_tcbs (v : list TCB) (s : kstate) : kstate :=
  mkK (PT s) (process_count s) (pcb_freelist s) (refcount s) (heap s) v
      (ptcbs s) (sched s).
Definition with_ptcbs (v : list PTCB) (s : kstate) : kstate :=
  mkK (PT s) (process_count s) (pcb_freelist s) (refcount s) (heap s)
      (tcbs s) v (sched s).
Definition with_sched (v : list wake_event) (s : kstate) : kstate :=
  mkK (PT s) (process_count s) (pcb_freelist s) (refcount s) (heap s)
      (tcbs s) (ptcbs s) v.

(** [pcb->field]: read through a pointer into the table. *)
Definition pcb_at (s : kstate) (p : nat) : PCB := PT s !!! p.

(** [pcb->field = v]: write through a pointer into the table. *)
Definition upd_pcb (p : nat) (f : PCB → PCB) (s : kstate) : kstate :=
  with_PT (alter f p (PT s)) s.

(** [unsigned int] arithmetic. *)
Definition UINT_MOD : Z := 2 ^ 32.
Definition uint_incr (c : Z) : Z := (c + 1) mod UINT_MOD.
Definition uint_decr (c : Z) : Z := (c - 1) mod UINT_MOD.

(** A small state monad for the code that threads the kernel state. *)
Definition K (A : Type) : Type := kstate → A * kstate.
Definition ret {A} (a : A) : K A := λ s, (a, s).
Definition bind {A B} (m : K A) (k : A → K B) : K B :=
  λ s, let (a, s') := m s in k a s'.
Definition get {A} (f : kstate → A) : K A := λ s, (f s, s).
Definition modify (f : kstate → kstate) : K unit := λ s, (tt, f s).

Notation "x <- m ;; k" := (bind m (λ x, k))
  (at level 100, m at next level, right associativity).
Notation "m ;;; k" := (bind m (λ _, k))
  (at level 100, right associativity).

(** ** The slot allocator *)

(** [acquire_PCB]: pop the head of the free list, if there is one. *)
Definition acquire_PCB : K (option nat) := λ s,
  match pcb_freelist s with
  | None => (None, s)
  | Some p =>
      let s1 := upd_pcb p (set_pstate ALIVE) s in
      let s2 := with_pcb_freelist (parent (pcb_at s1 p)) s1 in
      let s3 := with_process_count (uint_incr (process_count s2)) s2 in
      (Some p, s3)
  end.

(** [release_PCB]: push the slot on the free list. *)
Definition release_PCB (p : nat) : K unit := λ s,
  let s1 := upd_pcb p (set_pstate FREE) s in
  let s2 := upd_pcb p (set_parent (pcb_freelist s1)) s1 in
  let s3 := with_pcb_freelist (Some p) s2 in
  (tt, with_process_count (uint_decr (process_count s3)) s3).

(** ** Collaborators outside kernel_proc.c *)

(** Modelled from the spec: the intrusive list library (rlnode,
    rlist_push_front, rlist_push_back, rlist_remove, is_rlist_empty) is
    not in kernel_proc.c.  A list head is the sequence of the slots linked
    on it, first element first ([list.next] is its head); pushing at the
    front or the back and unlinking a node are the operations the design
    document names. *)
Definition rlist_push_front (l : list nat) (x : nat) : list nat := x :: l.
Definition rlist_push_back (l : list nat) (x : nat) : list nat := l ++ [x].
Definition is_rlist_empty (l : list nat) : bool := bool_decide (l = []).
Definition rlist_unlink (x : nat) (l : list nat) : list nat :=
  filter (λ y, y ≠ x) l.

(** [rlist_remove(&pcb->children_node)]: the node leaves the list that
    holds it, whichever process owns that list. *)
Definition rlist_remove_children_node (c : nat) (s : kstate) : kstate :=
  with_PT ((λ b, set_children_list (rlist_unlink c (children_list b)) b)
             <$> PT s) s.

(** [rlist_remove(&pcb->exited_node)]. *)
Definition rlist_remove_exited_node (c : nat) (s : kstate) : kstate :=
  with_PT ((λ b, set_exited_list (rlist_unlink c (exited_list b)) b)
             <$> PT s) s.

(** Modelled from the spec: FCB_incref, the reference-count increment on a
    shared stream handle (kernel_streams.c). *)
Definition FCB_incref (f : nat) : K unit :=
  modify (λ s, with_refcount (<[f := S (refcount s !!! f)]> (refcount s)) s).

(** [malloc(argl)] followed by [memcpy(block, args, argl)], where the two
    are defined: a fresh block holding the first [argl] bytes of the source
    block.  They are defined when the length is not negative and the
    source block has that many bytes ([copy_defined] below); outside of
    that the C code crashes or reads past the block, the block given here
    stands for nothing, and the statements about the copied bytes or about
    a run of calls returning assume [copy_defined].  [malloc] is taken to
    succeed. *)
Definition malloc_copy (src : nat) (n : Z) : K nat := λ s,
  let blk := take (Z.to_nat n) (default [] (heap s !! src)) in
  (length (heap s), with_heap (heap s ++ [blk]) s).

(** Modelled from the spec: spawn_thread, the thread-spawn operation taking
    a process and an entry trampoline and returning a thread record. *)
Definition spawn_thread (p : nat) (f : thread_entry) : K nat := λ s,
  (length (tcbs s), with_tcbs (tcbs s ++ [mkTCB p f None]) s).

(** Modelled from the spec: init_ptcb, which makes one thread-control
    record referencing the task, the argument length and the argument
    pointer it is given (kernel_threads.c). *)
Definition init_ptcb (call : option nat) (n : Z) (a : option nat) : K nat :=
  λ s, (length (ptcbs s), with_ptcbs (ptcbs s ++ [mkPTCB call n a None]) s).

(** Modelled from the spec: wakeup, which makes the thread schedulable.
    From this call on the thread may run and read the kernel state, so the
    call is logged with the state it is made in. *)
Definition wakeup (t : option nat) : K unit := λ s,
  match t with
  | Some tcb =>
      (tt, with_sched (sched s ++ [mkWake tcb (PT s) (tcbs s) (ptcbs s)]) s)
  | None => (tt, s)
  end.

(** Run a loop body over the indices of a [for] loop. *)
Fixpoint for_each (l : list nat) (body : nat → K unit) : K unit :=
  match l with
  | [] => ret tt
  | i :: l' => body i ;;; for_each l' body
  end.

(** ** kernel_proc.c *)

(** The outcome of one pass through a wait function. *)
Inductive wait_result : Type :=
  | WBlocked                                  (* the caller sleeps in kernel_wait *)
  | WReturn (pid : Z) (status : option Z)     (* return value, value stored in *status *)
  | WAssertFailed.                            (* assert(child->pstate == ZOMBIE) failed *)

(** The outcome of [sys_Exit] up to its call of [sys_ThreadExit]. *)
Inductive exit_result : Type :=
  | ExitBlocked                 (* init sleeps while draining its children *)
  | ExitAssertFailed
  | ExitThreadExit (v : Z)      (* sys_ThreadExit(v) is called *)
  | ExitOutOfFuel.

(** The record copied to the reader of the information stream. *)
Record procinfo : Type := mkInfo {
  pi_pid          : Z;
  pi_ppid         : Z;
  pi_alive        : Z;
  pi_thread_count : Z;
  pi_main_task    : option nat;
  pi_argl         : Z;
  pi_args         : list byte        (* char args[PROCINFO_MAX_ARGS_SIZE] *)
}.

(** The cursor object behind an information stream. *)
Record procinfo_cb : Type := mkCb {
  pcbcursor : nat;
  info      : procinfo
}.

(** What one read does: the return value, the cursor object afterwards and
    what was copied to [buf], if anything. *)
Record read_result : Type := mkRead {
  rd_ret : Z;
  rd_cb  : option procinfo_cb;
  rd_buf : option procinfo
}.

(** Where the scan for the next used slot ends. *)
Inductive scan_result : Type :=
  | ScanFound (c : nat)      (* PT[c] is not FREE *)
  | ScanEnd (c : nat)        (* the cursor reached MAX_PROC *)
  | ScanFault.               (* a read outside PT, or no fuel left *)

(** ** Two concrete tables

    A table of four slots with three handles per process.  [demo_off] is
    the machine before [initialize_processes]: only a caller's buffer
    holding the bytes "ab" is in memory.  [demo_run] is a running system:
    slot 0 is the idle process, slot 1 is init, slot 2 is a child of init
    that has exited with status 7 and waits to be reclaimed, slot 3 is
    free.  Init holds the stream 0 at the indices 0 and 1 of its handle
    table and the stream 1 at index 2. *)
Definition demo_off : kstate :=
  mkK [] 0 None ∅ [[x61; x62]] [] [] [].

Definition demo_run : kstate :=
  mkK
    [ mkPCB ALIVE None 0 None None 0 None [None; None; None] [] [] 0 [];
      mkPCB ALIVE None 0 (Some 0%nat) (Some 10%nat) 0 None
            [Some 0%nat; Some 0%nat; Some 1%nat] [2%nat] [2%nat] 1 [0%nat];
      mkPCB ZOMBIE (Some 1%nat) 7 (Some 1%nat) (Some 11%nat) 2 (Some 1%nat)
            [None; None; None] [] [] 0 [1%nat];
      mkPCB FREE None 0 None None 0 None [None; None; None] [] [] 0 [] ]
    3 (Some 3%nat)
    (<[0%nat := 2%nat]> (<[1%nat := 1%nat]> ∅))
    [ [x61; x62]; [x61; x62] ]
    [ mkTCB 1 start_main_thread (Some 0%nat);
      mkTCB 2 start_main_thread (Some 1%nat) ]
    [ mkPTCB (Some 10%nat) 0 None (Some 0%nat);
      mkPTCB (Some 11%nat) 2 (Some 0%nat) (Some 1%nat) ]
    [].

(** An information record with four zero bytes of arguments. *)
Definition demo_info : procinfo :=
  mkInfo 0 0 0 0 None 0 [x00; x00; x00; x00].

Section KernelProc.

Variable MAX_PROC : nat.
Variable MAX_FILEID : nat.
Variable NOPROC : Z.
Variable PROCINFO_MAX_ARGS_SIZE : nat.
Variable SIZEOF_PROCINFO : Z.

(** [get_pcb] *)
Definition get_pcb (s : kstate) (pid : Z) : option nat :=
  let p := Z.to_nat pid in
  if decide (pstate (pcb_at s p) = FREE) then None else Some p.

(** [get_pid] *)
Definition get_pid (pcb : option nat) : Z :=
  match pcb with
  | None => NOPROC
  | Some p => Z.of_nat p
  end.

(** [initialize_PCB] *)
Definition initialize_PCB (b : PCB) : PCB :=
  set_ptcb_list []
    (set_exited_list []
      (set_children_list []
        (set_FIDT (replicate MAX_FILEID None)
          (set_thread_count 0
            (set_args None
              (set_argl 0
                (set_pstate FREE b))))))).

(** The second loop of [initialize_processes]: one step for the slot [p]. *)
Definition freelist_link (p : nat) (s : kstate) : kstate :=
  with_pcb_freelist (Some p) (upd_pcb p (set_parent (pcb_freelist s)) s).

(** The array [PT] has MAX_PROC records.  The records that a state does not
    list are static storage that nothing has written yet, all bits zero. *)
Definition PT_array (s : kstate) : list PCB :=
  take MAX_PROC (PT s ++ replicate MAX_PROC zero_PCB).

(** [initialize_processes], up to its call of [Exec]: [initialize_PCB] on
    every record of the array, which keeps what it does not write, then the
    loop that links the free list. *)
Definition initialize_table (s : kstate) : kstate :=
  let s1 := with_PT (initialize_PCB <$> PT_array s) s in
  let s2 := with_pcb_freelist None s1 in
  let s3 := foldr freelist_link s2 (seq 0 MAX_PROC) in
  with_process_count 0 s3.

(** The stream inheritance loop of [sys_Exec], one index. *)
Definition inherit_stream (cur np i : nat) : K unit :=
  modify (λ s, upd_pcb np
     (λ b, set_FIDT (<[i := FIDT (pcb_at s cur) !!! i]> (FIDT b)) b) s) ;;;
  f <- get (λ s, FIDT (pcb_at s np) !!! i) ;;
  match f with
  | Some fcb => FCB_incref fcb
  | None => ret tt
  end.

(** [sys_Exec], lines 157-177: the parent link, the children list of the
    caller [cur] (CURPROC) and the inherited streams. *)
Definition exec_inherit (cur np : nat) : K unit :=
  if get_pid (Some np) <=? 1 then
    modify (upd_pcb np (set_parent None))
  else
    modify (upd_pcb np (set_parent (Some cur))) ;;;
    modify (upd_pcb cur (λ b,
      set_children_list (rlist_push_front (children_list b) np) b)) ;;;
    for_each (seq 0 MAX_FILEID) (inherit_stream cur np).

(** [sys_Exec], lines 180-190: the task and the copy of the arguments. *)
Definition exec_arguments (np : nat) (call : option nat) (argl : Z)
    (args : option nat) : K unit :=
  modify (upd_pcb np (set_main_task call)) ;;;
  modify (upd_pcb np (set_argl argl)) ;;;
  match args with
  | Some a =>
      blk <- malloc_copy a argl ;;
      modify (upd_pcb np (set_args (Some blk)))
  | None => modify (upd_pcb np (set_args None))
  end.

(** [sys_Exec], lines 197-209: the main thread. *)
Definition exec_main_thread (np : nat) (call : option nat) (argl : Z)
    (args : option nat) : K unit :=
  match call with
  | Some _ =>
      tcb <- spawn_thread np start_main_thread ;;
      ptcb <- init_ptcb call argl args ;;
      modify (λ s, with_tcbs
        (alter (λ t, mkTCB (owner_pcb t) (thread_func t) (Some ptcb))
               tcb (tcbs s)) s) ;;;
      modify (λ s, with_ptcbs
        (alter (λ r, mkPTCB (ptcb_task r) (ptcb_argl r) (ptcb_args r)
                            (Some tcb)) ptcb (ptcbs s)) s) ;;;
      modify (upd_pcb np (λ b,
        set_ptcb_list (rlist_push_back (ptcb_list b) ptcb) b)) ;;;
      modify (upd_pcb np (set_thread_count 1)) ;;;
      modify (upd_pcb np (set_main_thread (Some tcb))) ;;;
      mt <- get (λ s, main_thread (pcb_at s np)) ;;
      wakeup mt
  | None => ret tt
  end.

(** [sys_Exec], called by the process [cur] (CURPROC). *)
Definition sys_Exec (cur : nat) (call : option nat) (argl : Z)
    (args : option nat) : K Z :=
  newproc <- acquire_PCB ;;
  match newproc with
  | None => ret (get_pid None)
  | Some np =>
      exec_inherit cur np ;;;
      exec_arguments np call argl args ;;;
      exec_main_thread np call argl args ;;;
      ret (get_pid (Some np))
  end.

(** [initialize_processes]: [None] is the FATAL halt. *)
Definition initialize_processes (cur : nat) (s : kstate) : option kstate :=
  let (pid, s') := sys_Exec cur None 0 None (initialize_table s) in
  if pid =? 0 then Some s' else None.

(** [sys_GetPid] *)
Definition sys_GetPid (cur : nat) : Z := get_pid (Some cur).

(** [sys_GetPPid] *)
Definition sys_GetPPid (cur : nat) (s : kstate) : Z :=
  get_pid (parent (pcb_at s cur)).

(** [cleanup_zombie]; [status] tells whether the pointer is non-NULL, the
    result is what is stored through it. *)
Definition cleanup_zombie (c : nat) (status : bool) : K (option Z) :=
  st <- get (λ s, if status then Some (exitval (pcb_at s c)) else None) ;;
  modify (rlist_remove_children_node c) ;;;
  modify (rlist_remove_exited_node c) ;;;
  release_PCB c ;;;
  ret st.

(** The loop of [wait_for_specific_child], entered or re-entered after a
    wake-up. *)
Definition wait_for_specific_child_loop (c : nat) (cpid : Z)
    (status : bool) : K wait_result := λ s,
  if decide (pstate (pcb_at s c) = ALIVE) then (WBlocked, s)
  else let (st, s') := cleanup_zombie c status s in (WReturn cpid st, s').

(** [wait_for_specific_child] *)
Definition wait_for_specific_child (cur : nat) (cpid : Z) (status : bool)
    : K wait_result := λ s,
  if (cpid <? 0) || (cpid >=? Z.of_nat MAX_PROC) then (WReturn NOPROC None, s)
  else
    match get_pcb s cpid with
    | None => (WReturn NOPROC None, s)
    | Some c =>
        if decide (parent (pcb_at s c) ≠ Some cur)
        then (WReturn NOPROC None, s)
        else wait_for_specific_child_loop c cpid status s
    end.

(** [wait_for_any_child]: one pass of its loop, then the reclamation. *)
Definition wait_for_any_child (cur : nat) (status : bool)
    : K wait_result := λ s,
  if is_rlist_empty (children_list (pcb_at s cur)) then
    (WReturn NOPROC None, s)
  else
    match exited_list (pcb_at s cur) with
    | [] => (WBlocked, s)
    | c :: _ =>
        if decide (pstate (pcb_at s c) = ZOMBIE) then
          let cpid := get_pid (Some c) in
          let (st, s') := cleanup_zombie c status s in
          (WReturn cpid st, s')
        else (WAssertFailed, s)
    end.

(** [sys_WaitChild] *)
Definition sys_WaitChild (cur : nat) (cpid : Z) (status : bool)
    : K wait_result :=
  if decide (cpid ≠ NOPROC) then wait_for_specific_child cur cpid status
  else wait_for_any_child cur status.

(** The loop [while(sys_WaitChild(NOPROC,NULL)!=NOPROC);] of [sys_Exit]
    and the call of [sys_ThreadExit] after it. *)
Fixpoint sys_Exit_drain (fuel : nat) (cur : nat) (exitval : Z)
    : K exit_result := λ s,
  match sys_WaitChild cur NOPROC false s with
  | (WBlocked, s') => (ExitBlocked, s')
  | (WAssertFailed, s') => (ExitAssertFailed, s')
  | (WReturn pid _, s') =>
      if decide (pid ≠ NOPROC) then
        match fuel with
        | O => (ExitOutOfFuel, s')
        | S fuel' => sys_Exit_drain fuel' cur exitval s'
        end
      else (ExitThreadExit exitval, s')
  end.

(** [sys_Exit], called by the process [cur]. *)
Definition sys_Exit (cur : nat) (exitval : Z) : K exit_result := λ s,
  let s1 := if decide (exitval ≠ 0) then upd_pcb cur (set_exitval exitval) s
            else s in
  if get_pid (Some cur) =? 1 then
    sys_Exit_drain (length (exited_list (pcb_at s1 cur))) cur exitval s1
  else (ExitThreadExit exitval, s1).

(** The loop of [procinfo_read] that looks for the next used slot. *)
Fixpoint procinfo_scan (fuel : nat) (s : kstate) (c : nat) : scan_result :=
  match PT s !! c with
  | None => ScanFault
  | Some pcb =>
      if decide (pstate pcb = FREE) then
        if decide (S c = MAX_PROC) then ScanEnd (S c)
        else match fuel with
             | O => ScanFault
             | S fuel' => procinfo_scan fuel' s (S c)
             end
      else ScanFound c
  end.

(** The loop of [procinfo_read] that copies the argument bytes: the
    indices [i], [i+1], ... [i+n-1]; [None] is a read through NULL or
    outside the block. *)
Fixpoint procinfo_copy_args (n : nat) (i : nat) (src : option (list byte))
    (dst : list byte) : option (list byte) :=
  match n with
  | O => Some dst
  | S n' =>
      match src with
      | None => None
      | Some blk =>
          match blk !! i with
          | None => None
          | Some x => procinfo_copy_args n' (S i) src (<[i := x]> dst)
          end
      end
  end.

(** [procinfo_read]; [None] is a memory fault. *)
Definition procinfo_read (cb : option procinfo_cb) (s : kstate)
    : option read_result :=
  match cb with
  | None => Some (mkRead 0 None None)
  | Some pi =>
      if decide (pcbcursor pi = MAX_PROC) then Some (mkRead 0 cb None)
      else
        match procinfo_scan MAX_PROC s (pcbcursor pi) with
        | ScanFault => None
        | ScanEnd c => Some (mkRead 0 (Some (mkCb c (info pi))) None)
        | ScanFound c =>
            let pcb := pcb_at s c in
            let alive := if decide (pstate pcb = ALIVE) then 1 else 0 in
            let n := Z.to_nat (Z.min (argl pcb)
                                     (Z.of_nat PROCINFO_MAX_ARGS_SIZE)) in
            let src := match args pcb with
                       | None => None
                       | Some a => heap s !! a
                       end in
            match procinfo_copy_args n 0 src (pi_args (info pi)) with
            | None => None
            | Some bytes =>
                let i := mkInfo (get_pid (Some c)) (get_pid (parent pcb))
                                alive (thread_count pcb) (main_task pcb)
                                (argl pcb) bytes in
                Some (mkRead SIZEOF_PROCINFO (Some (mkCb (S c) i)) (Some i))
            end
        end
  end.

(** [init_procinfo_cb]; [xmalloc] leaves [info] as it finds it. *)
Definition init_procinfo_cb (garbage : procinfo) : procinfo_cb :=
  mkCb 0 garbage.

(** Modelled from the spec: the step of the thread-exit mechanism
    (sys_ThreadExit, which is not in kernel_proc.c) taken when the last
    thread of the process [cur] finishes.  The process goes from ALIVE to
    ZOMBIE and arrives on its parent's list of exited children; the signal
    to the parent ends a [WBlocked].  There is no such transition from
    another state.  The design document has the exited children reclaimed
    first in, first out by arrival, and [wait_for_any_child] reclaims the
    first element of the list: the arrival is at the back.

    The design document also has the process leave its parent's children
    list at this step ([relocate] is true).  kernel_proc.c is written for
    a zombie that is still on that list: [wait_for_any_child] returns
    NOPROC for an empty children list before it looks for a zombie, and
    [cleanup_zombie] is what unlinks [children_node] ([relocate] is
    false).  Both are modelled, and what is proved of a run holds for
    either choice at each exit, unless the statement fixes it. *)
Definition thread_exit_last (relocate : bool) (cur : nat) : K unit := λ s,
  if decide (pstate (pcb_at s cur) = ALIVE) then
    let s1 := upd_pcb cur (set_pstate ZOMBIE) s in
    match parent (pcb_at s1 cur) with
    | None => (tt, s1)
    | Some pp =>
        (tt, upd_pcb pp (λ b,
               set_exited_list (rlist_push_back (exited_list b) cur)
                 (if relocate
                  then set_children_list
                         (rlist_unlink cur (children_list b)) b
                  else b))
               s1)
    end
  else (tt, s).

(** ** Vocabulary of the properties *)

(** The number of slots of the table whose state is not FREE. *)
Definition used_slots (s : kstate) : nat :=
  length (filter (λ p, pstate (pcb_at s p) ≠ FREE) (seq 0 MAX_PROC)).

(** The slots linked from [hd] through the [parent] fields are [l]. *)
Fixpoint free_chain (pt : list PCB) (hd : option nat) (l : list nat) : Prop :=
  match l with
  | [] => hd = None
  | p :: l' =>
      hd = Some p ∧ (p < length pt)%nat
      ∧ free_chain pt (parent (pt !!! p)) l'
  end.

(** The allocator invariant: the table has MAX_PROC slots, the free list
    links each FREE slot once and no other slot, and [process_count] is
    the number of used slots. *)
Definition alloc_inv (s : kstate) : Prop :=
  length (PT s) = MAX_PROC
  ∧ process_count s = Z.of_nat (used_slots s)
  ∧ ∃ l, free_chain (PT s) (pcb_freelist s) l
         ∧ NoDup l
         ∧ ∀ p, p ∈ l ↔ (p < MAX_PROC)%nat ∧ pstate (pcb_at s p) = FREE.

(** A step of the kernel on the process table, made with the kernel lock
    held: a call of one of the two allocator functions, a system call run
    from its first line up to its return or its first sleep in
    [kernel_wait], or the continuation of a sleeping call.
    - [CallWaitChild] is [sys_WaitChild] from its first line.
    - [CallWaitResume] is what a thread sleeping in
      [wait_for_specific_child] runs when it wakes up: the test of the
      loop on the child [c] it was waiting for and, when [c] is not ALIVE,
      [cleanup_zombie], without any other check.  A thread sleeping in
      [wait_for_any_child] wakes up at the top of its loop, which is the
      first line of the function: its continuation is [CallWaitChild] with
      NOPROC.
    - [CallExit] is [sys_Exit] followed, when it gets there, by the exit
      of the last thread; [sys_Exit] of init sleeping in its loop wakes up
      in [wait_for_any_child], and its continuation is [CallExit]
      again. *)
Inductive kernel_call : Type :=
  | CallAcquire
  | CallRelease (p : nat)
  | CallExec (cur : nat) (call : option nat) (argl : Z) (args : option nat)
  | CallWaitChild (cur : nat) (cpid : Z) (status : bool)
  | CallWaitResume (c : nat) (cpid : Z) (status : bool)
  | CallExit (cur : nat) (v : Z) (relocate : bool).

Definition run_call (c : kernel_call) (s : kstate) : kstate :=
  match c with
  | CallAcquire => snd (acquire_PCB s)
  | CallRelease p => snd (release_PCB p s)
  | CallExec cur call argl args => snd (sys_Exec cur call argl args s)
  | CallWaitChild cur cpid status => snd (sys_WaitChild cur cpid status s)
  | CallWaitResume c cpid status =>
      snd (wait_for_specific_child_loop c cpid status s)
  | CallExit cur v relocate =>
      match sys_Exit cur v s with
      | (ExitThreadExit _, s') => snd (thread_exit_last relocate cur s')
      | (_, s') => s'
      end
  end.

Definition run_calls (l : list kernel_call) (s : kstate) : kstate :=
  foldl (λ s c, run_call c s) s l.

(** [release_PCB] is given a slot of the table that is in use, and a
    thread that wakes up in [wait_for_specific_child] finds the child it
    was waiting for not reclaimed yet. *)
Definition call_allowed (s : kstate) (c : kernel_call) : Prop :=
  match c with
  | CallRelease p => (p < MAX_PROC)%nat ∧ pstate (pcb_at s p) ≠ FREE
  | CallWaitResume c _ _ => pstate (pcb_at s c) ≠ FREE
  | _ => True
  end.

Fixpoint calls_allowed (s : kstate) (l : list kernel_call) : Prop :=
  match l with
  | [] => True
  | c :: l' => call_allowed s c ∧ calls_allowed (run_call c s) l'
  end.

(** Only [acquire_PCB] and [release_PCB] are called. *)
Definition allocator_call (c : kernel_call) : Prop :=
  match c with
  | CallAcquire | CallRelease _ => True
  | _ => False
  end.

(** One request to [Exec]: the caller and the three arguments. *)
Record exec_request : Type := mkReq {
  req_cur  : nat;
  req_call : option nat;
  req_argl : Z;
  req_args : option nat
}.

(** A run of [Exec] calls with nothing else in between; the PIDs they
    return, first call first. *)
Fixpoint exec_all (reqs : list exec_request) (s : kstate) : list Z * kstate :=
  match reqs with
  | [] => ([], s)
  | r :: reqs' =>
      let (pid, s1) :=
        sys_Exec (req_cur r) (req_call r) (req_argl r) (req_args r) s in
      let (pids, s2) := exec_all reqs' s1 in
      (pid :: pids, s2)
  end.


(** The number of argument bytes one read copies from a slot. *)
Definition args_copied (b : PCB) : nat :=
  Z.to_nat (Z.min (argl b) (Z.of_nat PROCINFO_MAX_ARGS_SIZE)).

(** The bytes that [procinfo_read] reads through [pcb->args] exist. *)
Definition args_readable (s : kstate) (b : PCB) : Prop :=
  args_copied b = 0%nat
  ∨ ∃ a blk, args b = Some a ∧ heap s !! a = Some blk
             ∧ (args_copied b ≤ length blk)%nat.

(** When [sys_WaitChild] fails at once. *)
Definition wait_fails_at_once (cur : nat) (cpid : Z) (s : kstate) : Prop :=
  (cpid ≠ NOPROC ∧
     (cpid < 0 ∨ Z.of_nat MAX_PROC ≤ cpid
      ∨ pstate (pcb_at s (Z.to_nat cpid)) = FREE
      ∨ parent (pcb_at s (Z.to_nat cpid)) ≠ Some cur))
  ∨ (cpid = NOPROC ∧ children_list (pcb_at s cur) = []).

(** The PID of the idle process: [initialize_processes] halts the system
    unless the first [Exec] returns it. *)
Definition IDLE_PID : Z := 0.

(** The components of the state the inheritance loop keeps. *)
Definition keeps_allocator (s s' : kstate) : Prop :=
  length (PT s') = length (PT s)
  ∧ pcb_freelist s' = pcb_freelist s
  ∧ process_count s' = process_count s.

(** [sys_Exec] as the sequence of its blocks. *)
Definition exec_blocks (cur np : nat) (call : option nat) (argl : Z)
    (args : option nat) (s : kstate) : kstate :=
  snd (exec_main_thread np call argl args
    (snd (exec_arguments np call argl args
      (snd (exec_inherit cur np (snd (acquire_PCB s))))))).

(** A step that keeps the allocator: the free list pointer, the counter,
    which slots are FREE, and the links of the FREE slots. *)
Definition frame (s s' : kstate) : Prop :=
  keeps_allocator s s'
  ∧ ∀ q, (pstate (pcb_at s' q) = FREE ↔ pstate (pcb_at s q) = FREE)
         ∧ (pstate (pcb_at s q) = FREE →
            parent (pcb_at s' q) = parent (pcb_at s q)).

(** A reader of the information stream that reads records until a read
    returns 0, as a process lister does with
    [while(Read(fid, &info, sizeof(info)) > 0)]; the records it gets, first
    one first.  The table is not changed between the reads.  [None] is a
    memory fault, or [fuel] reads without reaching the end. *)
Fixpoint procinfo_read_all (fuel : nat) (cb : procinfo_cb) (s : kstate)
    : option (list procinfo) :=
  match fuel with
  | O => None
  | S fuel' =>
      match procinfo_read (Some cb) s with
      | None => None
      | Some r =>
          if rd_ret r <=? 0 then Some []
          else match rd_cb r, rd_buf r with
               | Some cb', Some i => cons i <$> procinfo_read_all fuel' cb' s
               | _, _ => None
               end
      end
  end.

(** The record [r] describes the slot [p] of the table. *)
Definition describes (s : kstate) (r : procinfo) (p : nat) : Prop :=
  let b := pcb_at s p in
  pi_pid r = Z.of_nat p
  ∧ pi_ppid r = get_pid (parent b)
  ∧ pi_alive r = (if decide (pstate b = ALIVE) then 1 else 0)
  ∧ pi_thread_count r = thread_count b
  ∧ pi_main_task r = main_task b
  ∧ pi_argl r = argl b
  ∧ length (pi_args r) = PROCINFO_MAX_ARGS_SIZE
  ∧ ∀ a blk k, args b = Some a → heap s !! a = Some blk →
               (k < args_copied b)%nat → pi_args r !! k = blk !! k.

(** The slots in use, in the order of their PIDs. *)
Definition used_pids (s : kstate) (c n : nat) : list nat :=
  filter (λ p, pstate (pcb_at s p) ≠ FREE) (seq c n).

(** The process tree is consistent: no children list and no exited list
    holds a slot twice; a member of a children list is a slot in use and a
    member of an exited list is a ZOMBIE; and the parent of a member is the
    owner of the list. *)
Definition tree_inv (s : kstate) : Prop :=
  ∀ p, (p < length (PT s))%nat →
    NoDup (children_list (pcb_at s p))
    ∧ NoDup (exited_list (pcb_at s p))
    ∧ (∀ c, c ∈ children_list (pcb_at s p) →
            pstate (pcb_at s c) ≠ FREE ∧ parent (pcb_at s c) = Some p)
    ∧ (∀ c, c ∈ exited_list (pcb_at s p) →
            pstate (pcb_at s c) = ZOMBIE ∧ parent (pcb_at s c) = Some p).

(** [start_main_thread], run by the main thread of the process [cur];
    [None] is a call through a NULL function pointer.  [run_task] is the
    call of a task: a function of the program that is given the argument
    length and the argument pointer, may change the kernel state through
    system calls and returns the exit value.  A task that does not return
    is outside this model. *)
Definition start_main_thread_body (run_task : nat → Z → option nat → K Z)
    (cur : nat) : K (option exit_result) := λ s,
  let b := pcb_at s cur in
  match main_task b with
  | None => (None, s)
  | Some t =>
      let (exitval, s1) := run_task t (argl b) (args b) s in
      let (r, s2) := sys_Exit cur exitval s1 in
      (Some r, s2)
  end.

(** The steps that processes make: [sys_Exec] is called by a process whose
    slot is in use, [release_PCB] is not called from outside
    [cleanup_zombie], and a thread that wakes up in
    [wait_for_specific_child] finds its child not reclaimed yet. *)
Definition tree_call_allowed (s : kstate) (c : kernel_call) : Prop :=
  match c with
  | CallExec cur _ _ _ => pstate (pcb_at s cur) ≠ FREE
  | CallRelease _ => False
  | CallWaitResume c _ _ => pstate (pcb_at s c) ≠ FREE
  | _ => True
  end.

Fixpoint tree_calls_allowed (s : kstate) (l : list kernel_call) : Prop :=
  match l with
  | [] => True
  | c :: l' => tree_call_allowed s c ∧ tree_calls_allowed (run_call c s) l'
  end.




(** [malloc(argl)] followed by [memcpy(newproc->args, args, argl)] in
    [sys_Exec] is defined: the buffer is NULL, in which case neither is
    called, or the length is not negative and the buffer is a block of at
    least that many bytes.  Outside of this the C code has no defined
    result (a negative length is a huge [size_t], and a length beyond the
    block reads past its end), and [malloc_copy] stands for nothing. *)
Definition copy_defined (s : kstate) (argl : Z) (args : option nat) : Prop :=
  match args with
  | None => True
  | Some a =>
      ∃ blk, heap s !! a = Some blk ∧ 0 ≤ argl ≤ Z.of_nat (length blk)
  end.

(** The copy is defined at each call of a run of [Exec] calls, in the
    state in which the call is made. *)
Fixpoint execs_defined (s : kstate) (reqs : list exec_request) : Prop :=
  match reqs with
  | [] => True
  | r :: reqs' =>
      copy_defined s (req_argl r) (req_args r)
      ∧ execs_defined
          (snd (sys_Exec (req_cur r) (req_call r) (req_argl r) (req_args r)
                  s))
          reqs'
  end.

(** ** Reading and writing slots *)

Lemma pcb_at_upd_eq p f s :
  (p < length (PT s))%nat → pcb_at (upd_pcb p f s) p = f (pcb_at s p).
Proof. intros H. unfold pcb_at, upd_pcb; simpl. by apply list_lookup_total_alter_eq. Qed.

Lemma pcb_at_upd_ne p q f s :
  p ≠ q → pcb_at (upd_pcb p f s) q = pcb_at s q.
Proof. intros H. unfold pcb_at, upd_pcb; simpl. by apply list_lookup_total_alter_ne. Qed.

Lemma pcb_at_upd p q f s :
  pcb_at (upd_pcb p f s) q =
    if decide (p = q ∧ (p < length (PT s))%nat) then f (pcb_at s p)
    else pcb_at s q.
Proof. unfold pcb_at, upd_pcb; simpl. apply list_lookup_total_alter. Qed.

Lemma length_PT_upd p f s : length (PT (upd_pcb p f s)) = length (PT s).
Proof. unfold upd_pcb; simpl. apply length_alter. Qed.

(** Components of the state that a write to another component keeps. *)
Lemma pcb_at_with_process_count v s p : pcb_at (with_process_count v s) p = pcb_at s p.
Proof. done. Qed.
Lemma pcb_at_with_pcb_freelist v s p : pcb_at (with_pcb_freelist v s) p = pcb_at s p.
Proof. done. Qed.
Lemma pcb_at_with_refcount v s p : pcb_at (with_refcount v s) p = pcb_at s p.
Proof. done. Qed.
Lemma pcb_at_with_heap v s p : pcb_at (with_heap v s) p = pcb_at s p.
Proof. done. Qed.
Lemma pcb_at_with_tcbs v s p : pcb_at (with_tcbs v s) p = pcb_at s p.
Proof. done. Qed.
Lemma pcb_at_with_ptcbs v s p : pcb_at (with_ptcbs v s) p = pcb_at s p.
Proof. done. Qed.
Lemma pcb_at_with_sched v s p : pcb_at (with_sched v s) p = pcb_at s p.
Proof. done. Qed.

Lemma process_count_upd p f s : process_count (upd_pcb p f s) = process_count s.
Proof. done. Qed.
Lemma pcb_freelist_upd p f s : pcb_freelist (upd_pcb p f s) = pcb_freelist s.
Proof. done. Qed.
Lemma refcount_upd p f s : refcount (upd_pcb p f s) = refcount s.
Proof. done. Qed.
Lemma heap_upd p f s : heap (upd_pcb p f s) = heap s.
Proof. done. Qed.
Lemma tcbs_upd p f s : tcbs (upd_pcb p f s) = tcbs s.
Proof. done. Qed.
Lemma ptcbs_upd p f s : ptcbs (upd_pcb p f s) = ptcbs s.
Proof. done. Qed.
Lemma sched_upd p f s : sched (upd_pcb p f s) = sched s.
Proof. done. Qed.

Create Rewrite HintDb kstate.
#[local] Hint Rewrite process_count_upd pcb_freelist_upd refcount_upd heap_upd
  tcbs_upd ptcbs_upd sched_upd length_PT_upd : kstate.
#[local] Hint Rewrite pcb_at_with_process_count pcb_at_with_pcb_freelist
  pcb_at_with_refcount pcb_at_with_heap pcb_at_with_tcbs pcb_at_with_ptcbs
  pcb_at_with_sched : kstate.

(** Rewrite the state down to its reads and writes of slots. *)
Ltac ksimpl_goal :=
  repeat progress
    (cbn [PT process_count pcb_freelist refcount heap tcbs ptcbs sched
          with_PT with_process_count with_pcb_freelist with_refcount
          with_heap with_tcbs with_ptcbs with_sched fst snd];
     autorewrite with kstate).

Ltac ksimpl_in H :=
  repeat progress
    (cbn [PT process_count pcb_freelist refcount heap tcbs ptcbs sched
          with_PT with_process_count with_pcb_freelist with_refcount
          with_heap with_tcbs with_ptcbs with_sched fst snd] in H;
     autorewrite with kstate in H).

Ltac ksimpl :=
  ksimpl_goal;
  repeat match goal with H : _ |- _ => progress (ksimpl_in H) end.

(** A field that [f] leaves alone reads the same after [upd_pcb p f]. *)
Lemma pcb_at_upd_field {A} (g : PCB → A) p q f s :
  (∀ b, g (f b) = g b) → g (pcb_at (upd_pcb p f s) q) = g (pcb_at s q).
Proof.
  intros Hf. rewrite pcb_at_upd. case_decide as H; [|done].
  destruct H as [-> _]. apply Hf.
Qed.

(** Reading a slot after a map over the whole table. *)
Lemma pcb_at_fmap (g : PCB → PCB) s q :
  (q < length (PT s))%nat → (g <$> PT s) !!! q = g (pcb_at s q).
Proof. intros H. unfold pcb_at. by apply list_lookup_total_fmap. Qed.

Lemma uint_decr_incr c : 0 ≤ c < UINT_MOD → uint_incr (uint_decr c) = c.
Proof.
  intros H. unfold uint_incr, uint_decr, UINT_MOD in *.
  rewrite Zplus_mod_idemp_l. replace (c - 1 + 1) with c by lia.
  by apply Z.mod_small.
Qed.

Lemma uint_incr_small c : 0 ≤ c → c + 1 < UINT_MOD → uint_incr c = c + 1.
Proof. intros. unfold uint_incr. apply Z.mod_small. lia. Qed.

Lemma uint_decr_small c : 0 < c < UINT_MOD → uint_decr c = c - 1.
Proof. intros. unfold uint_decr. apply Z.mod_small. lia. Qed.

(** ** The free list is a stack *)

(** C10.  Releasing a slot [p] of the table and acquiring right after it
    returns [p] itself, in state ALIVE, with [process_count] (an unsigned
    int) back at the value it had before the release; the free list is
    back at its old head as well. *)
Theorem release_acquire_roundtrip (s : kstate) (p : nat) :
  (p < length (PT s))%nat →
  0 ≤ process_count s < UINT_MOD →
  let s1 := snd (release_PCB p s) in
  fst (acquire_PCB s1) = Some p
  ∧ pstate (pcb_at (snd (acquire_PCB s1)) p) = ALIVE
  ∧ process_count (snd (acquire_PCB s1)) = process_count s
  ∧ pcb_freelist (snd (acquire_PCB s1)) = pcb_freelist s.
Proof.
  intros Hp Hc. unfold release_PCB, acquire_PCB. ksimpl.
  repeat split.
  - ksimpl. rewrite pcb_at_upd_eq by (ksimpl; by rewrite ?length_PT_upd). done.
  - ksimpl. by apply uint_decr_incr.
  - ksimpl. rewrite (pcb_at_upd_field parent) by done.
    ksimpl. rewrite pcb_at_upd_eq by (by rewrite ?length_PT_upd). done.
Qed.

Lemma acquire_PCB_fst s : fst (acquire_PCB s) = pcb_freelist s.
Proof. unfold acquire_PCB. by destruct (pcb_freelist s). Qed.

Lemma acquire_PCB_pstate s p q :
  pcb_freelist s = Some p →
  pstate (pcb_at (snd (acquire_PCB s)) q) =
    if decide (p = q ∧ (p < length (PT s))%nat) then ALIVE
    else pstate (pcb_at s q).
Proof.
  intros Hf. unfold acquire_PCB. rewrite Hf. ksimpl.
  rewrite pcb_at_upd. by case_decide.
Qed.

Lemma acquire_PCB_field {A} (g : PCB → A) s q :
  (∀ v b, g (set_pstate v b) = g b) →
  g (pcb_at (snd (acquire_PCB s)) q) = g (pcb_at s q).
Proof.
  intros Hg. unfold acquire_PCB. destruct (pcb_freelist s); [|done].
  ksimpl. by rewrite (pcb_at_upd_field g) by auto.
Qed.

Lemma release_PCB_pstate p s q :
  pstate (pcb_at (snd (release_PCB p s)) q) =
    if decide (p = q ∧ (p < length (PT s))%nat) then FREE
    else pstate (pcb_at s q).
Proof.
  unfold release_PCB. ksimpl.
  rewrite (pcb_at_upd_field pstate) by done.
  rewrite pcb_at_upd. by case_decide.
Qed.

(** ** What the reclamation of a zombie touches *)

Lemma pcb_at_fmap_field {A} (g : PCB → A) (h : PCB → PCB) s q :
  (∀ b, g (h b) = g b) →
  g (pcb_at (with_PT (h <$> PT s) s) q) = g (pcb_at s q).
Proof.
  intros Hh. unfold pcb_at; ksimpl.
  rewrite !list_lookup_total_alt, list_lookup_fmap.
  destruct (PT s !! q); simpl; [apply Hh | done].
Qed.

Lemma pcb_at_fmap_eq (h : PCB → PCB) s q :
  (q < length (PT s))%nat →
  pcb_at (with_PT (h <$> PT s) s) q = h (pcb_at s q).
Proof. intros H. unfold pcb_at; ksimpl. by apply list_lookup_total_fmap. Qed.

(** A field other than the two lists, the state and the parent link is
    the same in every slot after [cleanup_zombie]. *)
Lemma cleanup_zombie_field {A} (g : PCB → A) c status s q :
  (∀ v b, g (set_children_list v b) = g b) →
  (∀ v b, g (set_exited_list v b) = g b) →
  (∀ v b, g (set_pstate v b) = g b) →
  (∀ v b, g (set_parent v b) = g b) →
  g (pcb_at (snd (cleanup_zombie c status s)) q) = g (pcb_at s q).
Proof.
  intros H1 H2 H3 H4. unfold cleanup_zombie, release_PCB, bind, get, modify, ret.
  ksimpl.
  rewrite (pcb_at_upd_field g) by auto. ksimpl.
  rewrite (pcb_at_upd_field g) by auto.
  unfold rlist_remove_exited_node, rlist_remove_children_node.
  rewrite (pcb_at_fmap_field g) by auto.
  rewrite (pcb_at_fmap_field g) by auto. done.
Qed.

Lemma cleanup_zombie_length c status s :
  length (PT (snd (cleanup_zombie c status s))) = length (PT s).
Proof.
  unfold cleanup_zombie, release_PCB, bind, get, modify, ret. ksimpl.
  rewrite ?length_PT_upd.
  unfold rlist_remove_exited_node, rlist_remove_children_node. ksimpl.
  by rewrite !length_fmap.
Qed.

Lemma cleanup_zombie_status c status s :
  fst (cleanup_zombie c status s) =
    if status then Some (exitval (pcb_at s c)) else None.
Proof. done. Qed.

(** The two lists of every slot lose [c] and nothing else. *)
Lemma cleanup_zombie_children c status s q :
  (q < length (PT s))%nat →
  children_list (pcb_at (snd (cleanup_zombie c status s)) q) =
    rlist_unlink c (children_list (pcb_at s q)).
Proof.
  intros Hq. unfold cleanup_zombie, release_PCB, bind, get, modify, ret.
  ksimpl.
  rewrite (pcb_at_upd_field children_list) by done. ksimpl.
  rewrite (pcb_at_upd_field children_list) by done.
  unfold rlist_remove_exited_node.
  rewrite (pcb_at_fmap_field children_list) by done.
  unfold rlist_remove_children_node.
  rewrite pcb_at_fmap_eq by done. done.
Qed.

Lemma cleanup_zombie_exited c status s q :
  (q < length (PT s))%nat →
  exited_list (pcb_at (snd (cleanup_zombie c status s)) q) =
    rlist_unlink c (exited_list (pcb_at s q)).
Proof.
  intros Hq. unfold cleanup_zombie, release_PCB, bind, get, modify, ret.
  ksimpl.
  rewrite (pcb_at_upd_field exited_list) by done. ksimpl.
  rewrite (pcb_at_upd_field exited_list) by done.
  unfold rlist_remove_exited_node.
  rewrite pcb_at_fmap_eq
    by (unfold rlist_remove_children_node; ksimpl; by rewrite length_fmap).
  unfold rlist_remove_children_node.
  rewrite (pcb_at_fmap_field exited_list) by done. done.
Qed.

(** The slot itself ends FREE, at the head of the free list, linked to the
    old head, and [process_count] is one less. *)
Lemma cleanup_zombie_released c status s :
  (c < length (PT s))%nat →
  let s' := snd (cleanup_zombie c status s) in
  pstate (pcb_at s' c) = FREE
  ∧ pcb_freelist s' = Some c
  ∧ parent (pcb_at s' c) = pcb_freelist s
  ∧ process_count s' = uint_decr (process_count s).
Proof.
  intros Hc. unfold cleanup_zombie, release_PCB, bind, get, modify, ret.
  ksimpl.
  assert (Hlen : (c < length (PT (rlist_remove_exited_node c
                    (rlist_remove_children_node c s))))%nat).
  { unfold rlist_remove_exited_node, rlist_remove_children_node. ksimpl.
    by rewrite !length_fmap. }
  repeat split; ksimpl.
  - rewrite (pcb_at_upd_field pstate) by done.
    rewrite pcb_at_upd_eq by done. done.
  - rewrite pcb_at_upd_eq by (by rewrite ?length_PT_upd). done.
Qed.

Lemma not_elem_of_rlist_unlink x l : x ∉ rlist_unlink x l.
Proof. unfold rlist_unlink. rewrite list_elem_of_filter. intros [H _]. by apply H. Qed.

Lemma rlist_unlink_head_length x l :
  (length (rlist_unlink x (x :: l)) ≤ length l)%nat.
Proof.
  unfold rlist_unlink. rewrite filter_cons_False by naive_solver.
  apply length_filter.
Qed.

(** ** Exec, block by block *)

Lemma bind_run {A B} (m : K A) (k : A → K B) s :
  bind m k s = k (fst (m s)) (snd (m s)).
Proof. unfold bind. by destruct (m s). Qed.

(** Unfold a sequence of monadic steps into nested states. *)
Ltac krun :=
  repeat rewrite bind_run; unfold modify, get, ret; ksimpl.

Lemma for_each_cons i l body s :
  for_each (i :: l) body s = for_each l body (snd (body i s)).
Proof. simpl. by rewrite bind_run. Qed.

Lemma keeps_allocator_refl s : keeps_allocator s s.
Proof. by unfold keeps_allocator. Qed.

Lemma keeps_allocator_trans s1 s2 s3 :
  keeps_allocator s1 s2 → keeps_allocator s2 s3 → keeps_allocator s1 s3.
Proof. unfold keeps_allocator. intros (?&?&?) (?&?&?). split_and!; congruence. Qed.

Lemma keeps_allocator_upd p f s : keeps_allocator s (upd_pcb p f s).
Proof. unfold keeps_allocator. by rewrite ?length_PT_upd. Qed.

Lemma inherit_stream_snd cur np i s :
  snd (inherit_stream cur np i s) =
    let s1 := upd_pcb np
      (λ b, set_FIDT (<[i := FIDT (pcb_at s cur) !!! i]> (FIDT b)) b) s in
    match FIDT (pcb_at s1 np) !!! i with
    | Some fcb =>
        with_refcount (<[fcb := S (refcount s1 !!! fcb)]> (refcount s1)) s1
    | None => s1
    end.
Proof.
  unfold inherit_stream. krun.
  by destruct (FIDT (pcb_at _ np) !!! i).
Qed.

Lemma inherit_stream_field {A} (g : PCB → A) cur np i s q :
  (∀ v b, g (set_FIDT v b) = g b) →
  g (pcb_at (snd (inherit_stream cur np i s)) q) = g (pcb_at s q).
Proof.
  intros Hg. rewrite inherit_stream_snd. cbv zeta.
  destruct (FIDT (pcb_at _ np) !!! i); ksimpl;
    by rewrite (pcb_at_upd_field g) by auto.
Qed.

Lemma inherit_stream_keeps cur np i s :
  keeps_allocator s (snd (inherit_stream cur np i s))
  ∧ heap (snd (inherit_stream cur np i s)) = heap s
  ∧ tcbs (snd (inherit_stream cur np i s)) = tcbs s
  ∧ ptcbs (snd (inherit_stream cur np i s)) = ptcbs s
  ∧ sched (snd (inherit_stream cur np i s)) = sched s.
Proof.
  rewrite inherit_stream_snd. cbv zeta. unfold keeps_allocator.
  destruct (FIDT (pcb_at _ np) !!! i); ksimpl; by rewrite ?length_PT_upd.
Qed.

Lemma for_each_inherit_field {A} (g : PCB → A) cur np l s q :
  (∀ v b, g (set_FIDT v b) = g b) →
  g (pcb_at (snd (for_each l (inherit_stream cur np) s)) q) = g (pcb_at s q).
Proof.
  intros Hg. revert s. induction l as [|i l IH]; intros s; [done|].
  rewrite for_each_cons, IH. by apply inherit_stream_field.
Qed.

Lemma for_each_inherit_keeps cur np l s :
  keeps_allocator s (snd (for_each l (inherit_stream cur np) s))
  ∧ heap (snd (for_each l (inherit_stream cur np) s)) = heap s
  ∧ tcbs (snd (for_each l (inherit_stream cur np) s)) = tcbs s
  ∧ ptcbs (snd (for_each l (inherit_stream cur np) s)) = ptcbs s
  ∧ sched (snd (for_each l (inherit_stream cur np) s)) = sched s.
Proof.
  revert s. induction l as [|i l IH]; intros s.
  { split_and!; first [done | apply keeps_allocator_refl]. }
  rewrite for_each_cons.
  destruct (IH (snd (inherit_stream cur np i s))) as (H1 & H2 & H3 & H4 & H5).
  destruct (inherit_stream_keeps cur np i s) as (G1 & G2 & G3 & G4 & G5).
  split_and!; try congruence. by eapply keeps_allocator_trans.
Qed.

(** [exec_inherit] *)
Lemma exec_inherit_field {A} (g : PCB → A) cur np s q :
  (∀ v b, g (set_parent v b) = g b) →
  (∀ v b, g (set_children_list v b) = g b) →
  (∀ v b, g (set_FIDT v b) = g b) →
  g (pcb_at (snd (exec_inherit cur np s)) q) = g (pcb_at s q).
Proof.
  intros H1 H2 H3. unfold exec_inherit.
  destruct (get_pid (Some np) <=? 1); krun.
  - by rewrite (pcb_at_upd_field g) by auto.
  - rewrite for_each_inherit_field by done.
    rewrite (pcb_at_upd_field g) by auto.
    by rewrite (pcb_at_upd_field g) by auto.
Qed.

Lemma exec_inherit_keeps cur np s :
  keeps_allocator s (snd (exec_inherit cur np s))
  ∧ heap (snd (exec_inherit cur np s)) = heap s
  ∧ tcbs (snd (exec_inherit cur np s)) = tcbs s
  ∧ ptcbs (snd (exec_inherit cur np s)) = ptcbs s
  ∧ sched (snd (exec_inherit cur np s)) = sched s.
Proof.
  unfold exec_inherit. destruct (get_pid (Some np) <=? 1); krun.
  - split_and!; first [done | apply keeps_allocator_upd].
  - match goal with |- context [for_each ?l ?b ?s0] =>
      destruct (for_each_inherit_keeps cur np l s0) as (H1 & H2 & H3 & H4 & H5)
    end.
    split_and!; try done.
    eapply keeps_allocator_trans; [|exact H1].
    eapply keeps_allocator_trans; apply keeps_allocator_upd.
Qed.

Lemma exec_inherit_parent cur np s :
  (np < length (PT s))%nat →
  parent (pcb_at (snd (exec_inherit cur np s)) np) =
    if get_pid (Some np) <=? 1 then None else Some cur.
Proof.
  intros Hnp. unfold exec_inherit.
  destruct (get_pid (Some np) <=? 1); krun.
  - by rewrite pcb_at_upd_eq.
  - rewrite (for_each_inherit_field parent) by done.
    rewrite (pcb_at_upd_field parent) by done.
    by rewrite pcb_at_upd_eq.
Qed.

(** [exec_arguments] *)
Lemma exec_arguments_snd np call argl args s :
  snd (exec_arguments np call argl args s) =
    let s1 := upd_pcb np (set_argl argl) (upd_pcb np (set_main_task call) s) in
    match args with
    | Some a =>
        upd_pcb np (set_args (Some (length (heap s))))
          (with_heap (heap s ++
             [take (Z.to_nat argl) (default [] (heap s !! a))]) s1)
    | None => upd_pcb np (set_args None) s1
    end.
Proof. unfold exec_arguments. destruct args; krun; done. Qed.

Lemma exec_arguments_field {A} (g : PCB → A) np call argl args s q :
  (∀ v b, g (set_main_task v b) = g b) →
  (∀ v b, g (set_argl v b) = g b) →
  (∀ v b, g (set_args v b) = g b) →
  g (pcb_at (snd (exec_arguments np call argl args s)) q) = g (pcb_at s q).
Proof.
  intros H1 H2 H3. rewrite exec_arguments_snd. cbv zeta.
  destruct args; rewrite (pcb_at_upd_field g) by auto; ksimpl;
    rewrite (pcb_at_upd_field g) by auto;
    by rewrite (pcb_at_upd_field g) by auto.
Qed.

Lemma exec_arguments_keeps np call argl args s :
  keeps_allocator s (snd (exec_arguments np call argl args s))
  ∧ refcount (snd (exec_arguments np call argl args s)) = refcount s
  ∧ tcbs (snd (exec_arguments np call argl args s)) = tcbs s
  ∧ ptcbs (snd (exec_arguments np call argl args s)) = ptcbs s
  ∧ sched (snd (exec_arguments np call argl args s)) = sched s.
Proof.
  rewrite exec_arguments_snd. cbv zeta. unfold keeps_allocator.
  destruct args; ksimpl; by rewrite ?length_PT_upd.
Qed.

(** [exec_main_thread] *)
Lemma exec_main_thread_snd np call argl args s :
  (np < length (PT s))%nat →
  snd (exec_main_thread np call argl args s) =
    match call with
    | None => s
    | Some _ =>
        let tcb := length (tcbs s) in
        let ptcb := length (ptcbs s) in
        let s1 :=
          upd_pcb np (set_main_thread (Some tcb))
            (upd_pcb np (set_thread_count 1)
              (upd_pcb np (λ b, set_ptcb_list
                             (rlist_push_back (ptcb_list b) ptcb) b)
                (with_ptcbs
                   (ptcbs s ++ [mkPTCB call argl args (Some tcb)])
                   (with_tcbs
                      (tcbs s ++ [mkTCB np start_main_thread (Some ptcb)])
                      s)))) in
        with_sched (sched s ++ [mkWake tcb (PT s1) (tcbs s1) (ptcbs s1)]) s1
    end.
Proof.
  intros Hnp. unfold exec_main_thread. destruct call as [t|]; [|done].
  unfold spawn_thread, init_ptcb. krun.
  rewrite pcb_at_upd_eq by (by rewrite ?length_PT_upd). simpl.
  rewrite !alter_app_r_alt by lia. rewrite !Nat.sub_diag. simpl. done.
Qed.

Lemma exec_main_thread_field {A} (g : PCB → A) np call argl args s q :
  (∀ v b, g (set_ptcb_list v b) = g b) →
  (∀ v b, g (set_thread_count v b) = g b) →
  (∀ v b, g (set_main_thread v b) = g b) →
  g (pcb_at (snd (exec_main_thread np call argl args s)) q) = g (pcb_at s q).
Proof.
  intros H1 H2 H3. unfold exec_main_thread. destruct call as [t|]; [|done].
  unfold spawn_thread, init_ptcb, wakeup. krun.
  destruct (main_thread _); ksimpl;
    rewrite (pcb_at_upd_field g) by auto;
    rewrite (pcb_at_upd_field g) by auto;
    by rewrite (pcb_at_upd_field g) by auto.
Qed.

Lemma exec_main_thread_keeps np call argl args s :
  keeps_allocator s (snd (exec_main_thread np call argl args s))
  ∧ refcount (snd (exec_main_thread np call argl args s)) = refcount s
  ∧ heap (snd (exec_main_thread np call argl args s)) = heap s.
Proof.
  unfold exec_main_thread. destruct call as [t|].
  2:{ split_and!; first [done | apply keeps_allocator_refl]. }
  unfold spawn_thread, init_ptcb, wakeup, keeps_allocator. krun.
  destruct (main_thread _); ksimpl; by rewrite ?length_PT_upd.
Qed.

Lemma sys_Exec_run cur call argl args s :
  sys_Exec cur call argl args s =
    match pcb_freelist s with
    | None => (NOPROC, s)
    | Some np => (Z.of_nat np, exec_blocks cur np call argl args s)
    end.
Proof.
  unfold sys_Exec, exec_blocks. rewrite bind_run. unfold acquire_PCB.
  destruct (pcb_freelist s) as [np|]; cbn [fst snd]; [|reflexivity].
  krun. reflexivity.
Qed.

(** ** Counting slots *)

Section counting.
Context (P Q : nat → Prop).
Context `{HdecP : !∀ x, Decision (P x)} `{HdecQ : !∀ x, Decision (Q x)}.

Lemma length_filter_ext (l : list nat) :
  (∀ x, x ∈ l → (P x ↔ Q x)) →
  length (filter P l) = length (filter Q l).
Proof.
  induction l as [|a l IH]; intros HPQ; [done|].
  rewrite !filter_cons.
  assert (Ha : P a ↔ Q a) by (apply HPQ; left).
  assert (Hl : length (filter P l) = length (filter Q l)).
  { apply IH. intros x Hx. apply HPQ. by right. }
  destruct (decide (P a)), (decide (Q a)); simpl; tauto || lia.
Qed.

Lemma length_filter_add (l : list nat) (p : nat) :
  NoDup l → p ∈ l → ¬ P p → Q p →
  (∀ x, x ≠ p → (P x ↔ Q x)) →
  length (filter Q l) = S (length (filter P l)).
Proof.
  induction l as [|a l IH]; intros Hnd Hin HP HQ Hext.
  { by apply elem_of_nil in Hin. }
  apply NoDup_cons in Hnd as [Ha Hnd].
  rewrite !filter_cons.
  destruct (decide (a = p)) as [->|Hne].
  - destruct (decide (Q p)), (decide (P p)); try done. simpl. f_equal.
    symmetry. apply length_filter_ext.
    intros x Hx. apply Hext. intros ->. done.
  - apply elem_of_cons in Hin as [->|Hin]; [done|].
    specialize (IH Hnd Hin HP HQ Hext).
    assert (P a ↔ Q a) by (by apply Hext).
    destruct (decide (P a)), (decide (Q a)); simpl; tauto || lia.
Qed.
End counting.

Lemma used_slots_le s : (used_slots s ≤ MAX_PROC)%nat.
Proof.
  unfold used_slots.
  etrans; [apply length_filter|]. by rewrite length_seq.
Qed.

Lemma used_slots_ext s s' :
  (∀ q, pstate (pcb_at s' q) = FREE ↔ pstate (pcb_at s q) = FREE) →
  used_slots s' = used_slots s.
Proof.
  intros H. unfold used_slots. apply length_filter_ext.
  intros x _. by rewrite H.
Qed.

Lemma used_slots_add s s' p :
  (p < MAX_PROC)%nat →
  pstate (pcb_at s p) = FREE →
  pstate (pcb_at s' p) ≠ FREE →
  (∀ q, q ≠ p → pstate (pcb_at s' q) = pstate (pcb_at s q)) →
  used_slots s' = S (used_slots s).
Proof.
  intros Hp Hfree Hused Hother. unfold used_slots.
  apply (length_filter_add _ _ _ p).
  - apply NoDup_seq.
  - apply elem_of_seq. lia.
  - intros H. by apply H.
  - done.
  - intros x Hx. by rewrite Hother.
Qed.

(** ** The free list *)

Lemma free_chain_ext pt pt' hd l :
  length pt' = length pt →
  (∀ p, p ∈ l → parent (pt' !!! p) = parent (pt !!! p)) →
  free_chain pt hd l → free_chain pt' hd l.
Proof.
  intros Hlen. revert hd. induction l as [|p l IH]; intros hd Hpar; [done|].
  simpl. intros (-> & Hp & Hl). split_and!; [done|lia|].
  rewrite Hpar by left. apply IH; [|done].
  intros q Hq. apply Hpar. by right.
Qed.

Lemma frame_refl s : frame s s.
Proof. split; [apply keeps_allocator_refl|done]. Qed.

Lemma frame_trans s1 s2 s3 : frame s1 s2 → frame s2 s3 → frame s1 s3.
Proof.
  intros [K1 H1] [K2 H2]. split; [by eapply keeps_allocator_trans|].
  intros q. destruct (H1 q) as [A1 B1], (H2 q) as [A2 B2]. split.
  - by rewrite A2.
  - intros Hq. rewrite B2 by (by apply A1). by apply B1.
Qed.

Lemma frame_fields s s' :
  keeps_allocator s s' →
  (∀ q, pstate (pcb_at s' q) = pstate (pcb_at s q)) →
  (∀ q, pstate (pcb_at s q) = FREE →
        parent (pcb_at s' q) = parent (pcb_at s q)) →
  frame s s'.
Proof. intros HK Hst Hpar. split; [done|]. intros q. rewrite Hst. auto. Qed.

Lemma frame_upd_used p f s :
  pstate (pcb_at s p) ≠ FREE →
  pstate (f (pcb_at s p)) ≠ FREE →
  frame s (upd_pcb p f s).
Proof.
  intros H1 H2. split; [apply keeps_allocator_upd|].
  intros q. rewrite pcb_at_upd. case_decide as Hd; [|done].
  destruct Hd as [<- _]. tauto.
Qed.

Lemma frame_fmap (h : PCB → PCB) s :
  (∀ b, pstate (h b) = pstate b) →
  (∀ b, parent (h b) = parent b) →
  frame s (with_PT (h <$> PT s) s).
Proof.
  intros H1 H2. apply frame_fields.
  - unfold keeps_allocator. ksimpl. by rewrite length_fmap.
  - intros q. by apply (pcb_at_fmap_field pstate).
  - intros q _. by apply (pcb_at_fmap_field parent).
Qed.

Lemma alloc_inv_frame s s' : alloc_inv s → frame s s' → alloc_inv s'.
Proof.
  intros (Hlen & Hcount & l & Hchain & Hnd & Hmem) [(K1 & K2 & K3) Hf].
  split_and!.
  - congruence.
  - rewrite K3, Hcount. f_equal. symmetry. apply used_slots_ext.
    intros q. apply Hf.
  - exists l. split_and!; [|done|].
    + rewrite K2. eapply free_chain_ext; [done| |done].
      intros p Hp. apply Hf. by apply Hmem.
    + intros p. rewrite Hmem. by destruct (Hf p) as [-> _].
Qed.

(** ** Exec and the handle table *)




Lemma acquire_PCB_length s : length (PT (snd (acquire_PCB s))) = length (PT s).
Proof. unfold acquire_PCB. destruct (pcb_freelist s); ksimpl; done. Qed.


(** ** Exec and the new process's parent, arguments and main thread *)

Lemma exec_blocks_field_np {A} (g : PCB → A) cur np call argl args s :
  (∀ v b, g (set_ptcb_list v b) = g b) →
  (∀ v b, g (set_thread_count v b) = g b) →
  (∀ v b, g (set_main_thread v b) = g b) →
  (∀ v b, g (set_main_task v b) = g b) →
  (∀ v b, g (set_argl v b) = g b) →
  (∀ v b, g (set_args v b) = g b) →
  ∀ q, g (pcb_at (exec_blocks cur np call argl args s) q) =
       g (pcb_at (snd (exec_inherit cur np (snd (acquire_PCB s)))) q).
Proof.
  intros H1 H2 H3 H4 H5 H6 q. unfold exec_blocks.
  rewrite (exec_main_thread_field g) by done.
  by rewrite (exec_arguments_field g) by done.
Qed.

Lemma exec_inherit_length cur np s :
  length (PT (snd (exec_inherit cur np s))) = length (PT s).
Proof. by destruct (exec_inherit_keeps cur np s) as ((-> & _) & _). Qed.

Lemma exec_arguments_length np call argl args s :
  length (PT (snd (exec_arguments np call argl args s))) = length (PT s).
Proof.
  by destruct (exec_arguments_keeps np call argl args s) as ((-> & _) & _).
Qed.

(** C8, as the code has it.  [sys_GetPPid] returns the PID of the slot
    the caller's [parent] field points to, and NOPROC when that field is
    NULL.  For a process made by [sys_Exec] in the slot [np] this is the
    PID of the process that called Exec when [np] is not 0 or 1, and
    NOPROC when [np] is 0 or 1. *)
Theorem sys_GetPPid_parent_or_NOPROC (cur : nat) (call : option nat)
    (argl : Z) (args : option nat) (s : kstate) (np : nat) :
  pcb_freelist s = Some np →
  (np < length (PT s))%nat →
  let s' := snd (sys_Exec cur call argl args s) in
  (1 < Z.of_nat np →
     parent (pcb_at s' np) = Some cur
     ∧ sys_GetPPid np s' = sys_GetPid cur)
  ∧ (Z.of_nat np ≤ 1 →
     parent (pcb_at s' np) = None ∧ sys_GetPPid np s' = NOPROC)
  ∧ (∀ q t, sys_GetPPid q t =
            match parent (pcb_at t q) with
            | Some pp => sys_GetPid pp
            | None => NOPROC
            end).
Proof.
  intros Hf Hnp s'.
  assert (Hpar : parent (pcb_at s' np) =
                 if get_pid (Some np) <=? 1 then None else Some cur).
  { subst s'. rewrite sys_Exec_run, Hf. simpl.
    rewrite (exec_blocks_field_np parent) by done.
    apply exec_inherit_parent. by rewrite acquire_PCB_length. }
  simpl in Hpar. split_and!.
  - intros Hpid. unfold sys_GetPPid. rewrite Hpar.
    replace (Z.of_nat np <=? 1) with false by (symmetry; apply Z.leb_gt; lia).
    done.
  - intros Hpid. unfold sys_GetPPid. rewrite Hpar.
    replace (Z.of_nat np <=? 1) with true by (symmetry; apply Z.leb_le; lia).
    done.
  - intros q t. unfold sys_GetPPid, sys_GetPid, get_pid.
    by destruct (parent (pcb_at t q)).
Qed.

Lemma exec_arguments_np np call len buf s :
  (np < length (PT s))%nat →
  let s' := snd (exec_arguments np call len buf s) in
  main_task (pcb_at s' np) = call
  ∧ argl (pcb_at s' np) = len
  ∧ args (pcb_at s' np) =
      match buf with Some _ => Some (length (heap s)) | None => None end
  ∧ heap s' =
      match buf with
      | Some a => heap s ++ [take (Z.to_nat len) (default [] (heap s !! a))]
      | None => heap s
      end.
Proof.
  intros Hnp. cbv zeta. rewrite exec_arguments_snd. cbv zeta.
  destruct buf as [a|]; split_and!; ksimpl; try done.
  - rewrite (pcb_at_upd_field main_task) by done. ksimpl.
    rewrite (pcb_at_upd_field main_task) by done.
    by rewrite pcb_at_upd_eq.
  - rewrite (pcb_at_upd_field argl) by done. ksimpl.
    by rewrite pcb_at_upd_eq by (by ksimpl).
  - by rewrite pcb_at_upd_eq by (by ksimpl).
  - rewrite (pcb_at_upd_field main_task) by done.
    rewrite (pcb_at_upd_field main_task) by done.
    by rewrite pcb_at_upd_eq.
  - rewrite (pcb_at_upd_field argl) by done.
    by rewrite pcb_at_upd_eq by (by ksimpl).
  - by rewrite pcb_at_upd_eq by (by ksimpl).
Qed.

(** C7, as the code has it.  Let [sys_Exec] be given the entry point
    [t] and take the slot [np].  It appends one thread record and one
    thread-control record; the control record holds the entry point, the
    argument length and the argument pointer that the caller passed, and
    the two records point at each other.  The slot's [main_thread] is the
    new thread, its [thread_count] is 1, the control record is the last
    element of its [ptcb_list], its [main_task] and [argl] are the
    arguments of the call and its [args] is a fresh block (NULL for a NULL
    pointer).  [wakeup] is called once, on the new thread, and the state
    it is called in is the final state of the call: nothing is written
    after it. *)
Theorem sys_Exec_main_thread_last (cur t : nat) (len : Z)
    (buf : option nat) (s : kstate) (np : nat) :
  pcb_freelist s = Some np →
  (np < length (PT s))%nat →
  let s' := snd (sys_Exec cur (Some t) len buf s) in
  let tcb := length (tcbs s) in
  let ptcb := length (ptcbs s) in
  ptcbs s' = ptcbs s ++ [mkPTCB (Some t) len buf (Some tcb)]
  ∧ tcbs s' = tcbs s ++ [mkTCB np start_main_thread (Some ptcb)]
  ∧ main_thread (pcb_at s' np) = Some tcb
  ∧ thread_count (pcb_at s' np) = 1
  ∧ ptcb_list (pcb_at s' np) = ptcb_list (pcb_at s np) ++ [ptcb]
  ∧ main_task (pcb_at s' np) = Some t
  ∧ argl (pcb_at s' np) = len
  ∧ args (pcb_at s' np) =
      match buf with Some _ => Some (length (heap s)) | None => None end
  ∧ sched s' = sched s ++ [mkWake tcb (PT s') (tcbs s') (ptcbs s')].
Proof.
  intros Hf Hnp s' tcb ptcb. subst s'.
  rewrite sys_Exec_run, Hf. simpl. unfold exec_blocks.
  set (s0 := snd (acquire_PCB s)).
  set (s1 := snd (exec_inherit cur np s0)).
  set (s2 := snd (exec_arguments np (Some t) len buf s1)).
  assert (Hl1 : (np < length (PT s1))%nat).
  { subst s1 s0. by rewrite exec_inherit_length, acquire_PCB_length. }
  assert (Hl2 : (np < length (PT s2))%nat).
  { subst s2. by rewrite exec_arguments_length. }
  assert (H0 : heap s0 = heap s ∧ tcbs s0 = tcbs s ∧ ptcbs s0 = ptcbs s
               ∧ sched s0 = sched s).
  { subst s0. unfold acquire_PCB. by destruct (pcb_freelist s). }
  destruct H0 as (H0h & H0t & H0p & H0s).
  destruct (exec_inherit_keeps cur np s0) as (_ & H1h & H1t & H1p & H1s).
  destruct (exec_arguments_keeps np (Some t) len buf s1)
    as (_ & _ & H2t & H2p & H2s).
  destruct (exec_arguments_np np (Some t) len buf s1 Hl1)
    as (Hmt & Hargl & Hargs & _).
  fold s1 in H1h, H1t, H1p, H1s. fold s2 in H2t, H2p, H2s, Hmt, Hargl, Hargs.
  assert (Ht : tcbs s2 = tcbs s) by congruence.
  assert (Hp : ptcbs s2 = ptcbs s) by congruence.
  assert (Hs : sched s2 = sched s) by congruence.
  assert (Hpl : ptcb_list (pcb_at s2 np) = ptcb_list (pcb_at s np)).
  { subst s2 s1 s0.
    rewrite (exec_arguments_field ptcb_list) by done.
    rewrite (exec_inherit_field ptcb_list) by done.
    by rewrite (acquire_PCB_field ptcb_list) by done. }
  rewrite exec_main_thread_snd by done. cbv zeta.
  rewrite Ht, Hp, Hs. fold tcb ptcb. ksimpl.
  split_and!; try done.
  - by rewrite pcb_at_upd_eq by (by ksimpl).
  - rewrite (pcb_at_upd_field thread_count) by done.
    by rewrite pcb_at_upd_eq by (by ksimpl).
  - rewrite (pcb_at_upd_field ptcb_list) by done.
    rewrite (pcb_at_upd_field ptcb_list) by done.
    rewrite pcb_at_upd_eq by (by ksimpl). ksimpl. simpl.
    by rewrite Hpl.
  - rewrite !(pcb_at_upd_field main_task) by done. by ksimpl.
  - rewrite !(pcb_at_upd_field argl) by done. by ksimpl.
  - rewrite !(pcb_at_upd_field args) by done. ksimpl.
    rewrite Hargs. by rewrite H1h, H0h.
Qed.

(** ** The information stream *)

Lemma procinfo_scan_found s fuel : ∀ c j,
  length (PT s) = MAX_PROC →
  (c ≤ j < MAX_PROC)%nat →
  (∀ k, (c ≤ k < j)%nat → pstate (pcb_at s k) = FREE) →
  pstate (pcb_at s j) ≠ FREE →
  (j - c ≤ fuel)%nat →
  procinfo_scan fuel s c = ScanFound j.
Proof.
  induction fuel as [|fuel IH]; intros c j Hlen Hcj Hfree Hused Hfuel.
  - assert (c = j) as -> by lia. simpl.
    rewrite (list_lookup_lookup_total_lt (PT s) j) by lia.
    fold (pcb_at s j). by rewrite decide_False.
  - simpl. rewrite (list_lookup_lookup_total_lt (PT s) c) by lia.
    fold (pcb_at s c).
    destruct (decide (c = j)) as [->|Hne].
    + by rewrite decide_False.
    + rewrite decide_True by (apply Hfree; lia).
      rewrite decide_False by lia.
      apply IH; [done|lia| |done|lia].
      intros k Hk. apply Hfree. lia.
Qed.

Lemma procinfo_scan_end s fuel : ∀ c,
  length (PT s) = MAX_PROC →
  (c < MAX_PROC)%nat →
  (∀ k, (c ≤ k < MAX_PROC)%nat → pstate (pcb_at s k) = FREE) →
  (MAX_PROC - S c ≤ fuel)%nat →
  procinfo_scan fuel s c = ScanEnd MAX_PROC.
Proof.
  induction fuel as [|fuel IH]; intros c Hlen Hc Hfree Hfuel.
  - assert (S c = MAX_PROC) as Heq by lia. simpl.
    rewrite (list_lookup_lookup_total_lt (PT s) c) by lia.
    fold (pcb_at s c). rewrite decide_True by (apply Hfree; lia).
    rewrite decide_True by done. by rewrite Heq.
  - simpl. rewrite (list_lookup_lookup_total_lt (PT s) c) by lia.
    fold (pcb_at s c). rewrite decide_True by (apply Hfree; lia).
    destruct (decide (S c = MAX_PROC)) as [->|Hne]; [done|].
    apply IH; [done|lia| |lia].
    intros k Hk. apply Hfree. lia.
Qed.

Lemma procinfo_copy_args_ok n : ∀ i blk dst,
  (i + n ≤ length blk)%nat →
  (i + n ≤ length dst)%nat →
  ∃ bytes,
    procinfo_copy_args n i (Some blk) dst = Some bytes
    ∧ length bytes = length dst
    ∧ ∀ k, bytes !! k =
           if decide (i ≤ k < i + n)%nat then blk !! k else dst !! k.
Proof.
  induction n as [|n IH]; intros i blk dst Hblk Hdst.
  - exists dst. split_and!; [done|done|].
    intros k. rewrite decide_False; [done|lia].
  - simpl. destruct (blk !! i) as [x|] eqn:Hx.
    2:{ apply lookup_ge_None in Hx. lia. }
    destruct (IH (S i) blk (<[i:=x]> dst)) as (bytes & H1 & H2 & H3).
    { lia. }
    { rewrite length_insert. lia. }
    exists bytes. split_and!; [done|by rewrite H2, length_insert|].
    intros k. rewrite H3.
    destruct (decide (k = i)) as [->|Hki].
    + rewrite decide_False by lia. rewrite decide_True by lia.
      rewrite list_lookup_insert_eq by lia. done.
    + rewrite list_lookup_insert_ne by done.
      destruct (decide (S i ≤ k < S i + n)%nat).
      * rewrite decide_True by lia. done.
      * rewrite decide_False by lia. done.
Qed.

(** X16.  What a read does on a table it can read.  Let the table have its
    MAX_PROC slots, the cursor be at most MAX_PROC and the [args] array of
    the cursor object have its PROCINFO_MAX_ARGS_SIZE bytes.
    - If [j] is the first slot at or after the cursor that is not FREE,
      and the argument bytes of that slot can be read, the read returns
      the size of the record, leaves the cursor at [j + 1] and copies to
      the buffer the record of slot [j]: liveness, PID, parent PID, thread
      count, entry point, argument length, and in [args] the first
      [min(argl, PROCINFO_MAX_ARGS_SIZE)] argument bytes of the slot, the
      bytes after them being what the cursor object held.
    - If every slot at or after the cursor is FREE, the read returns 0,
      copies nothing and leaves the cursor at MAX_PROC.
    - With the cursor at MAX_PROC a read returns 0, copies nothing and
      leaves the cursor object as it is, whatever the table holds; so does
      a read through a NULL cursor object. *)
Theorem procinfo_read_next_used_slot (pi : procinfo_cb) (s : kstate) :
  length (PT s) = MAX_PROC →
  (pcbcursor pi ≤ MAX_PROC)%nat →
  length (pi_args (info pi)) = PROCINFO_MAX_ARGS_SIZE →
  (∀ j,
     (pcbcursor pi ≤ j < MAX_PROC)%nat →
     (∀ k, (pcbcursor pi ≤ k < j)%nat → pstate (pcb_at s k) = FREE) →
     pstate (pcb_at s j) ≠ FREE →
     args_readable s (pcb_at s j) →
     ∃ bytes,
       let b := pcb_at s j in
       let r := mkInfo (Z.of_nat j) (get_pid (parent b))
                  (if decide (pstate b = ALIVE) then 1 else 0)
                  (thread_count b) (main_task b) (argl b) bytes in
       procinfo_read (Some pi) s =
         Some (mkRead SIZEOF_PROCINFO (Some (mkCb (S j) r)) (Some r))
       ∧ length bytes = PROCINFO_MAX_ARGS_SIZE
       ∧ (∀ k, (args_copied b ≤ k)%nat →
               bytes !! k = pi_args (info pi) !! k)
       ∧ (∀ a blk k, args b = Some a → heap s !! a = Some blk →
               (k < args_copied b)%nat → bytes !! k = blk !! k))
  ∧ ((∀ k, (pcbcursor pi ≤ k < MAX_PROC)%nat → pstate (pcb_at s k) = FREE) →
     procinfo_read (Some pi) s =
       Some (mkRead 0 (Some (mkCb MAX_PROC (info pi))) None))
  ∧ (∀ i t, procinfo_read (Some (mkCb MAX_PROC i)) t =
              Some (mkRead 0 (Some (mkCb MAX_PROC i)) None)
            ∧ procinfo_read None t = Some (mkRead 0 None None)).
Proof.
  intros Hlen Hcur Hargs. split_and!.
  - intros j Hj Hfree Hused Hread. cbv zeta.
    unfold procinfo_read.
    rewrite decide_False by lia.
    rewrite (procinfo_scan_found s MAX_PROC (pcbcursor pi) j)
      by (done || lia).
    fold (args_copied (pcb_at s j)).
    destruct Hread as [Hn|(a & blk & Ha & Hblk & Hn)].
    + rewrite Hn. simpl. exists (pi_args (info pi)).
      split_and!; [done|done|done|]. intros ???? ? ?. lia.
    + rewrite Ha, Hblk.
      destruct (procinfo_copy_args_ok (args_copied (pcb_at s j)) 0 blk
                  (pi_args (info pi))) as (bytes & H1 & H2 & H3).
      { lia. }
      { rewrite Hargs. unfold args_copied. lia. }
      rewrite H1. exists bytes. split_and!; [done|congruence| |].
      * intros k Hk. rewrite H3. rewrite decide_False; [done|lia].
      * intros a' blk' k Ha' Hblk' Hk. rewrite H3.
        rewrite decide_True by lia. congruence.
  - intros Hfree. unfold procinfo_read.
    destruct (decide (pcbcursor pi = MAX_PROC)) as [Heq|Hne].
    + destruct pi as [c i]. simpl in *. by subst c.
    + rewrite (procinfo_scan_end s MAX_PROC (pcbcursor pi))
        by (done || lia).
      done.
  - intros i t. split; [|done]. unfold procinfo_read. simpl.
    by rewrite decide_True.
Qed.

Lemma procinfo_scan_here s c b :
  PT s !! c = Some b → pstate b ≠ FREE →
  procinfo_scan MAX_PROC s c = ScanFound c.
Proof.
  intros Hb Hused. destruct MAX_PROC; simpl; rewrite Hb;
    by rewrite decide_False.
Qed.

(** A read that reaches a used slot whose [args] is NULL while its [argl]
    is positive reads through the NULL pointer. *)
Lemma procinfo_read_null_args (pi : procinfo_cb) (s : kstate) (b : PCB) :
  pcbcursor pi ≠ MAX_PROC →
  PT s !! pcbcursor pi = Some b →
  pstate b ≠ FREE →
  args b = None →
  (0 < args_copied b)%nat →
  procinfo_read (Some pi) s = None.
Proof.
  intros Hc Hb Hused Hargs Hn. unfold procinfo_read.
  rewrite decide_False by done.
  rewrite (procinfo_scan_here s (pcbcursor pi) b) by done.
  assert (pcb_at s (pcbcursor pi) = b) as ->.
  { unfold pcb_at. by apply list_lookup_total_correct. }
  rewrite Hargs. fold (args_copied b).
  destruct (args_copied b); [lia|done].
Qed.

(** ** The order of arrival of the zombies *)

(** With the exit step of the design document a zombie arrives at the back
    of its parent's exited list, whether it leaves the children list or
    not. *)
Lemma thread_exit_last_arrives_last relocate c pp s :
  pstate (pcb_at s c) = ALIVE →
  parent (pcb_at s c) = Some pp →
  (pp < length (PT s))%nat →
  exited_list (pcb_at (snd (thread_exit_last relocate c s)) pp) =
    exited_list (pcb_at s pp) ++ [c].
Proof.
  intros Hal Hpar Hpp. unfold thread_exit_last.
  rewrite decide_True by done.
  rewrite (pcb_at_upd_field parent) by done. rewrite Hpar. simpl.
  rewrite pcb_at_upd_eq by (by ksimpl). simpl.
  destruct relocate; simpl;
    by rewrite (pcb_at_upd_field exited_list) by done.
Qed.



Lemma thread_exit_last_pstate relocate c s q :
  pstate (pcb_at s c) = ALIVE →
  pstate (pcb_at (snd (thread_exit_last relocate c s)) q) =
    if decide (q = c) then ZOMBIE else pstate (pcb_at s q).
Proof.
  intros Hal.
  assert (Hc : (c < length (PT s))%nat).
  { destruct (decide (c < length (PT s))%nat) as [|Hge]; [done|].
    unfold pcb_at in Hal. rewrite list_lookup_total_alt in Hal.
    rewrite lookup_ge_None_2 in Hal by lia. done. }
  unfold thread_exit_last. rewrite decide_True by done.
  assert (Hz : pstate (pcb_at (upd_pcb c (set_pstate ZOMBIE) s) q) =
               if decide (q = c) then ZOMBIE else pstate (pcb_at s q)).
  { rewrite pcb_at_upd. destruct (decide (q = c)) as [->|Hq].
    - by rewrite decide_True.
    - rewrite decide_False; [done|]. intros [-> _]. done. }
  cbv zeta. destruct (parent (pcb_at (upd_pcb c _ s) c)); cbn [snd];
    [|done].
  rewrite (pcb_at_upd_field pstate); [done|].
  intros b. by destruct relocate.
Qed.


(** With the zombie taken off the children list at its exit, as the design
    document words it, the parent of an only child that has exited is told
    by [sys_WaitChild] in any-child mode that it has no child, and the
    zombie keeps its slot. *)
Lemma relocated_zombie_is_not_reclaimed cur z status s :
  (cur < length (PT s))%nat →
  pstate (pcb_at s z) = ALIVE →
  parent (pcb_at s z) = Some cur →
  children_list (pcb_at s cur) = [z] →
  let s' := snd (thread_exit_last true z s) in
  exited_list (pcb_at s' cur) = exited_list (pcb_at s cur) ++ [z]
  ∧ pstate (pcb_at s' z) = ZOMBIE
  ∧ sys_WaitChild cur NOPROC status s' = (WReturn NOPROC None, s').
Proof.
  intros Hcur Hal Hpar Hch s'.
  split_and!.
  - by apply thread_exit_last_arrives_last.
  - subst s'. rewrite thread_exit_last_pstate by done.
    by rewrite decide_True.
  - assert (Hch' : children_list (pcb_at s' cur) = []).
    { subst s'. unfold thread_exit_last. rewrite decide_True by done.
      rewrite (pcb_at_upd_field parent) by done. rewrite Hpar. cbn [snd].
      rewrite pcb_at_upd_eq by (by rewrite length_PT_upd). cbn.
      rewrite (pcb_at_upd_field children_list) by done. rewrite Hch.
      unfold rlist_unlink.
      by rewrite filter_cons_False by (intros H; by apply H). }
    unfold sys_WaitChild. rewrite decide_False by (intros H; by apply H).
    unfold wait_for_any_child, is_rlist_empty. by rewrite Hch'.
Qed.


(** ** What Exec leaves alone *)

Lemma acquire_PCB_other s p q :
  pcb_freelist s = Some p → q ≠ p →
  pcb_at (snd (acquire_PCB s)) q = pcb_at s q.
Proof.
  intros Hf Hq. unfold acquire_PCB. rewrite Hf. ksimpl.
  by rewrite pcb_at_upd_ne.
Qed.

Lemma inherit_stream_other cur np i s q :
  q ≠ np → pcb_at (snd (inherit_stream cur np i s)) q = pcb_at s q.
Proof.
  intros Hq. rewrite inherit_stream_snd. cbv zeta.
  destruct (FIDT (pcb_at _ np) !!! i); ksimpl; by rewrite pcb_at_upd_ne.
Qed.

Lemma for_each_inherit_other cur np l s q :
  q ≠ np →
  pcb_at (snd (for_each l (inherit_stream cur np) s)) q = pcb_at s q.
Proof.
  intros Hq. revert s. induction l as [|i l IH]; intros s; [done|].
  rewrite for_each_cons, IH. by apply inherit_stream_other.
Qed.

Lemma exec_inherit_other cur np s q :
  q ≠ np → q ≠ cur →
  pcb_at (snd (exec_inherit cur np s)) q = pcb_at s q.
Proof.
  intros Hnp Hcur. unfold exec_inherit.
  destruct (get_pid (Some np) <=? 1); krun.
  - by rewrite pcb_at_upd_ne.
  - rewrite for_each_inherit_other by done.
    by rewrite !pcb_at_upd_ne by done.
Qed.

Lemma exec_inherit_caller cur np s :
  cur ≠ np → (cur < length (PT s))%nat →
  pcb_at (snd (exec_inherit cur np s)) cur =
    if get_pid (Some np) <=? 1 then pcb_at s cur
    else set_children_list (rlist_push_front (children_list (pcb_at s cur)) np)
           (pcb_at s cur).
Proof.
  intros Hne Hcur. unfold exec_inherit.
  destruct (get_pid (Some np) <=? 1); krun.
  - by rewrite pcb_at_upd_ne.
  - rewrite for_each_inherit_other by done.
    rewrite pcb_at_upd_eq by (by ksimpl).
    by rewrite pcb_at_upd_ne by done.
Qed.

Lemma exec_arguments_other np call len buf s q :
  q ≠ np → pcb_at (snd (exec_arguments np call len buf s)) q = pcb_at s q.
Proof.
  intros Hq. rewrite exec_arguments_snd. cbv zeta.
  destruct buf; rewrite pcb_at_upd_ne by done; ksimpl;
    by rewrite !pcb_at_upd_ne by done.
Qed.

Lemma exec_main_thread_other np call len buf s q :
  q ≠ np → pcb_at (snd (exec_main_thread np call len buf s)) q = pcb_at s q.
Proof.
  intros Hq. unfold exec_main_thread. destruct call as [t|]; [|done].
  unfold spawn_thread, init_ptcb, wakeup. krun.
  destruct (main_thread _); ksimpl; by rewrite !pcb_at_upd_ne by done.
Qed.

(** X7.  A successful [sys_Exec] writes two slots only: the new one and, when
    the new PID is above 1, the caller's, whose children list gets the new
    process at its front.  Every other slot is as before. *)
Theorem sys_Exec_writes_two_slots (cur : nat) (call : option nat) (len : Z)
    (buf : option nat) (s : kstate) (np : nat) :
  pcb_freelist s = Some np →
  cur ≠ np →
  (cur < length (PT s))%nat →
  let s' := snd (sys_Exec cur call len buf s) in
  (∀ q, q ≠ np → q ≠ cur → pcb_at s' q = pcb_at s q)
  ∧ pcb_at s' cur =
      (if Z.of_nat np <=? 1 then pcb_at s cur
       else set_children_list (np :: children_list (pcb_at s cur))
              (pcb_at s cur)).
Proof.
  intros Hf Hne Hcur s'. subst s'. rewrite sys_Exec_run, Hf. simpl.
  unfold exec_blocks. split.
  - intros q Hq1 Hq2.
    rewrite exec_main_thread_other, exec_arguments_other by done.
    rewrite exec_inherit_other by done.
    by rewrite (acquire_PCB_other s np).
  - rewrite exec_main_thread_other, exec_arguments_other by done.
    rewrite exec_inherit_caller by (done || by rewrite acquire_PCB_length).
    rewrite (acquire_PCB_other s np) by done. done.
Qed.

(** X6.  The PID a successful [sys_Exec] returns names a process that is ALIVE:
    [get_pcb] finds it.  Before the call [get_pcb] returns NULL for that
    PID when the slot at the head of the free list is FREE. *)
Theorem sys_Exec_pid_names_live_process (cur : nat) (call : option nat)
    (len : Z) (buf : option nat) (s : kstate) (np : nat) :
  pcb_freelist s = Some np →
  (np < length (PT s))%nat →
  let pid := fst (sys_Exec cur call len buf s) in
  let s' := snd (sys_Exec cur call len buf s) in
  pid = Z.of_nat np
  ∧ pstate (pcb_at s' np) = ALIVE
  ∧ get_pcb s' pid = Some np
  ∧ (pstate (pcb_at s np) = FREE → get_pcb s pid = None).
Proof.
  intros Hf Hnp pid s'. subst pid s'. rewrite sys_Exec_run, Hf. simpl.
  assert (Hal : pstate (pcb_at (exec_blocks cur np call len buf s) np)
                = ALIVE).
  { unfold exec_blocks.
    rewrite (exec_main_thread_field pstate) by done.
    rewrite (exec_arguments_field pstate) by done.
    rewrite (exec_inherit_field pstate) by done.
    rewrite (acquire_PCB_pstate s np) by done. by rewrite decide_True. }
  split_and!; [done|done| |].
  - unfold get_pcb. rewrite Nat2Z.id, Hal. by rewrite decide_False.
  - intros Hfree. unfold get_pcb. rewrite Nat2Z.id. by rewrite decide_True.
Qed.

(** X1.  [get_pcb] and [get_pid] undo each other on the slots in use: the PID of
    a used slot leads back to the slot, the PID of a FREE slot leads to
    NULL, and the slot found for a PID that is not negative has that PID. *)
Theorem get_pcb_get_pid (s : kstate) (p : nat) (pid : Z) :
  get_pcb s (get_pid (Some p)) =
    (if decide (pstate (pcb_at s p) = FREE) then None else Some p)
  ∧ (0 ≤ pid → ∀ q, get_pcb s pid = Some q → get_pid (Some q) = pid).
Proof.
  split.
  - unfold get_pcb, get_pid. by rewrite Nat2Z.id.
  - intros Hpid q. unfold get_pcb, get_pid. case_decide; [done|].
    intros [= <-]. by rewrite Z2Nat.id.
Qed.

(** X8.  When the copy is defined (the buffer is NULL, or the length is not
    negative and the caller's block has that many bytes), [sys_Exec] gives
    the new process its own copy of the argument buffer: a fresh block of
    exactly [len] bytes, the first [len] bytes of the caller's block, which
    stays as it is, as does every other block.  With a NULL buffer nothing
    is allocated, [args] is NULL and [argl] is still [len]. *)
Theorem sys_Exec_copies_arguments (cur : nat) (call : option nat) (len : Z)
    (buf : option nat) (s : kstate) (np : nat) :
  pcb_freelist s = Some np →
  (np < length (PT s))%nat →
  copy_defined s len buf →
  let s' := snd (sys_Exec cur call len buf s) in
  argl (pcb_at s' np) = len
  ∧ main_task (pcb_at s' np) = call
  ∧ (∀ a, (a < length (heap s))%nat → heap s' !! a = heap s !! a)
  ∧ match buf with
    | None => args (pcb_at s' np) = None ∧ heap s' = heap s
    | Some a =>
        args (pcb_at s' np) = Some (length (heap s))
        ∧ length (heap s') = S (length (heap s))
        ∧ ∃ src blk,
            heap s !! a = Some src
            ∧ heap s' !! length (heap s) = Some blk
            ∧ blk = take (Z.to_nat len) src
            ∧ Z.of_nat (length blk) = len
    end.
Proof.
  intros Hf Hnp Hdef s'. subst s'. rewrite sys_Exec_run, Hf. simpl.
  unfold exec_blocks.
  set (s0 := snd (acquire_PCB s)).
  set (s1 := snd (exec_inherit cur np s0)).
  assert (Hl1 : (np < length (PT s1))%nat).
  { subst s1 s0. by rewrite exec_inherit_length, acquire_PCB_length. }
  assert (Hh1 : heap s1 = heap s).
  { subst s1. destruct (exec_inherit_keeps cur np s0) as (_ & -> & _).
    subst s0. unfold acquire_PCB. by destruct (pcb_freelist s). }
  destruct (exec_arguments_np np call len buf s1 Hl1)
    as (Hmt & Hargl & Hargs & Hheap).
  set (s2 := snd (exec_arguments np call len buf s1)) in *.
  destruct (exec_main_thread_keeps np call len buf s2) as (_ & _ & Hh3).
  rewrite (exec_main_thread_field argl), (exec_main_thread_field main_task),
    (exec_main_thread_field args) by done.
  rewrite Hh3, Hheap, Hargs, Hh1.
  split_and!; [done|done| |].
  - intros a Ha. destruct buf; [|done]. by rewrite lookup_app_l.
  - destruct buf as [a|]; [|done].
    split_and!; [done|rewrite length_app; simpl; lia|].
    destruct Hdef as (src & Hsrc & Hlen).
    exists src, (take (Z.to_nat len) src). rewrite Hsrc. simpl.
    split_and!; [done| |done|].
    + rewrite lookup_app_r by lia. by rewrite Nat.sub_diag.
    + rewrite length_take. lia.
Qed.

(** X9.  [sys_Exec] with a NULL entry point reserves a slot and starts nothing:
    no thread record, no thread-control record and no wake-up are added,
    and the slot's [main_thread], [thread_count] and [ptcb_list] are what
    the slot held before, also when the slot is being used again. *)
Theorem sys_Exec_without_task (cur : nat) (len : Z) (buf : option nat)
    (s : kstate) (np : nat) :
  pcb_freelist s = Some np →
  let s' := snd (sys_Exec cur None len buf s) in
  tcbs s' = tcbs s ∧ ptcbs s' = ptcbs s ∧ sched s' = sched s
  ∧ main_thread (pcb_at s' np) = main_thread (pcb_at s np)
  ∧ thread_count (pcb_at s' np) = thread_count (pcb_at s np)
  ∧ ptcb_list (pcb_at s' np) = ptcb_list (pcb_at s np).
Proof.
  intros Hf s'. subst s'. rewrite sys_Exec_run, Hf. simpl.
  unfold exec_blocks. simpl.
  set (s0 := snd (acquire_PCB s)).
  set (s1 := snd (exec_inherit cur np s0)).
  destruct (exec_arguments_keeps np None len buf s1)
    as (_ & _ & -> & -> & ->).
  destruct (exec_inherit_keeps cur np s0) as (_ & _ & H1t & H1p & H1s).
  fold s1 in H1t, H1p, H1s. rewrite H1t, H1p, H1s.
  assert (H0 : tcbs s0 = tcbs s ∧ ptcbs s0 = ptcbs s ∧ sched s0 = sched s).
  { subst s0. unfold acquire_PCB. by rewrite Hf. }
  destruct H0 as (-> & -> & ->).
  split_and!; try done.
  - rewrite (exec_arguments_field main_thread) by done. subst s1.
    rewrite (exec_inherit_field main_thread) by done.
    by apply (acquire_PCB_field main_thread).
  - rewrite (exec_arguments_field thread_count) by done. subst s1.
    rewrite (exec_inherit_field thread_count) by done.
    by apply (acquire_PCB_field thread_count).
  - rewrite (exec_arguments_field ptcb_list) by done. subst s1.
    rewrite (exec_inherit_field ptcb_list) by done.
    by apply (acquire_PCB_field ptcb_list).
Qed.

(** ** Waiting for a named child *)

(** In a slot other than the reclaimed one [cleanup_zombie] changes the
    two lists only. *)
Lemma cleanup_zombie_other {A} (g : PCB → A) c status s q :
  q ≠ c →
  (∀ v b, g (set_children_list v b) = g b) →
  (∀ v b, g (set_exited_list v b) = g b) →
  g (pcb_at (snd (cleanup_zombie c status s)) q) = g (pcb_at s q).
Proof.
  intros Hq H1 H2. unfold cleanup_zombie, release_PCB, bind, get, modify, ret.
  ksimpl. rewrite !pcb_at_upd_ne by done.
  unfold rlist_remove_exited_node, rlist_remove_children_node.
  rewrite (pcb_at_fmap_field g) by auto.
  rewrite (pcb_at_fmap_field g) by auto. done.
Qed.

Lemma cleanup_zombie_keeps c status s :
  let s' := snd (cleanup_zombie c status s) in
  refcount s' = refcount s ∧ heap s' = heap s ∧ tcbs s' = tcbs s
  ∧ ptcbs s' = ptcbs s ∧ sched s' = sched s.
Proof. done. Qed.

(** X11.  [sys_WaitChild] on the PID of a child of the caller.  While the child
    is ALIVE the call waits and nothing changes.  Once the child is not
    ALIVE the call returns the child's PID and, through a non-NULL status
    pointer, its exit value; the child's slot is FREE and is the head of
    the free list; the child is gone from every children and exited list;
    and no other slot changes in anything but these two lists. *)
Theorem sys_WaitChild_named_child (cur c : nat) (status : bool)
    (s : kstate) :
  (c < MAX_PROC)%nat →
  (c < length (PT s))%nat →
  Z.of_nat c ≠ NOPROC →
  pstate (pcb_at s c) ≠ FREE →
  parent (pcb_at s c) = Some cur →
  let r := sys_WaitChild cur (Z.of_nat c) status s in
  (pstate (pcb_at s c) = ALIVE → r = (WBlocked, s))
  ∧ (pstate (pcb_at s c) = ZOMBIE →
     fst r = WReturn (Z.of_nat c)
               (if status then Some (exitval (pcb_at s c)) else None)
     ∧ pstate (pcb_at (snd r) c) = FREE
     ∧ pcb_freelist (snd r) = Some c
     ∧ parent (pcb_at (snd r) c) = pcb_freelist s
     ∧ (∀ q, (q < length (PT s))%nat →
          children_list (pcb_at (snd r) q) =
            rlist_unlink c (children_list (pcb_at s q))
          ∧ exited_list (pcb_at (snd r) q) =
              rlist_unlink c (exited_list (pcb_at s q))
          ∧ (c ∉ children_list (pcb_at (snd r) q))
          ∧ (c ∉ exited_list (pcb_at (snd r) q)))
     ∧ (∀ q, q ≠ c →
          pstate (pcb_at (snd r) q) = pstate (pcb_at s q)
          ∧ parent (pcb_at (snd r) q) = parent (pcb_at s q)
          ∧ exitval (pcb_at (snd r) q) = exitval (pcb_at s q)
          ∧ FIDT (pcb_at (snd r) q) = FIDT (pcb_at s q))).
Proof.
  intros Hc Hlen Hno Hused Hpar r.
  assert (Hr : r = wait_for_specific_child_loop c (Z.of_nat c) status s).
  { subst r. unfold sys_WaitChild. rewrite decide_True by done.
    unfold wait_for_specific_child.
    replace (Z.of_nat c <? 0) with false by (symmetry; lia).
    replace (Z.of_nat c >=? Z.of_nat MAX_PROC) with false
      by (symmetry; lia).
    simpl. unfold get_pcb. rewrite Nat2Z.id.
    rewrite decide_False by done. rewrite decide_False; [done|].
    intros Hp. by apply Hp. }
  rewrite Hr. unfold wait_for_specific_child_loop. split.
  - intros Ha. by rewrite decide_True.
  - intros Hz. rewrite decide_False by (by rewrite Hz).
    destruct (cleanup_zombie c status s) as [st s'] eqn:E.
    assert (Est : st = fst (cleanup_zombie c status s)) by (by rewrite E).
    assert (Es : s' = snd (cleanup_zombie c status s)) by (by rewrite E).
    cbn [fst snd]. rewrite Est, cleanup_zombie_status.
    destruct (cleanup_zombie_released c status s Hlen) as (H1 & H2 & H3 & _).
    rewrite Es. split_and!; [done|done|done|done| |].
    + intros q Hq.
      rewrite cleanup_zombie_children, cleanup_zombie_exited by done.
      split_and!; [done|done| |]; apply not_elem_of_rlist_unlink.
    + intros q Hq.
      rewrite (cleanup_zombie_other pstate), (cleanup_zombie_other parent),
        (cleanup_zombie_other exitval), (cleanup_zombie_other FIDT) by done.
      done.
Qed.

(** X12.  PIDs are reused, last freed first: when [sys_WaitChild] returns the
    PID of a reclaimed child, the next [sys_Exec], whoever calls it, gives
    that PID to the process it creates. *)
Theorem sys_Exec_reuses_reclaimed_pid (cur : nat) (cpid : Z) (status : bool)
    (s s' : kstate) (pid : Z) (st : option Z) (cur' : nat)
    (call : option nat) (len : Z) (buf : option nat) :
  length (PT s) = MAX_PROC →
  sys_WaitChild cur cpid status s = (WReturn pid st, s') →
  pid ≠ NOPROC →
  fst (sys_Exec cur' call len buf s') = pid
  ∧ pstate (pcb_at (snd (sys_Exec cur' call len buf s')) (Z.to_nat pid))
      = ALIVE.
Proof.
  intros HPT Hw Hpid.
  assert (Hhead : ∃ c, pid = Z.of_nat c ∧ pcb_freelist s' = Some c
                       ∧ (c < length (PT s'))%nat).
  { unfold sys_WaitChild in Hw. case_decide as Hc.
    - unfold wait_for_specific_child in Hw.
      destruct (cpid <? 0) eqn:E1; [simpl in Hw; congruence|].
      destruct (cpid >=? Z.of_nat MAX_PROC) eqn:E2; [simpl in Hw; congruence|].
      simpl in Hw. unfold get_pcb in Hw.
      case_decide; [congruence|]. case_decide; [congruence|].
      unfold wait_for_specific_child_loop in Hw.
      case_decide; [congruence|].
      destruct (cleanup_zombie (Z.to_nat cpid) status s) as [st0 s0] eqn:E.
      assert (Es : s0 = snd (cleanup_zombie (Z.to_nat cpid) status s))
        by (by rewrite E).
      injection Hw as <- _ <-.
      assert (Hl : (Z.to_nat cpid < length (PT s))%nat) by lia.
      destruct (cleanup_zombie_released _ status s Hl) as (_ & H2 & _).
      exists (Z.to_nat cpid). rewrite Es, cleanup_zombie_length.
      split_and!; [lia|done|done].
    - unfold wait_for_any_child in Hw.
      destruct (is_rlist_empty _); [congruence|].
      destruct (exited_list (pcb_at s cur)) as [|c l] eqn:El; [congruence|].
      case_decide as Hz; [|congruence].
      destruct (cleanup_zombie c status s) as [st0 s0] eqn:E.
      assert (Es : s0 = snd (cleanup_zombie c status s)) by (by rewrite E).
      injection Hw as <- _ <-.
      assert (Hl : (c < length (PT s))%nat).
      { destruct (decide (c < length (PT s))%nat) as [|Hn]; [done|].
        exfalso. unfold pcb_at in Hz.
        rewrite list_lookup_total_alt in Hz.
        rewrite (proj2 (lookup_ge_None (PT s) c)) in Hz by lia.
        simpl in Hz. discriminate Hz. }
      destruct (cleanup_zombie_released _ status s Hl) as (_ & H2 & _).
      exists c. rewrite Es, cleanup_zombie_length. done. }
  destruct Hhead as (c & -> & Hf & Hl).
  rewrite sys_Exec_run, Hf. cbn [fst snd]. split; [done|].
  rewrite Nat2Z.id. unfold exec_blocks.
  rewrite (exec_main_thread_field pstate) by done.
  rewrite (exec_arguments_field pstate) by done.
  rewrite (exec_inherit_field pstate) by done.
  rewrite (acquire_PCB_pstate s' c) by done. by rewrite decide_True.
Qed.

(** ** Reading the information stream to its end *)

Lemma used_pids_all_free s n : ∀ c,
  (∀ k, (c ≤ k < c + n)%nat → pstate (pcb_at s k) = FREE) →
  used_pids s c n = [].
Proof.
  unfold used_pids. induction n as [|n IH]; intros c Hfree; [done|].
  simpl. rewrite filter_cons_False by (intros Hn; apply Hn, Hfree; lia).
  apply IH. intros k Hk. apply Hfree. lia.
Qed.

Lemma used_pids_first s c n j :
  (c ≤ j < c + n)%nat →
  (∀ k, (c ≤ k < j)%nat → pstate (pcb_at s k) = FREE) →
  pstate (pcb_at s j) ≠ FREE →
  used_pids s c n = j :: used_pids s (S j) (c + n - S j).
Proof.
  intros Hj Hfree Hused.
  replace n with ((j - c) + S (c + n - S j))%nat at 1 by lia.
  unfold used_pids. rewrite seq_app, filter_app.
  fold (used_pids s c (j - c)).
  rewrite used_pids_all_free by (intros k Hk; apply Hfree; lia).
  replace (c + (j - c))%nat with j by lia. simpl.
  by rewrite filter_cons_True.
Qed.

Lemma first_used_slot s d : ∀ c,
  (c + d = MAX_PROC)%nat →
  (∀ k, (c ≤ k < MAX_PROC)%nat → pstate (pcb_at s k) = FREE)
  ∨ ∃ j, (c ≤ j < MAX_PROC)%nat
         ∧ (∀ k, (c ≤ k < j)%nat → pstate (pcb_at s k) = FREE)
         ∧ pstate (pcb_at s j) ≠ FREE.
Proof.
  induction d as [|d IH]; intros c Hc.
  - left. intros k Hk. lia.
  - destruct (decide (pstate (pcb_at s c) = FREE)) as [Hf|Hu].
    + destruct (IH (S c)) as [Hall|(j & Hj & Hfree & Hused)]; [lia| |].
      * left. intros k Hk. destruct (decide (k = c)) as [->|]; [done|].
        apply Hall. lia.
      * right. exists j. split; [lia|]. split; [|done].
        intros k Hk. destruct (decide (k = c)) as [->|]; [done|].
        apply Hfree. lia.
    + right. exists c. split; [lia|]. split; [|done]. intros k Hk. lia.
Qed.

Lemma procinfo_read_found (pi : procinfo_cb) (s : kstate) (j : nat) :
  length (PT s) = MAX_PROC →
  length (pi_args (info pi)) = PROCINFO_MAX_ARGS_SIZE →
  (pcbcursor pi ≤ j < MAX_PROC)%nat →
  (∀ k, (pcbcursor pi ≤ k < j)%nat → pstate (pcb_at s k) = FREE) →
  pstate (pcb_at s j) ≠ FREE →
  args_readable s (pcb_at s j) →
  ∃ r, procinfo_read (Some pi) s =
         Some (mkRead SIZEOF_PROCINFO (Some (mkCb (S j) r)) (Some r))
       ∧ describes s r j.
Proof.
  intros Hlen Hargs Hj Hfree Hused Hread.
  unfold procinfo_read.
  rewrite decide_False by lia.
  rewrite (procinfo_scan_found s MAX_PROC (pcbcursor pi) j)
    by (done || lia).
  fold (args_copied (pcb_at s j)).
  destruct Hread as [Hn|(a & blk & Ha & Hblk & Hn)].
  - rewrite Hn. simpl. eexists. split; [done|].
    unfold describes. cbn. split_and!; try done.
    intros ??? ? ? ?. lia.
  - rewrite Ha, Hblk.
    destruct (procinfo_copy_args_ok (args_copied (pcb_at s j)) 0 blk
                (pi_args (info pi))) as (bytes & H1 & H2 & H3).
    { lia. }
    { rewrite Hargs. unfold args_copied. lia. }
    rewrite H1. eexists. split; [done|].
    unfold describes. cbn. split_and!; try done; [congruence|].
    intros a' blk' k Ha' Hblk' Hk. rewrite H3.
    rewrite decide_True by lia. congruence.
Qed.

Lemma procinfo_read_end (pi : procinfo_cb) (s : kstate) :
  length (PT s) = MAX_PROC →
  (pcbcursor pi ≤ MAX_PROC)%nat →
  (∀ k, (pcbcursor pi ≤ k < MAX_PROC)%nat → pstate (pcb_at s k) = FREE) →
  ∃ r, procinfo_read (Some pi) s = Some r ∧ rd_ret r = 0.
Proof.
  intros Hlen Hcur Hfree. unfold procinfo_read.
  destruct (decide (pcbcursor pi = MAX_PROC)) as [Heq|Hne]; [by eexists|].
  rewrite (procinfo_scan_end s MAX_PROC (pcbcursor pi)) by (done || lia).
  by eexists.
Qed.

Lemma procinfo_read_all_from (s : kstate) :
  length (PT s) = MAX_PROC →
  0 < SIZEOF_PROCINFO →
  (∀ p, (p < MAX_PROC)%nat → pstate (pcb_at s p) ≠ FREE →
        args_readable s (pcb_at s p)) →
  ∀ d pi fuel,
    (pcbcursor pi + d = MAX_PROC)%nat →
    length (pi_args (info pi)) = PROCINFO_MAX_ARGS_SIZE →
    (d < fuel)%nat →
    ∃ l, procinfo_read_all fuel pi s = Some l
         ∧ Forall2 (describes s) l (used_pids s (pcbcursor pi) d).
Proof.
  intros Hlen Hsize Hread d.
  induction d as [d IH] using lt_wf_ind. intros pi fuel Hd Hargs Hfuel.
  destruct fuel as [|fuel]; [lia|]. cbn [procinfo_read_all].
  destruct (first_used_slot s d (pcbcursor pi) Hd)
    as [Hall|(j & Hj & Hfree & Hused)].
  - destruct (procinfo_read_end pi s Hlen) as (r & -> & Hr); [lia|done|].
    rewrite Hr. simpl. exists []. split; [done|].
    rewrite used_pids_all_free; [constructor|].
    intros k Hk. apply Hall. lia.
  - destruct (procinfo_read_found pi s j) as (r & -> & Hr); try done.
    { apply Hread; [lia|done]. }
    cbn [rd_ret rd_cb rd_buf].
    replace (SIZEOF_PROCINFO <=? 0) with false by (symmetry; lia).
    destruct (IH (MAX_PROC - S j)%nat ltac:(lia) (mkCb (S j) r) fuel)
      as (l & -> & Hl).
    { simpl. lia. }
    { simpl. by destruct Hr as (_ & _ & _ & _ & _ & _ & ? & _). }
    { lia. }
    exists (r :: l). split; [done|].
    rewrite (used_pids_first s (pcbcursor pi) d j) by (done || lia).
    constructor; [done|].
    replace (pcbcursor pi + d - S j)%nat with (MAX_PROC - S j)%nat by lia.
    exact Hl.
Qed.

(** X17.  A reader that opens the information stream and reads it to the end
    gets one record for each slot in use and none for a FREE slot, in the
    order of the PIDs, each record describing its slot; the read after the
    last record returns 0.  At most MAX_PROC + 1 reads are made.  The
    table has its MAX_PROC slots and is not changed meanwhile, a record has
    a positive size, and the argument bytes of the slots in use can be
    read. *)
Theorem procinfo_read_all_lists_used_slots (garbage : procinfo)
    (s : kstate) :
  length (PT s) = MAX_PROC →
  0 < SIZEOF_PROCINFO →
  length (pi_args garbage) = PROCINFO_MAX_ARGS_SIZE →
  (∀ p, (p < MAX_PROC)%nat → pstate (pcb_at s p) ≠ FREE →
        args_readable s (pcb_at s p)) →
  ∃ l, procinfo_read_all (S MAX_PROC) (init_procinfo_cb garbage) s = Some l
       ∧ Forall2 (describes s) l (used_pids s 0 MAX_PROC)
       ∧ pi_pid <$> l = Z.of_nat <$> used_pids s 0 MAX_PROC
       ∧ length l = used_slots s.
Proof.
  intros Hlen Hsize Hargs Hread.
  destruct (procinfo_read_all_from s Hlen Hsize Hread MAX_PROC
              (init_procinfo_cb garbage) (S MAX_PROC))
    as (l & Hl & HF); [done|done|lia|].
  exists l. simpl in HF. split_and!; [done|done| |].
  - clear Hl. induction HF as [|r p l ps Hr _ IH]; [done|].
    simpl. f_equal; [by destruct Hr|done].
  - rewrite (Forall2_length _ _ _ HF). done.
Qed.

(** ** Taking a slot and giving it back *)

Lemma uint_incr_decr c : 0 ≤ c < UINT_MOD → uint_decr (uint_incr c) = c.
Proof.
  intros H. unfold uint_incr, uint_decr, UINT_MOD in *.
  rewrite Zminus_mod_idemp_l. replace (c + 1 - 1) with c by lia.
  by apply Z.mod_small.
Qed.

(** X4.  Acquiring a slot and releasing it right away leaves the kernel state
    exactly as it was: the table, the free list and the counter.  The head
    of the free list is a FREE slot of the table and [process_count] is an
    unsigned int value. *)
Theorem acquire_release_roundtrip (s : kstate) (p : nat) :
  pcb_freelist s = Some p →
  (p < length (PT s))%nat →
  pstate (pcb_at s p) = FREE →
  0 ≤ process_count s < UINT_MOD →
  fst (acquire_PCB s) = Some p
  ∧ snd (release_PCB p (snd (acquire_PCB s))) = s.
Proof.
  intros Hf Hp Hfree Hc. unfold acquire_PCB. rewrite Hf. cbn [fst snd].
  split; [done|].
  destruct s as [pt cnt fl rc hp tc pc sc].
  unfold release_PCB, upd_pcb, pcb_at in *. cbn in *. subst fl.
  rewrite uint_incr_decr by done.
  rewrite !list_lookup_total_alter_eq by (by rewrite ?length_alter).
  unfold with_process_count, with_pcb_freelist, with_PT. cbn. f_equal.
  apply list_eq. intros i. destruct (decide (i = p)) as [->|Hi].
  - rewrite !list_lookup_alter_eq.
    destruct (lookup_lt_is_Some_2 pt p Hp) as [b Hb].
    rewrite (list_lookup_total_correct _ _ _ Hb) in Hfree |- *.
    rewrite Hb. destruct b. cbn in *. by subst.
  - by rewrite !list_lookup_alter_ne.
Qed.

(** ** The main thread *)

Lemma exec_blocks_arguments cur np call len buf s :
  pcb_freelist s = Some np →
  (np < length (PT s))%nat →
  let s' := exec_blocks cur np call len buf s in
  main_task (pcb_at s' np) = call
  ∧ argl (pcb_at s' np) = len
  ∧ args (pcb_at s' np) =
      match buf with Some _ => Some (length (heap s)) | None => None end.
Proof.
  intros Hf Hnp s'. subst s'. unfold exec_blocks.
  set (s0 := snd (acquire_PCB s)).
  set (s1 := snd (exec_inherit cur np s0)).
  assert (Hl1 : (np < length (PT s1))%nat).
  { subst s1 s0. by rewrite exec_inherit_length, acquire_PCB_length. }
  assert (Hh1 : heap s1 = heap s).
  { subst s1. destruct (exec_inherit_keeps cur np s0) as (_ & -> & _).
    subst s0. unfold acquire_PCB. by destruct (pcb_freelist s). }
  destruct (exec_arguments_np np call len buf s1 Hl1)
    as (Hmt & Hargl & Hargs & _).
  rewrite (exec_main_thread_field argl), (exec_main_thread_field main_task),
    (exec_main_thread_field args) by done.
  by rewrite Hmt, Hargl, Hargs, Hh1.
Qed.

(** X5.  The main thread of a process created by [sys_Exec] with an entry
    point calls that entry point with the argument length given to
    [sys_Exec] and with the process's own copy of the argument buffer (NULL
    when the buffer was NULL), not with the caller's buffer; what the task
    returns is passed to [sys_Exit] of the new process. *)
Theorem start_main_thread_runs_task_on_own_copy
    (run_task : nat → Z → option nat → K Z) (cur : nat) (t : nat)
    (len : Z) (buf : option nat) (s : kstate) (np : nat) :
  pcb_freelist s = Some np →
  (np < length (PT s))%nat →
  let s' := snd (sys_Exec cur (Some t) len buf s) in
  let own := match buf with
             | Some _ => Some (length (heap s))
             | None => None
             end in
  start_main_thread_body run_task np s' =
    (Some (fst (sys_Exit np (fst (run_task t len own s'))
                  (snd (run_task t len own s')))),
     snd (sys_Exit np (fst (run_task t len own s'))
            (snd (run_task t len own s')))).
Proof.
  intros Hf Hnp s' own. subst s' own. rewrite sys_Exec_run, Hf. cbn [snd].
  destruct (exec_blocks_arguments cur np (Some t) len buf s Hf Hnp)
    as (Hmt & Hargl & Hargs).
  unfold start_main_thread_body. rewrite Hmt, Hargl, Hargs.
  destruct (run_task t len _ _) as [v s1]. cbn [fst snd].
  by destruct (sys_Exit np v s1).
Qed.

Section Sentinel.

(** [NOPROC] is not a PID: the range check of [wait_for_specific_child]
    and the test of [initialize_processes] rely on it. *)
Hypothesis NOPROC_negative : NOPROC < 0.

(** ** WaitChild *)

Lemma wait_for_specific_child_loop_pid c cpid status s pid st s' :
  wait_for_specific_child_loop c cpid status s = (WReturn pid st, s') →
  pid = cpid.
Proof.
  unfold wait_for_specific_child_loop. case_decide; [done|].
  destruct (cleanup_zombie c status s). congruence.
Qed.

(** C3.  One pass of [sys_WaitChild] returns NOPROC exactly when: a
    specific PID is asked for and it is outside [0, MAX_PROC), or its slot
    is FREE, or its parent is not the caller; or any child is asked for and
    the caller's children list is empty.  In each of these cases the call
    returns without sleeping, stores nothing through [status] and leaves
    the kernel state, the process table included, as it was. *)
Theorem sys_WaitChild_NOPROC (cur : nat) (cpid : Z) (status : bool)
    (s : kstate) :
  ((∃ st, fst (sys_WaitChild cur cpid status s) = WReturn NOPROC st)
     ↔ wait_fails_at_once cur cpid s)
  ∧ (wait_fails_at_once cur cpid s →
       sys_WaitChild cur cpid status s = (WReturn NOPROC None, s)).
Proof.
  assert (Hfail : wait_fails_at_once cur cpid s →
            sys_WaitChild cur cpid status s = (WReturn NOPROC None, s)).
  { intros [[Hne Hc]|[-> Hc]]; unfold sys_WaitChild.
    - rewrite decide_True by done. unfold wait_for_specific_child.
      destruct ((cpid <? 0) || (cpid >=? Z.of_nat MAX_PROC)) eqn:Hrange;
        [done|].
      apply orb_false_iff in Hrange as [H1 H2].
      destruct Hc as [?|[?|[Hc|Hc]]]; try lia.
      + unfold get_pcb. by rewrite decide_True.
      + unfold get_pcb. case_decide; [done|]. by rewrite decide_True.
    - rewrite decide_False by (intros H; by apply H).
      unfold wait_for_any_child. by rewrite Hc. }
  split; [|done]. split; [|intros H; rewrite Hfail by done; eauto].
  intros [st Hr]. unfold wait_fails_at_once.
  unfold sys_WaitChild in Hr.
  destruct (decide (cpid ≠ NOPROC)) as [Hne|Heq].
  - left. split; [done|].
    unfold wait_for_specific_child in Hr.
    destruct ((cpid <? 0) || (cpid >=? Z.of_nat MAX_PROC)) eqn:Hrange.
    { apply orb_true_iff in Hrange as [?|?]; lia. }
    unfold get_pcb in Hr.
    destruct (decide (pstate (pcb_at s (Z.to_nat cpid)) = FREE)); [tauto|].
    destruct (decide (parent (pcb_at s (Z.to_nat cpid)) ≠ Some cur));
      [tauto|].
    destruct (wait_for_specific_child_loop (Z.to_nat cpid) cpid status s)
      as [r s'] eqn:Hloop.
    simpl in Hr. subst r.
    apply wait_for_specific_child_loop_pid in Hloop. congruence.
  - right. split; [by apply dec_stable|].
    unfold wait_for_any_child in Hr.
    destruct (children_list (pcb_at s cur)) as [|x l]; [done|].
    simpl in Hr.
    destruct (exited_list (pcb_at s cur)) as [|c l']; [done|].
    case_decide; [|done].
    destruct (cleanup_zombie c status s). simpl in Hr.
    injection Hr as Hr _. lia.
Qed.




(** ** Exit *)

(** One reclamation by [wait_for_any_child] shortens the caller's exited
    list and keeps every [exitval]. *)
Lemma wait_for_any_child_step cur status s pid st s' :
  wait_for_any_child cur status s = (WReturn pid st, s') →
  pid ≠ NOPROC →
  (S (length (exited_list (pcb_at s' cur))) ≤
     length (exited_list (pcb_at s cur)))%nat
  ∧ (∀ q, exitval (pcb_at s' q) = exitval (pcb_at s q))
  ∧ length (PT s') = length (PT s).
Proof.
  unfold wait_for_any_child. intros Hr Hpid.
  destruct (is_rlist_empty (children_list (pcb_at s cur))); [congruence|].
  destruct (exited_list (pcb_at s cur)) as [|c rest] eqn:Hex; [done|].
  case_decide as Hz; [|done].
  destruct (cleanup_zombie c status s) as [st0 s0] eqn:Hcl.
  injection Hr as <- <- <-.
  assert (Hs0 : s0 = snd (cleanup_zombie c status s)) by (by rewrite Hcl).
  assert (Hcur : (cur < length (PT s))%nat).
  { destruct (decide (cur < length (PT s))%nat) as [|Hge]; [done|].
    unfold pcb_at in Hex. rewrite list_lookup_total_alt in Hex.
    rewrite lookup_ge_None_2 in Hex by lia. done. }
  subst s0. split_and!.
  - rewrite cleanup_zombie_exited, Hex by done. simpl.
    pose proof (rlist_unlink_head_length c rest). lia.
  - intros q. by apply (cleanup_zombie_field exitval).
  - apply cleanup_zombie_length.
Qed.

Lemma wait_for_any_child_same cur status s r s' :
  wait_for_any_child cur status s = (r, s') →
  (∀ pid st, r = WReturn pid st → pid = NOPROC) → s' = s.
Proof.
  unfold wait_for_any_child. intros Hr Hpid.
  destruct (is_rlist_empty (children_list (pcb_at s cur))); [congruence|].
  destruct (exited_list (pcb_at s cur)) as [|c rest] eqn:Hex; [congruence|].
  case_decide as Hz; [|congruence].
  destruct (cleanup_zombie c status s) as [st0 s0] eqn:Hcl.
  injection Hr as <- <-.
  specialize (Hpid _ _ eq_refl). simpl in Hpid. lia.
Qed.

(** The drain loop of init ends within the fuel [sys_Exit] gives it, and
    keeps every [exitval]. *)
Lemma sys_Exit_drain_spec fuel cur v s :
  (length (exited_list (pcb_at s cur)) ≤ fuel)%nat →
  fst (sys_Exit_drain fuel cur v s) ≠ ExitOutOfFuel
  ∧ (∀ q, exitval (pcb_at (snd (sys_Exit_drain fuel cur v s)) q) =
          exitval (pcb_at s q))
  ∧ length (PT (snd (sys_Exit_drain fuel cur v s))) = length (PT s).
Proof.
  revert s. induction fuel as [|fuel IH]; intros s Hfuel; simpl;
    unfold sys_WaitChild; rewrite decide_False by (intros H; by apply H);
    destruct (wait_for_any_child cur false s) as [r s'] eqn:Hw.
  - destruct r as [|pid st|]; simpl.
    + apply wait_for_any_child_same in Hw as ->; done.
    + case_decide as Hpid.
      * apply wait_for_any_child_step in Hw as (Hlen & _); [lia|done].
      * apply wait_for_any_child_same in Hw as ->; [done|].
        intros ?? [= <- _]; first [done | by apply dec_stable].
    + apply wait_for_any_child_same in Hw as ->; done.
  - destruct r as [|pid st|]; simpl.
    + apply wait_for_any_child_same in Hw as ->; done.
    + case_decide as Hpid.
      * apply wait_for_any_child_step in Hw as (Hlen & Hval & HPT); [|done].
        destruct (IH s') as (H1 & H2 & H3); [lia|].
        split_and!; [done| |congruence].
        intros q. by rewrite H2.
      * apply wait_for_any_child_same in Hw as ->; [done|].
        intros ?? [= <- _]; first [done | by apply dec_stable].
    + apply wait_for_any_child_same in Hw as ->; done.
Qed.

(** C6.  [sys_Exit] called by the process in slot [cur] reaches its sleep
    or its call of [sys_ThreadExit] (the drain loop of init ends) with the
    caller's [exitval] unchanged when the exit value is zero, and equal to
    the exit value when it is not. *)
Theorem sys_Exit_exitval (cur : nat) (v : Z) (s : kstate) :
  (cur < length (PT s))%nat →
  fst (sys_Exit cur v s) ≠ ExitOutOfFuel
  ∧ exitval (pcb_at (snd (sys_Exit cur v s)) cur) =
      (if decide (v = 0) then exitval (pcb_at s cur) else v).
Proof.
  intros Hcur. unfold sys_Exit.
  set (s1 := if decide (v ≠ 0) then upd_pcb cur (set_exitval v) s else s).
  assert (Hs1 : exitval (pcb_at s1 cur) =
                (if decide (v = 0) then exitval (pcb_at s cur) else v)).
  { subst s1. destruct (decide (v = 0)) as [->|Hv].
    - by rewrite decide_False by (intros H; by apply H).
    - rewrite decide_True by done. by rewrite pcb_at_upd_eq. }
  destruct (get_pid (Some cur) =? 1).
  - destruct (sys_Exit_drain_spec (length (exited_list (pcb_at s1 cur)))
                cur v s1) as (H1 & H2 & _); [lia|].
    split; [done|]. by rewrite H2.
  - done.
Qed.

(** ** The exit of init *)



(** ** Waiting for the process just created *)

Lemma exec_blocks_new_slot cur np call len buf s :
  pcb_freelist s = Some np →
  (np < length (PT s))%nat →
  pstate (pcb_at (exec_blocks cur np call len buf s) np) = ALIVE
  ∧ parent (pcb_at (exec_blocks cur np call len buf s) np) =
      (if Z.of_nat np <=? 1 then None else Some cur).
Proof.
  intros Hf Hnp. rewrite !exec_blocks_field_np by done. split.
  - rewrite (exec_inherit_field pstate) by done.
    rewrite (acquire_PCB_pstate s np) by done. by rewrite decide_True.
  - rewrite exec_inherit_parent by (by rewrite acquire_PCB_length). done.
Qed.

(** X10.  Only its creator can wait for a new process.  After a successful
    [sys_Exec] that returns a PID above 1, [sys_GetPPid] of the new process
    is the PID of the caller; [sys_WaitChild] on the new PID called by the
    caller waits, the child being ALIVE, and called by any other process
    fails at once.  When the new PID is 0 or 1 the process has no parent
    and [sys_WaitChild] on it fails for every caller. *)
Theorem sys_Exec_then_sys_WaitChild (cur : nat) (call : option nat) (len : Z)
    (buf : option nat) (status : bool) (s : kstate) (np : nat) :
  pcb_freelist s = Some np →
  (np < length (PT s))%nat →
  (np < MAX_PROC)%nat →
  let pid := fst (sys_Exec cur call len buf s) in
  let s' := snd (sys_Exec cur call len buf s) in
  sys_GetPPid np s' = (if Z.of_nat np <=? 1 then NOPROC else sys_GetPid cur)
  ∧ ∀ who,
      sys_WaitChild who pid status s' =
        (if decide (who = cur ∧ 1 < Z.of_nat np) then WBlocked
         else WReturn NOPROC None, s').
Proof.
  intros Hf Hnp Hmax pid s'. subst pid s'. rewrite sys_Exec_run, Hf.
  cbn [fst snd].
  destruct (exec_blocks_new_slot cur np call len buf s Hf Hnp) as [Hal Hpar].
  set (s' := exec_blocks cur np call len buf s) in *. split.
  - unfold sys_GetPPid, sys_GetPid. rewrite Hpar.
    by destruct (Z.of_nat np <=? 1).
  - intros who. unfold sys_WaitChild. rewrite decide_True by lia.
    unfold wait_for_specific_child.
    replace (Z.of_nat np <? 0) with false by (symmetry; lia).
    replace (Z.of_nat np >=? Z.of_nat MAX_PROC) with false
      by (symmetry; lia).
    cbn [orb]. unfold get_pcb. rewrite Nat2Z.id.
    rewrite decide_False by (by rewrite Hal). rewrite Hpar.
    destruct (Z.of_nat np <=? 1) eqn:E.
    + rewrite decide_True by done. rewrite decide_False; [done|lia].
    + destruct (decide (who = cur)) as [->|Hw].
      * rewrite decide_False by (intros H; by apply H).
        rewrite decide_True by (split; [done|lia]).
        unfold wait_for_specific_child_loop. by rewrite decide_True.
      * rewrite decide_True by congruence.
        rewrite decide_False; [done|]. intros [? _]. done.
Qed.

Section Counter.

(** The table fits the counter: [process_count] is an unsigned int. *)
Hypothesis MAX_PROC_uint : Z.of_nat MAX_PROC < UINT_MOD.

(** ** The allocator keeps its invariant *)

Lemma alloc_inv_head s p :
  alloc_inv s → pcb_freelist s = Some p →
  (p < MAX_PROC)%nat ∧ pstate (pcb_at s p) = FREE.
Proof.
  intros (Hlen & _ & l & Hchain & _ & Hmem) Hf.
  destruct l as [|p' l]; simpl in Hchain; [congruence|].
  destruct Hchain as (Hhd & _ & _).
  assert (p' = p) as -> by congruence.
  apply Hmem. left.
Qed.

Lemma acquire_PCB_inv s : alloc_inv s → alloc_inv (snd (acquire_PCB s)).
Proof.
  intros Hinv. destruct (pcb_freelist s) as [p|] eqn:Hf.
  2:{ unfold acquire_PCB. by rewrite Hf. }
  destruct (alloc_inv_head s p Hinv Hf) as [Hp Hfree].
  destruct Hinv as (Hlen & Hcount & l & Hchain & Hnd & Hmem).
  destruct l as [|p' l]; simpl in Hchain; [congruence|].
  destruct Hchain as (Hhd & Hp' & Hchain).
  assert (p' = p) as -> by congruence.
  apply NoDup_cons in Hnd as [Hnotin Hnd].
  assert (Hst : ∀ q, pstate (pcb_at (snd (acquire_PCB s)) q) =
                     if decide (p = q) then ALIVE else pstate (pcb_at s q)).
  { intros q. rewrite (acquire_PCB_pstate s p) by done.
    destruct (decide (p = q)) as [->|].
    - rewrite decide_True; [done|]. split; [done|lia].
    - rewrite decide_False; [done|]. tauto. }
  assert (Hused : used_slots (snd (acquire_PCB s)) = S (used_slots s)).
  { apply (used_slots_add _ _ p); [done|done| |].
    - rewrite Hst, decide_True by done. done.
    - intros q Hq. rewrite Hst, decide_False by done. done. }
  pose proof (used_slots_le (snd (acquire_PCB s))) as Hle.
  split_and!.
  - unfold acquire_PCB. rewrite Hf. ksimpl. done.
  - assert (process_count (snd (acquire_PCB s)) =
            uint_incr (process_count s)) as ->.
    { unfold acquire_PCB. by rewrite Hf. }
    rewrite Hused, Hcount, uint_incr_small by lia. lia.
  - exists l. split_and!; [|done|].
    + unfold acquire_PCB. rewrite Hf. ksimpl.
      rewrite (pcb_at_upd_field parent) by done.
      eapply free_chain_ext; [| |exact Hchain].
      * unfold upd_pcb; ksimpl. apply length_alter.
      * intros q _.
        apply (pcb_at_upd_field parent p q (set_pstate ALIVE) s). done.
    + intros q. rewrite Hst. split.
      * intros Hq. assert (p ≠ q) by (intros ->; done).
        rewrite decide_False by done. apply Hmem. by right.
      * intros [Hq Hfq]. case_decide; [done|].
        assert (q ∈ p :: l) as Hin by (by apply Hmem).
        apply elem_of_cons in Hin as [->|]; done.
Qed.

Lemma release_PCB_inv p s :
  alloc_inv s → (p < MAX_PROC)%nat → pstate (pcb_at s p) ≠ FREE →
  alloc_inv (snd (release_PCB p s)).
Proof.
  intros (Hlen & Hcount & l & Hchain & Hnd & Hmem) Hp Hused.
  assert (Hst : ∀ q, pstate (pcb_at (snd (release_PCB p s)) q) =
                     if decide (p = q) then FREE else pstate (pcb_at s q)).
  { intros q. rewrite release_PCB_pstate.
    destruct (decide (p = q)) as [->|].
    - rewrite decide_True; [done|]. split; [done|lia].
    - rewrite decide_False; [done|]. tauto. }
  assert (Hnotin : p ∉ l).
  { intros Hin. apply Hmem in Hin as [_ Hin]. done. }
  assert (Hcnt : used_slots s = S (used_slots (snd (release_PCB p s)))).
  { apply (used_slots_add _ _ p); [done| |done|].
    - rewrite Hst, decide_True by done. done.
    - intros q Hq. rewrite Hst, decide_False by done. done. }
  pose proof (used_slots_le s) as Hle.
  split_and!.
  - unfold release_PCB. ksimpl. done.
  - assert (process_count (snd (release_PCB p s)) =
            uint_decr (process_count s)) as -> by done.
    rewrite Hcount, uint_decr_small by lia. lia.
  - exists (p :: l). split_and!.
    + unfold release_PCB. ksimpl. simpl. split_and!; [done| |].
      * unfold upd_pcb; ksimpl. rewrite !length_alter. lia.
      * rewrite list_lookup_total_alter_eq by (rewrite length_alter; lia).
        simpl.
        eapply free_chain_ext; [| |exact Hchain].
        -- rewrite !length_alter. done.
        -- intros q Hq. assert (p ≠ q) by (intros ->; done).
           by rewrite !list_lookup_total_alter_ne by done.
    + by apply NoDup_cons.
    + intros q. rewrite Hst, elem_of_cons, Hmem.
      destruct (decide (p = q)) as [->|]; [tauto|].
      split; [intros [->|]; done|tauto].
Qed.

Lemma frame_upd_keep p f s :
  (∀ b, pstate (f b) = pstate b) →
  (∀ b, parent (f b) = parent b) →
  frame s (upd_pcb p f s).
Proof.
  intros H1 H2. apply frame_fields.
  - apply keeps_allocator_upd.
  - intros q. by apply (pcb_at_upd_field pstate).
  - intros q _. by apply (pcb_at_upd_field parent).
Qed.

(** *** The table after [initialize_processes] *)

Lemma length_PT_array s : length (PT_array s) = MAX_PROC.
Proof.
  unfold PT_array. rewrite length_take, length_app, length_replicate. lia.
Qed.

Lemma freelist_link_fold n : ∀ k s l0,
  (k + n ≤ length (PT s))%nat →
  free_chain (PT s) (pcb_freelist s) l0 →
  (∀ p, p ∈ l0 → (k + n ≤ p)%nat) →
  let s' := foldr freelist_link s (seq k n) in
  free_chain (PT s') (pcb_freelist s') (seq k n ++ l0)
  ∧ length (PT s') = length (PT s)
  ∧ process_count s' = process_count s
  ∧ ∀ q, pstate (pcb_at s' q) = pstate (pcb_at s q).
Proof.
  induction n as [|n IH]; intros k s l0 Hlen Hchain Hl0; [done|].
  simpl seq. simpl foldr.
  destruct (IH (S k) s l0) as (Hc & HL & HC & Hst); [lia|done| |].
  { intros p Hp. apply Hl0 in Hp. lia. }
  set (s1 := foldr freelist_link s (seq (S k) n)) in *.
  cbv zeta. unfold freelist_link. ksimpl. split_and!.
  - unfold upd_pcb. ksimpl. simpl.
    split_and!; [done|rewrite length_alter; lia|].
    rewrite list_lookup_total_alter_eq by lia. simpl.
    eapply free_chain_ext; [| |exact Hc].
    + by rewrite length_alter.
    + intros q Hq. rewrite list_lookup_total_alter_ne; [done|].
      apply elem_of_app in Hq as [Hq|Hq].
      * apply elem_of_seq in Hq. lia.
      * apply Hl0 in Hq. lia.
  - done.
  - done.
  - intros q. rewrite pcb_at_with_pcb_freelist.
    rewrite (pcb_at_upd_field pstate) by done. apply Hst.
Qed.

Lemma initialize_table_pstate s q :
  pstate (pcb_at (initialize_table s) q) = FREE.
Proof.
  unfold initialize_table.
  set (s2 := with_pcb_freelist None _).
  destruct (freelist_link_fold MAX_PROC 0 s2 []) as (_ & _ & _ & Hst).
  - subst s2. ksimpl. rewrite length_fmap, length_PT_array. lia.
  - done.
  - intros p Hp. by apply elem_of_nil in Hp.
  - ksimpl. rewrite Hst. subst s2. unfold pcb_at. ksimpl.
    rewrite list_lookup_total_alt, list_lookup_fmap.
    destruct (PT_array s !! q) as [b|] eqn:Hb; done.
Qed.

Lemma used_slots_none s :
  (∀ q, pstate (pcb_at s q) = FREE) → used_slots s = 0%nat.
Proof.
  intros H. unfold used_slots.
  rewrite (length_filter_ext _ (λ _, False)).
  - by induction (seq 0 MAX_PROC).
  - intros x _. rewrite H. tauto.
Qed.

Lemma initialize_table_inv s : alloc_inv (initialize_table s).
Proof.
  pose proof (initialize_table_pstate s) as Hst.
  unfold initialize_table in *.
  set (s2 := with_pcb_freelist None _) in *.
  destruct (freelist_link_fold MAX_PROC 0 s2 []) as (Hc & HL & HC & _).
  { subst s2. ksimpl. rewrite length_fmap, length_PT_array. lia. }
  { done. }
  { intros p Hp. by apply elem_of_nil in Hp. }
  cbv zeta in Hc, HL, HC. rewrite app_nil_r in Hc.
  split_and!.
  - ksimpl. rewrite HL. subst s2. ksimpl.
    by rewrite length_fmap, length_PT_array.
  - rewrite used_slots_none by done. done.
  - exists (seq 0 MAX_PROC). split_and!.
    + ksimpl. done.
    + apply NoDup_seq.
    + intros p. rewrite elem_of_seq. split; [|lia].
      intros ?. split; [lia|]. apply Hst.
Qed.

(** *** Exec *)

Lemma exec_inherit_parent_ne cur np s q :
  q ≠ np →
  parent (pcb_at (snd (exec_inherit cur np s)) q) = parent (pcb_at s q).
Proof.
  intros Hq. unfold exec_inherit.
  destruct (get_pid (Some np) <=? 1); krun.
  - by rewrite pcb_at_upd_ne.
  - rewrite (for_each_inherit_field parent) by done.
    rewrite (pcb_at_upd_field parent) by done.
    by rewrite pcb_at_upd_ne.
Qed.

Lemma exec_blocks_frame cur np call argl args s :
  pcb_freelist s = Some np →
  (np < length (PT s))%nat →
  frame (snd (acquire_PCB s)) (exec_blocks cur np call argl args s).
Proof.
  intros Hf Hnp. unfold exec_blocks.
  set (s0 := snd (acquire_PCB s)).
  assert (Hnp0 : pstate (pcb_at s0 np) = ALIVE).
  { subst s0. rewrite (acquire_PCB_pstate s np) by done.
    by rewrite decide_True. }
  eapply frame_trans; [|eapply frame_trans].
  - apply (frame_fields s0 (snd (exec_inherit cur np s0))).
    + apply exec_inherit_keeps.
    + intros q. by apply (exec_inherit_field pstate).
    + intros q Hq. apply exec_inherit_parent_ne. intros ->. congruence.
  - apply frame_fields.
    + apply exec_arguments_keeps.
    + intros q. by apply (exec_arguments_field pstate).
    + intros q _. by apply (exec_arguments_field parent).
  - apply frame_fields.
    + apply exec_main_thread_keeps.
    + intros q. by apply (exec_main_thread_field pstate).
    + intros q _. by apply (exec_main_thread_field parent).
Qed.

Lemma sys_Exec_inv cur call argl args s :
  alloc_inv s → alloc_inv (snd (sys_Exec cur call argl args s)).
Proof.
  intros Hinv. rewrite sys_Exec_run.
  destruct (pcb_freelist s) as [np|] eqn:Hf; [|done]. simpl.
  destruct (alloc_inv_head s np Hinv Hf) as [Hnp _].
  eapply alloc_inv_frame; [by apply acquire_PCB_inv|].
  apply exec_blocks_frame; [done|]. destruct Hinv as [-> _]. done.
Qed.

(** *** WaitChild, Exit and the exit of the last thread *)

Lemma cleanup_zombie_inv c status s :
  alloc_inv s → (c < MAX_PROC)%nat → pstate (pcb_at s c) ≠ FREE →
  alloc_inv (snd (cleanup_zombie c status s)).
Proof.
  intros Hinv Hc Hused.
  assert (Hfr : frame s (rlist_remove_exited_node c
                           (rlist_remove_children_node c s))).
  { eapply frame_trans; unfold rlist_remove_exited_node,
      rlist_remove_children_node; by apply frame_fmap. }
  change (snd (cleanup_zombie c status s)) with
    (snd (release_PCB c (rlist_remove_exited_node c
                           (rlist_remove_children_node c s)))).
  apply release_PCB_inv; [by eapply alloc_inv_frame|done|].
  destruct Hfr as [_ Hfr]. destruct (Hfr c) as [-> _]. done.
Qed.

Lemma pcb_at_out_of_range s q :
  (length (PT s) ≤ q)%nat → pcb_at s q = zero_PCB.
Proof.
  intros H. unfold pcb_at. rewrite list_lookup_total_alt.
  by rewrite lookup_ge_None_2.
Qed.

Lemma sys_WaitChild_inv cur cpid status s :
  alloc_inv s → alloc_inv (snd (sys_WaitChild cur cpid status s)).
Proof.
  intros Hinv. pose proof Hinv as (Hlen & _).
  unfold sys_WaitChild. case_decide.
  - unfold wait_for_specific_child.
    destruct ((cpid <? 0) || (cpid >=? Z.of_nat MAX_PROC)) eqn:Hrange;
      [done|].
    apply orb_false_iff in Hrange as [H1 H2].
    unfold get_pcb. case_decide as Hfree; [done|]. case_decide; [done|].
    unfold wait_for_specific_child_loop. case_decide; [done|].
    destruct (cleanup_zombie (Z.to_nat cpid) status s) as [st s'] eqn:Hcl.
    simpl. replace s' with (snd (cleanup_zombie (Z.to_nat cpid) status s))
      by (by rewrite Hcl).
    apply cleanup_zombie_inv; [done|lia|done].
  - unfold wait_for_any_child.
    destruct (is_rlist_empty _); [done|].
    destruct (exited_list (pcb_at s cur)) as [|c rest]; [done|].
    case_decide as Hz; [|done].
    destruct (cleanup_zombie c status s) as [st s'] eqn:Hcl.
    simpl. replace s' with (snd (cleanup_zombie c status s))
      by (by rewrite Hcl).
    apply cleanup_zombie_inv; [done| |congruence].
    destruct (decide (c < MAX_PROC)%nat); [done|].
    rewrite pcb_at_out_of_range in Hz by lia. done.
Qed.

Lemma sys_Exit_drain_inv fuel cur v s :
  alloc_inv s → alloc_inv (snd (sys_Exit_drain fuel cur v s)).
Proof.
  revert s. induction fuel as [|fuel IH]; intros s Hinv; simpl;
    pose proof (sys_WaitChild_inv cur NOPROC false s Hinv) as Hw;
    destruct (sys_WaitChild cur NOPROC false s) as [[|pid st|] s'];
    simpl in Hw; try done; case_decide; try done.
  by apply IH.
Qed.

Lemma sys_Exit_inv cur v s :
  alloc_inv s → alloc_inv (snd (sys_Exit cur v s)).
Proof.
  intros Hinv. unfold sys_Exit.
  set (s1 := if decide (v ≠ 0) then _ else s).
  assert (alloc_inv s1).
  { subst s1. case_decide; [|done].
    eapply alloc_inv_frame; [done|]. by apply frame_upd_keep. }
  destruct (get_pid (Some cur) =? 1); [|done].
  by apply sys_Exit_drain_inv.
Qed.

Lemma thread_exit_last_inv relocate cur s :
  alloc_inv s → alloc_inv (snd (thread_exit_last relocate cur s)).
Proof.
  intros Hinv. unfold thread_exit_last. case_decide as Hal; [|done].
  assert (Hfr : frame s (upd_pcb cur (set_pstate ZOMBIE) s)).
  { apply frame_upd_used; [congruence|done]. }
  cbv zeta.
  destruct (parent (pcb_at (upd_pcb cur _ s) cur)) as [pp|]; cbn [snd].
  - eapply alloc_inv_frame; [done|].
    eapply frame_trans; [exact Hfr|].
    apply frame_upd_keep; intros b; by destruct relocate.
  - by eapply alloc_inv_frame.
Qed.

(** The continuation of a sleeping [wait_for_specific_child] keeps the
    allocator consistent when the child has not been reclaimed. *)
Lemma wait_for_specific_child_loop_inv c cpid status s :
  alloc_inv s → pstate (pcb_at s c) ≠ FREE →
  alloc_inv (snd (wait_for_specific_child_loop c cpid status s)).
Proof.
  intros Hinv Hused. unfold wait_for_specific_child_loop.
  case_decide; [done|].
  destruct (cleanup_zombie c status s) as [st s'] eqn:Hcl.
  cbn [snd]. replace s' with (snd (cleanup_zombie c status s))
    by (by rewrite Hcl).
  apply cleanup_zombie_inv; [done| |done].
  destruct (decide (c < MAX_PROC)%nat); [done|].
  destruct Hinv as [Hlen _].
  rewrite pcb_at_out_of_range in Hused by lia. done.
Qed.

Lemma run_call_inv c s :
  alloc_inv s → call_allowed s c → alloc_inv (run_call c s).
Proof.
  intros Hinv Hok.
  destruct c as [|p|cur call argl args|cur cpid st|c cpid st|cur v rel];
    simpl.
  - by apply acquire_PCB_inv.
  - destruct Hok. by apply release_PCB_inv.
  - by apply sys_Exec_inv.
  - by apply sys_WaitChild_inv.
  - by apply wait_for_specific_child_loop_inv.
  - pose proof (sys_Exit_inv cur v s Hinv) as He.
    destruct (sys_Exit cur v s) as [[] s']; simpl in He; try done.
    by apply thread_exit_last_inv.
Qed.

Lemma run_calls_inv l s :
  alloc_inv s → calls_allowed s l → alloc_inv (run_calls l s).
Proof.
  revert s. induction l as [|c l IH]; intros s Hinv Hok; [done|].
  destruct Hok as [Hc Hl]. simpl. apply IH; [|done].
  by apply run_call_inv.
Qed.

(** C1, as the code has it.  Start from the table that
    [initialize_processes] builds, before or after it creates the idle
    process, and make any sequence of steps: calls of
    [acquire_PCB], calls of [release_PCB] on a slot in use, calls of Exec,
    WaitChild and Exit by any caller, each run up to its return or its
    first sleep, the exit of the last thread after Exit (the zombie leaving
    the children list or not), and the continuation of a WaitChild that
    slept waiting for a child, when it wakes up and finds the child not
    reclaimed yet.  Then [process_count] is the number of slots that are
    not FREE.  On the way [acquire_PCB] adds one to the
    counter exactly when the free list is not empty, in which case it
    returns the head, and [release_PCB] always takes one off, marks the
    slot FREE and makes it the head of the free list. *)
Theorem process_count_counts_used_slots (cur0 : nat) (s0 start : kstate)
    (calls : list kernel_call) :
  start = initialize_table s0 ∨ initialize_processes cur0 s0 = Some start →
  calls_allowed start calls →
  let s := run_calls calls start in
  process_count s = Z.of_nat (used_slots s)
  ∧ (match pcb_freelist s with
     | None => acquire_PCB s = (None, s)
     | Some p =>
         fst (acquire_PCB s) = Some p
         ∧ pstate (pcb_at s p) = FREE
         ∧ pstate (pcb_at (snd (acquire_PCB s)) p) = ALIVE
         ∧ process_count (snd (acquire_PCB s)) = process_count s + 1
     end)
  ∧ (∀ p, (p < MAX_PROC)%nat → pstate (pcb_at s p) ≠ FREE →
          pstate (pcb_at (snd (release_PCB p s)) p) = FREE
          ∧ pcb_freelist (snd (release_PCB p s)) = Some p
          ∧ process_count (snd (release_PCB p s)) = process_count s - 1).
Proof.
  intros Hstart Hok s.
  assert (Hinv0 : alloc_inv start).
  { destruct Hstart as [->|Hboot]; [apply initialize_table_inv|].
    unfold initialize_processes in Hboot.
    pose proof (sys_Exec_inv cur0 None 0 None _ (initialize_table_inv s0))
      as Hi.
    destruct (sys_Exec cur0 None 0 None (initialize_table s0)) as [pid s1].
    destruct (pid =? 0); [|done]. injection Hboot as <-. exact Hi. }
  assert (Hinv : alloc_inv s).
  { by apply run_calls_inv. }
  split_and!.
  - apply Hinv.
  - destruct (pcb_freelist s) as [p|] eqn:Hf.
    2:{ unfold acquire_PCB. by rewrite Hf. }
    destruct (alloc_inv_head s p Hinv Hf) as [Hp Hfree].
    pose proof (acquire_PCB_inv s Hinv) as Hinv'.
    pose proof Hinv as (Hlen & Hc & _).
    destruct Hinv' as (_ & Hc' & _).
    assert (Hst : pstate (pcb_at (snd (acquire_PCB s)) p) = ALIVE).
    { rewrite (acquire_PCB_pstate s p) by done.
      rewrite decide_True; [done|]. split; [done|lia]. }
    split_and!; [by rewrite acquire_PCB_fst|done|done|].
    rewrite Hc', Hc.
    rewrite (used_slots_add s (snd (acquire_PCB s)) p); [lia|done|done| |].
    + congruence.
    + intros q Hq. rewrite (acquire_PCB_pstate s p) by done.
      rewrite decide_False; [done|]. intros [? _]. congruence.
  - intros p Hp Hused.
    pose proof (release_PCB_inv p s Hinv Hp Hused) as (_ & Hc' & _).
    pose proof Hinv as (Hlen & Hc & _).
    assert (Hst : pstate (pcb_at (snd (release_PCB p s)) p) = FREE).
    { rewrite release_PCB_pstate. rewrite decide_True; [done|].
      split; [done|lia]. }
    split_and!; [done|done|].
    rewrite Hc', Hc.
    rewrite (used_slots_add (snd (release_PCB p s)) s p); [lia|done|done|done|].
    intros q Hq. rewrite release_PCB_pstate.
    rewrite decide_False; [done|]. intros [? _]. congruence.
Qed.

(** ** Exec fails exactly when the table is full *)

Lemma used_slots_all s :
  (∀ q, (q < MAX_PROC)%nat → pstate (pcb_at s q) ≠ FREE) →
  used_slots s = MAX_PROC.
Proof.
  intros H. unfold used_slots.
  rewrite (length_filter_ext _ (λ _, True)).
  - trans (length (seq 0 MAX_PROC)); [|apply length_seq]. f_equal.
    induction (seq 0 MAX_PROC) as [|a l IH]; [done|].
    rewrite filter_cons. simpl. by rewrite IH.
  - intros x Hx. apply elem_of_seq in Hx. split; [done|].
    intros _. apply H. lia.
Qed.

Lemma alloc_inv_full s :
  alloc_inv s →
  (pcb_freelist s = None ↔
   ∀ p, (p < MAX_PROC)%nat → pstate (pcb_at s p) ≠ FREE).
Proof.
  intros (Hlen & Hcount & l & Hchain & Hnd & Hmem). split.
  - intros Hf p Hp Hfree.
    assert (p ∈ l) as Hin by (by apply Hmem).
    destruct l; simpl in Hchain; [by apply elem_of_nil in Hin|].
    destruct Hchain. congruence.
  - intros Hall. destruct l as [|p l]; [done|].
    assert (p ∈ p :: l) as Hin by left.
    apply Hmem in Hin as [Hp Hfree]. by apply Hall in Hfree.
Qed.

Lemma sys_Exec_fst cur call argl args s :
  fst (sys_Exec cur call argl args s) = get_pid (pcb_freelist s).
Proof. rewrite sys_Exec_run. by destruct (pcb_freelist s). Qed.

Lemma sys_Exec_NOPROC cur call argl args s :
  fst (sys_Exec cur call argl args s) = NOPROC ↔ pcb_freelist s = None.
Proof.
  rewrite sys_Exec_fst. destruct (pcb_freelist s) as [p|]; simpl; [|done].
  split; [lia|done].
Qed.

Lemma sys_Exec_used cur call argl args s :
  alloc_inv s → pcb_freelist s ≠ None →
  used_slots (snd (sys_Exec cur call argl args s)) = S (used_slots s).
Proof.
  intros Hinv Hf. destruct (pcb_freelist s) as [np|] eqn:Hnp; [|done].
  destruct (alloc_inv_head s np Hinv Hnp) as [Hlt Hfree].
  pose proof Hinv as (Hlen & _).
  rewrite sys_Exec_run, Hnp. simpl.
  destruct (exec_blocks_frame cur np call argl args s Hnp) as [_ Hfr];
    [lia|].
  rewrite (used_slots_ext (snd (acquire_PCB s))) by (intros q; apply Hfr).
  apply (used_slots_add _ _ np); [done|done| |].
  - rewrite (acquire_PCB_pstate s np) by done.
    rewrite decide_True; [done|]. split; [done|lia].
  - intros q Hq. rewrite (acquire_PCB_pstate s np) by done.
    rewrite decide_False; [done|]. intros [? _]. congruence.
Qed.

Lemma exec_all_fills reqs : ∀ s,
  alloc_inv s →
  (used_slots s + length reqs = MAX_PROC)%nat →
  Forall (λ pid, pid ≠ NOPROC) (fst (exec_all reqs s))
  ∧ length (fst (exec_all reqs s)) = length reqs
  ∧ alloc_inv (snd (exec_all reqs s))
  ∧ used_slots (snd (exec_all reqs s)) = MAX_PROC.
Proof.
  induction reqs as [|r reqs IH]; intros s Hinv Hlen; simpl.
  { split_and!; [done|done|done|]. simpl in Hlen. lia. }
  destruct (sys_Exec (req_cur r) (req_call r) (req_argl r) (req_args r) s)
    as [pid s1] eqn:He.
  assert (Hf : pcb_freelist s ≠ None).
  { intros Hf. pose proof (proj1 (alloc_inv_full s Hinv) Hf) as Hall.
    apply used_slots_all in Hall. simpl in Hlen. lia. }
  assert (Hpid : pid ≠ NOPROC).
  { intros ->. apply Hf.
    apply (sys_Exec_NOPROC (req_cur r) (req_call r) (req_argl r)
             (req_args r)). by rewrite He. }
  assert (Hs1 : s1 = snd (sys_Exec (req_cur r) (req_call r) (req_argl r)
                            (req_args r) s)) by (by rewrite He).
  destruct (IH s1) as (H1 & H2 & H3 & H4).
  { subst s1. by apply sys_Exec_inv. }
  { subst s1. rewrite sys_Exec_used by done. simpl in Hlen. lia. }
  destruct (exec_all reqs s1) as [pids s2]. simpl in *.
  split_and!; [by constructor|by f_equal|done|done].
Qed.

(** C2.  With an empty free list [sys_Exec] returns NOPROC and changes
    nothing, whatever its arguments.  A call whose copy of the arguments
    is defined (a NULL buffer, or a length that is not negative and a
    buffer of at least that many bytes) returns NOPROC exactly when the
    free list is empty.  In a table that keeps the allocator invariant the
    free list is empty exactly when none of the MAX_PROC slots is FREE.
    And starting from the table that [initialize_processes] builds,
    MAX_PROC such calls of Exec with nothing in between all return a PID,
    after which the next call returns NOPROC and changes nothing. *)
Theorem sys_Exec_fails_iff_table_full :
  (∀ cur call argl args s,
     pcb_freelist s = None →
     sys_Exec cur call argl args s = (NOPROC, s))
  ∧ (∀ cur call argl args s,
       copy_defined s argl args →
       (fst (sys_Exec cur call argl args s) = NOPROC
        ↔ pcb_freelist s = None))
  ∧ (∀ s, alloc_inv s →
       (pcb_freelist s = None ↔
        ∀ p, (p < MAX_PROC)%nat → pstate (pcb_at s p) ≠ FREE))
  ∧ (∀ s0 reqs r,
       length reqs = MAX_PROC →
       execs_defined (initialize_table s0) reqs →
       let filled := exec_all reqs (initialize_table s0) in
       Forall (λ pid, pid ≠ NOPROC) (fst filled)
       ∧ length (fst filled) = MAX_PROC
       ∧ sys_Exec (req_cur r) (req_call r) (req_argl r) (req_args r)
           (snd filled) = (NOPROC, snd filled)).
Proof.
  split_and!.
  - intros cur call argl args s Hf. by rewrite sys_Exec_run, Hf.
  - intros cur call argl args s _. apply sys_Exec_NOPROC.
  - apply alloc_inv_full.
  - intros s0 reqs r Hlen _ filled.
    destruct (exec_all_fills reqs (initialize_table s0))
      as (H1 & H2 & H3 & H4).
    { apply initialize_table_inv. }
    { rewrite used_slots_none by apply initialize_table_pstate. lia. }
    subst filled. split_and!; [done|congruence|].
    rewrite sys_Exec_run.
    destruct (pcb_freelist (snd (exec_all reqs (initialize_table s0))))
      as [np|] eqn:Hf; [|done].
    exfalso.
    pose proof (sys_Exec_used 0%nat None 0 None _ H3) as Hu.
    rewrite Hf in Hu. specialize (Hu ltac:(done)).
    pose proof (used_slots_le
      (snd (sys_Exec 0%nat None 0 None (snd (exec_all reqs (initialize_table s0)))))).
    lia.
Qed.

(** ** The boot and the reserved PIDs *)

Lemma initialize_table_head s :
  (0 < MAX_PROC)%nat → pcb_freelist (initialize_table s) = Some 0%nat.
Proof.
  intros Hn. unfold initialize_table.
  set (s2 := with_pcb_freelist None _).
  destruct (freelist_link_fold MAX_PROC 0 s2 []) as (Hc & _).
  - subst s2. ksimpl. rewrite length_fmap, length_PT_array. lia.
  - done.
  - intros p Hp. by apply elem_of_nil in Hp.
  - cbv zeta in Hc. ksimpl.
    remember (foldr freelist_link s2 (seq 0 MAX_PROC)) as sf eqn:Hsf.
    clear Hsf. destruct MAX_PROC; [lia|].
    simpl in Hc. by destruct Hc as [? _].
Qed.

(** [initialize_processes] does not halt: the idle process gets PID 0. *)
Lemma initialize_processes_boots cur s :
  (0 < MAX_PROC)%nat →
  ∃ s', initialize_processes cur s = Some s'
        ∧ alloc_inv s'
        ∧ pstate (pcb_at s' 0) = ALIVE
        ∧ process_count s' = 1.
Proof.
  intros Hn. unfold initialize_processes.
  pose proof (initialize_table_inv s) as Hinv.
  pose proof (initialize_table_head s Hn) as Hhd.
  pose proof (sys_Exec_inv cur None 0 None _ Hinv) as Hinv'.
  pose proof (sys_Exec_used cur None 0 None _ Hinv) as Hused.
  rewrite Hhd in Hused. specialize (Hused ltac:(done)).
  rewrite (used_slots_none (initialize_table s)) in Hused
    by apply initialize_table_pstate.
  assert (He : sys_Exec cur None 0 None (initialize_table s) =
               (0, exec_blocks cur 0 None 0 None (initialize_table s))).
  { by rewrite sys_Exec_run, Hhd. }
  rewrite He in Hinv', Hused |- *. simpl in *.
  eexists. split_and!; [done|done| |].
  - destruct (exec_blocks_frame cur 0 None 0 None (initialize_table s) Hhd)
      as [_ Hfr].
    { destruct Hinv as [-> _]. done. }
    destruct (pstate (pcb_at (exec_blocks cur 0 None 0 None
                                (initialize_table s)) 0)) eqn:Hst;
      [|done|].
    + apply Hfr in Hst.
      rewrite (acquire_PCB_pstate _ 0) in Hst by done.
      rewrite decide_True in Hst; [done|].
      split; [done|]. destruct Hinv as [-> _]. done.
    + exfalso.
      assert (Hne : pstate (pcb_at (snd (acquire_PCB (initialize_table s))) 0)
                    = ALIVE).
      { rewrite (acquire_PCB_pstate _ 0) by done.
        rewrite decide_True; [done|].
        split; [done|]. destruct Hinv as [-> _]. done. }
      unfold exec_blocks in Hst.
      rewrite (exec_main_thread_field pstate) in Hst by done.
      rewrite (exec_arguments_field pstate) in Hst by done.
      rewrite (exec_inherit_field pstate) in Hst by done.
      congruence.
  - destruct Hinv' as (_ & -> & _). rewrite Hused. done.
Qed.

(** While the idle process and init hold the slots 0 and 1, every new
    process gets a PID above 1, whoever calls Exec. *)
Lemma sys_Exec_new_pid_above_init s np :
  alloc_inv s →
  pstate (pcb_at s 0) ≠ FREE → pstate (pcb_at s 1) ≠ FREE →
  pcb_freelist s = Some np → 1 < Z.of_nat np.
Proof.
  intros Hinv H0 H1 Hf.
  destruct (alloc_inv_head s np Hinv Hf) as [_ Hfree].
  destruct np as [|[|np]]; [done|done|lia].
Qed.

(** ** The table after boot *)

Lemma foldr_freelist_link_field {A} (g : PCB → A) l : ∀ s q,
  (∀ v b, g (set_parent v b) = g b) →
  g (pcb_at (foldr freelist_link s l) q) = g (pcb_at s q).
Proof.
  induction l as [|p l IH]; intros s q Hg; [done|].
  simpl. unfold freelist_link. rewrite pcb_at_with_pcb_freelist.
  rewrite (pcb_at_upd_field g) by auto. by apply IH.
Qed.

Lemma initialize_table_field {A} (g : PCB → A) s q :
  (∀ v b, g (set_parent v b) = g b) →
  (∀ b, g (initialize_PCB b) = g (initialize_PCB zero_PCB)) →
  (q < MAX_PROC)%nat →
  g (pcb_at (initialize_table s) q) = g (initialize_PCB zero_PCB).
Proof.
  intros Hg Hi Hq. unfold initialize_table. cbv zeta.
  rewrite pcb_at_with_process_count.
  rewrite foldr_freelist_link_field by done.
  rewrite pcb_at_with_pcb_freelist. unfold pcb_at. ksimpl.
  rewrite list_lookup_total_alt, list_lookup_fmap.
  destruct (lookup_lt_is_Some_2 (PT_array s) q) as [b ->].
  { by rewrite length_PT_array. }
  apply Hi.
Qed.

Lemma initialize_table_chain s :
  free_chain (PT (initialize_table s)) (pcb_freelist (initialize_table s))
    (seq 0 MAX_PROC).
Proof.
  unfold initialize_table.
  set (s2 := with_pcb_freelist None _).
  destruct (freelist_link_fold MAX_PROC 0 s2 []) as (Hc & _).
  { subst s2. ksimpl. rewrite length_fmap, length_PT_array. lia. }
  { done. }
  { intros p Hp. by apply elem_of_nil in Hp. }
  cbv zeta in Hc. rewrite app_nil_r in Hc. ksimpl. done.
Qed.

(** [sys_Exec] takes the head of the free list and leaves the rest of the
    list linked as it was. *)
Lemma sys_Exec_pops cur call len buf s p l :
  free_chain (PT s) (pcb_freelist s) (p :: l) →
  p ∉ l →
  fst (sys_Exec cur call len buf s) = Z.of_nat p
  ∧ free_chain (PT (snd (sys_Exec cur call len buf s)))
      (pcb_freelist (snd (sys_Exec cur call len buf s))) l.
Proof.
  intros (Hf & Hp & Hchain) Hnotin. rewrite sys_Exec_run, Hf. cbn [fst snd].
  split; [done|].
  destruct (exec_blocks_frame cur p call len buf s Hf Hp)
    as [(K1 & K2 & _) _].
  rewrite K2.
  assert (Ha : pcb_freelist (snd (acquire_PCB s)) = parent (PT s !!! p)).
  { unfold acquire_PCB. rewrite Hf. ksimpl.
    by rewrite (pcb_at_upd_field parent). }
  rewrite Ha. eapply free_chain_ext; [| |exact Hchain].
  - by rewrite K1, acquire_PCB_length.
  - intros q Hq. assert (q ≠ p) by (intros ->; done).
    fold (pcb_at (exec_blocks cur p call len buf s) q). fold (pcb_at s q).
    unfold exec_blocks.
    rewrite (exec_main_thread_field parent) by done.
    rewrite (exec_arguments_field parent) by done.
    rewrite exec_inherit_parent_ne by done.
    by apply (acquire_PCB_field parent).
Qed.

Lemma exec_all_pops reqs : ∀ s l,
  free_chain (PT s) (pcb_freelist s) l →
  NoDup l →
  (length reqs ≤ length l)%nat →
  fst (exec_all reqs s) = Z.of_nat <$> take (length reqs) l.
Proof.
  induction reqs as [|r reqs IH]; intros s l Hchain Hnd Hlen; [done|].
  destruct l as [|p l]; [simpl in Hlen; lia|].
  apply NoDup_cons in Hnd as [Hnotin Hnd].
  destruct (sys_Exec_pops (req_cur r) (req_call r) (req_argl r) (req_args r)
              s p l Hchain Hnotin) as [Hpid Hrest].
  simpl.
  destruct (sys_Exec (req_cur r) (req_call r) (req_argl r) (req_args r) s)
    as [pid s1]. cbn [fst snd] in Hpid, Hrest.
  specialize (IH s1 l Hrest Hnd ltac:(simpl in Hlen; lia)).
  destruct (exec_all reqs s1) as [pids s2]. cbn [fst] in *.
  by rewrite Hpid, IH.
Qed.

Lemma exec_inherit_orphan cur np s :
  Z.of_nat np ≤ 1 →
  snd (exec_inherit cur np s) = upd_pcb np (set_parent None) s.
Proof.
  intros Hnp. unfold exec_inherit.
  replace (get_pid (Some np) <=? 1) with true
    by (symmetry; unfold get_pid; lia).
  by krun.
Qed.

Lemma tree_inv_empty s :
  (∀ p, (p < length (PT s))%nat →
        children_list (pcb_at s p) = [] ∧ exited_list (pcb_at s p) = []) →
  tree_inv s.
Proof.
  intros He p Hp. destruct (He p Hp) as [-> ->].
  split_and!; [constructor|constructor| |];
    intros c Hc; by apply elem_of_nil in Hc.
Qed.

Lemma initialize_processes_table (cur : nat) (s : kstate) :
  (0 < MAX_PROC)%nat →
  ∃ s', initialize_processes cur s = Some s'
    ∧ alloc_inv s' ∧ tree_inv s'
    ∧ process_count s' = 1
    ∧ pstate (pcb_at s' 0) = ALIVE
    ∧ parent (pcb_at s' 0) = None
    ∧ main_task (pcb_at s' 0) = None
    ∧ pcb_freelist s' = (if decide (MAX_PROC = 1%nat) then None
                         else Some 1%nat)
    ∧ ∀ q, (q < MAX_PROC)%nat →
        (q ≠ 0%nat → pstate (pcb_at s' q) = FREE)
        ∧ FIDT (pcb_at s' q) = replicate MAX_FILEID None
        ∧ children_list (pcb_at s' q) = []
        ∧ exited_list (pcb_at s' q) = []
        ∧ thread_count (pcb_at s' q) = 0
        ∧ argl (pcb_at s' q) = 0
        ∧ args (pcb_at s' q) = None.
Proof.
  intros Hn.
  destruct (initialize_processes_boots cur s Hn)
    as (s' & Hs' & Hinv & Hal & Hcount).
  exists s'. split; [done|].
  pose proof (initialize_table_head s Hn) as Hhd.
  pose proof (initialize_table_chain s) as Hchain.
  assert (Hlen0 : length (PT (initialize_table s)) = MAX_PROC).
  { by destruct (initialize_table_inv s) as [? _]. }
  assert (Hseq : seq 0 MAX_PROC = 0%nat :: seq 1 (MAX_PROC - 1)).
  { destruct MAX_PROC; [lia|]. simpl. by rewrite Nat.sub_0_r. }
  rewrite Hseq in Hchain.
  destruct (sys_Exec_pops cur None 0 None (initialize_table s) 0
              (seq 1 (MAX_PROC - 1)) Hchain) as [_ Hrest].
  { rewrite elem_of_seq. lia. }
  assert (Es : s' = exec_blocks cur 0 None 0 None (initialize_table s)).
  { unfold initialize_processes in Hs'.
    rewrite sys_Exec_run, Hhd in Hs'. simpl in Hs'. congruence. }
  rewrite sys_Exec_run, Hhd in Hrest. cbn [snd] in Hrest.
  rewrite <- Es in Hrest.
  assert (Hfield : ∀ {A} (g : PCB → A) q,
            (∀ v b, g (set_parent v b) = g b) →
            (∀ v b, g (set_pstate v b) = g b) →
            (∀ v b, g (set_main_task v b) = g b) →
            (∀ v b, g (set_argl v b) = g b) →
            (∀ v b, g (set_args v b) = g b) →
            (∀ v b, g (set_ptcb_list v b) = g b) →
            (∀ v b, g (set_thread_count v b) = g b) →
            (∀ v b, g (set_main_thread v b) = g b) →
            (∀ b, g (initialize_PCB b) = g (initialize_PCB zero_PCB)) →
            (q < MAX_PROC)%nat →
            g (pcb_at s' q) = g (initialize_PCB zero_PCB)).
  { intros A g q G1 G2 G3 G4 G5 G6 G7 G8 G9 Hq. rewrite Es.
    rewrite exec_blocks_field_np by done.
    rewrite exec_inherit_orphan by lia.
    rewrite (pcb_at_upd_field g) by auto.
    rewrite (acquire_PCB_field g) by done.
    by apply initialize_table_field. }
  assert (Hargs : ∀ q, (q < MAX_PROC)%nat →
            argl (pcb_at s' q) = 0 ∧ args (pcb_at s' q) = None
            ∧ (q = 0%nat → main_task (pcb_at s' q) = None)).
  { intros q Hq. rewrite Es. unfold exec_blocks.
    rewrite (exec_main_thread_field argl),
      (exec_main_thread_field args),
      (exec_main_thread_field main_task) by done.
    set (s1 := snd (exec_inherit cur 0 (snd (acquire_PCB _)))).
    assert (Hl1 : (0 < length (PT s1))%nat).
    { subst s1. rewrite exec_inherit_length, acquire_PCB_length. lia. }
    destruct (decide (q = 0%nat)) as [->|Hq0].
    - by destruct (exec_arguments_np 0 None 0 None s1 Hl1)
        as (-> & -> & -> & _).
    - rewrite exec_arguments_other by done. subst s1.
      rewrite (exec_inherit_field argl), (exec_inherit_field args)
        by done.
      rewrite (acquire_PCB_field argl), (acquire_PCB_field args) by done.
      by rewrite (initialize_table_field argl),
        (initialize_table_field args). }
  split_and!; [done| |done|done| | | |].
  + apply tree_inv_empty. intros p Hp.
    destruct Hinv as [Hl _]. rewrite Hl in Hp.
    by rewrite (Hfield _ children_list), (Hfield _ exited_list).
  + rewrite Es. unfold exec_blocks.
    rewrite (exec_main_thread_field parent),
      (exec_arguments_field parent) by done.
    rewrite exec_inherit_orphan by lia.
    rewrite pcb_at_upd_eq; [done|].
    rewrite acquire_PCB_length. lia.
  + by apply (Hargs 0%nat Hn).
  + destruct (decide (MAX_PROC = 1%nat)) as [E|E].
    * rewrite E in Hrest. exact Hrest.
    * destruct (MAX_PROC - 1)%nat as [|m] eqn:Em; [lia|].
      simpl in Hrest. by destruct Hrest as [? _].
  + intros q Hq. split_and!.
    * intros Hq0. destruct Hinv as (_ & _ & l & Hl & Hnd & Hmem).
      apply Hmem.
      assert (Hll : l = seq 1 (MAX_PROC - 1)).
      { clear - Hl Hrest. revert Hl Hrest.
        generalize (pcb_freelist s') (seq 1 (MAX_PROC - 1)).
        induction l as [|x l IH]; intros hd l' H1 H2.
        - destruct l'; [done|]. simpl in *. destruct H2. congruence.
        - destruct l' as [|y l']; simpl in *.
          + destruct H1. congruence.
          + destruct H1 as (E1 & _ & H1), H2 as (E2 & _ & H2).
            assert (x = y) as -> by congruence.
            f_equal. by eapply IH. }
      rewrite Hll, elem_of_seq. lia.
    * by rewrite (Hfield _ FIDT).
    * by rewrite (Hfield _ children_list).
    * by rewrite (Hfield _ exited_list).
    * rewrite Es. unfold exec_blocks, exec_main_thread, ret.
      cbn [snd].
      rewrite (exec_arguments_field thread_count) by done.
      rewrite (exec_inherit_field thread_count) by done.
      rewrite (acquire_PCB_field thread_count) by done.
      by rewrite (initialize_table_field thread_count).
    * by destruct (Hargs q Hq) as (? & _).
    * by destruct (Hargs q Hq) as (_ & ? & _).
Qed.

(** X2.  [initialize_processes] on a table with at least one slot does not halt.
    It leaves the idle process ALIVE in slot 0, without parent and without
    entry point, and every other slot FREE; one process is counted; the
    free list starts at slot 1; no slot holds a stream, a child, an exited
    child, a thread or arguments; and the allocator and the process tree
    are consistent.  On a table without slots it halts the system. *)
Theorem initialize_processes_starts_idle (cur : nat) (s : kstate) :
  ((0 < MAX_PROC)%nat →
   ∃ s', initialize_processes cur s = Some s'
     ∧ alloc_inv s' ∧ tree_inv s'
     ∧ process_count s' = 1
     ∧ pstate (pcb_at s' 0) = ALIVE
     ∧ parent (pcb_at s' 0) = None
     ∧ main_task (pcb_at s' 0) = None
     ∧ pcb_freelist s' = (if decide (MAX_PROC = 1%nat) then None
                          else Some 1%nat)
     ∧ ∀ q, (q < MAX_PROC)%nat →
         (q ≠ 0%nat → pstate (pcb_at s' q) = FREE)
         ∧ FIDT (pcb_at s' q) = replicate MAX_FILEID None
         ∧ children_list (pcb_at s' q) = []
         ∧ exited_list (pcb_at s' q) = []
         ∧ thread_count (pcb_at s' q) = 0
         ∧ argl (pcb_at s' q) = 0
         ∧ args (pcb_at s' q) = None)
  ∧ (MAX_PROC = 0%nat → initialize_processes cur s = None).
Proof.
  split.
  - apply initialize_processes_table.
  - intros Hn. unfold initialize_processes.
    pose proof (initialize_table_chain s) as Hchain.
    rewrite Hn in Hchain. cbn [seq free_chain] in Hchain.
    rewrite sys_Exec_run, Hchain.
    replace (NOPROC =? 0) with false by (symmetry; lia). done.
Qed.

(** X3.  The processes created after boot get the PIDs 1, 2, 3, ... in this
    order, as long as the table has room, no slot is reclaimed in between
    and the copy of the arguments is defined at each call: the first
    process created is init, the process with PID 1. *)
Theorem exec_all_after_boot_pids_ascend (cur : nat) (s s0 : kstate)
    (reqs : list exec_request) :
  initialize_processes cur s = Some s0 →
  (S (length reqs) ≤ MAX_PROC)%nat →
  execs_defined s0 reqs →
  fst (exec_all reqs s0) = Z.of_nat <$> seq 1 (length reqs).
Proof.
  intros Hs0 Hlen _.
  pose proof (initialize_table_head s ltac:(lia)) as Hhd.
  pose proof (initialize_table_chain s) as Hchain.
  assert (Hseq : seq 0 MAX_PROC = 0%nat :: seq 1 (MAX_PROC - 1)).
  { destruct MAX_PROC; [lia|]. simpl. by rewrite Nat.sub_0_r. }
  rewrite Hseq in Hchain.
  destruct (sys_Exec_pops cur None 0 None (initialize_table s) 0
              (seq 1 (MAX_PROC - 1)) Hchain) as [_ Hrest].
  { rewrite elem_of_seq. lia. }
  assert (Es : s0 = snd (sys_Exec cur None 0 None (initialize_table s))).
  { unfold initialize_processes in Hs0.
    destruct (sys_Exec cur None 0 None (initialize_table s)) as [pid s1].
    destruct (pid =? 0); [|done]. simpl. congruence. }
  rewrite <- Es in Hrest.
  rewrite (exec_all_pops reqs s0 (seq 1 (MAX_PROC - 1)) Hrest).
  - f_equal. rewrite take_seq. f_equal. lia.
  - apply NoDup_seq.
  - rewrite length_seq. lia.
Qed.

(** ** The process tree *)

Lemma tree_inv_ext s s' :
  length (PT s') = length (PT s) →
  (∀ q, children_list (pcb_at s' q) = children_list (pcb_at s q)) →
  (∀ q, exited_list (pcb_at s' q) = exited_list (pcb_at s q)) →
  (∀ q, pstate (pcb_at s' q) = pstate (pcb_at s q)) →
  (∀ q, parent (pcb_at s' q) = parent (pcb_at s q)) →
  tree_inv s → tree_inv s'.
Proof.
  intros Hl Hc He Hs Hp Hinv p Hlt. rewrite Hl in Hlt.
  destruct (Hinv p Hlt) as (N1 & N2 & M1 & M2).
  rewrite Hc, He. split_and!; [done|done| |].
  - intros c Hin. rewrite Hs, Hp. by apply M1.
  - intros c Hin. rewrite Hs, Hp. by apply M2.
Qed.

Lemma tree_inv_cleanup_zombie c status s :
  tree_inv s → tree_inv (snd (cleanup_zombie c status s)).
Proof.
  intros Hinv p Hlt. rewrite cleanup_zombie_length in Hlt.
  destruct (Hinv p Hlt) as (N1 & N2 & M1 & M2).
  rewrite cleanup_zombie_children, cleanup_zombie_exited by done.
  unfold rlist_unlink. split_and!.
  - by apply NoDup_filter.
  - by apply NoDup_filter.
  - intros c' [Hne Hin]%list_elem_of_filter.
    rewrite (cleanup_zombie_other pstate), (cleanup_zombie_other parent)
      by done.
    by apply M1.
  - intros c' [Hne Hin]%list_elem_of_filter.
    rewrite (cleanup_zombie_other pstate), (cleanup_zombie_other parent)
      by done.
    by apply M2.
Qed.

(** What [sys_WaitChild] does to the table: nothing, or the reclamation of
    one slot. *)
Lemma sys_WaitChild_state cur cpid status s :
  snd (sys_WaitChild cur cpid status s) = s
  ∨ ∃ c, snd (sys_WaitChild cur cpid status s)
         = snd (cleanup_zombie c status s).
Proof.
  unfold sys_WaitChild. case_decide.
  - unfold wait_for_specific_child.
    destruct (_ || _); [by left|].
    destruct (get_pcb s cpid) as [c|]; [|by left].
    case_decide; [by left|].
    unfold wait_for_specific_child_loop. case_decide; [by left|].
    right. exists c. by destruct (cleanup_zombie c status s).
  - unfold wait_for_any_child.
    destruct (is_rlist_empty _); [by left|].
    destruct (exited_list (pcb_at s cur)) as [|c l]; [by left|].
    case_decide; [|by left].
    right. exists c. by destruct (cleanup_zombie c status s).
Qed.

Lemma tree_inv_sys_WaitChild cur cpid status s :
  tree_inv s → tree_inv (snd (sys_WaitChild cur cpid status s)).
Proof.
  intros Hinv.
  destruct (sys_WaitChild_state cur cpid status s) as [->|(c & ->)];
    [done|by apply tree_inv_cleanup_zombie].
Qed.

(** The continuation of a sleeping [wait_for_specific_child] keeps the tree
    consistent. *)
Lemma tree_inv_wait_for_specific_child_loop c cpid status s :
  tree_inv s → tree_inv (snd (wait_for_specific_child_loop c cpid status s)).
Proof.
  intros Htree. unfold wait_for_specific_child_loop. case_decide; [done|].
  pose proof (tree_inv_cleanup_zombie c status s Htree) as H1.
  by destruct (cleanup_zombie c status s).
Qed.

Lemma tree_inv_sys_Exit_drain fuel cur v : ∀ s,
  tree_inv s → tree_inv (snd (sys_Exit_drain fuel cur v s)).
Proof.
  induction fuel as [|fuel IH]; intros s Hinv; cbn [sys_Exit_drain];
    pose proof (tree_inv_sys_WaitChild cur NOPROC false s Hinv) as Hw;
    destruct (sys_WaitChild cur NOPROC false s) as [[|pid st|] s'];
    cbn [snd] in *; try done; case_decide; try done.
  by apply IH.
Qed.

Lemma tree_inv_sys_Exit cur v s :
  tree_inv s → tree_inv (snd (sys_Exit cur v s)).
Proof.
  intros Hinv. unfold sys_Exit.
  set (s1 := if decide (v ≠ 0) then upd_pcb cur (set_exitval v) s else s).
  assert (H1 : tree_inv s1).
  { subst s1. case_decide; [|done].
    eapply tree_inv_ext; [| | | | |exact Hinv].
    - apply length_PT_upd.
    - intros q. by apply (pcb_at_upd_field children_list).
    - intros q. by apply (pcb_at_upd_field exited_list).
    - intros q. by apply (pcb_at_upd_field pstate).
    - intros q. by apply (pcb_at_upd_field parent). }
  destruct (get_pid (Some cur) =? 1); [|done].
  by apply tree_inv_sys_Exit_drain.
Qed.

Lemma exec_inherit_children cur np s q :
  children_list (pcb_at (snd (exec_inherit cur np s)) q) =
    if decide (q = cur ∧ (cur < length (PT s))%nat ∧ 1 < Z.of_nat np)
    then np :: children_list (pcb_at s q)
    else children_list (pcb_at s q).
Proof.
  unfold exec_inherit. unfold get_pid.
  destruct (Z.of_nat np <=? 1) eqn:E; krun.
  - rewrite (pcb_at_upd_field children_list) by done.
    rewrite decide_False; [done|lia].
  - rewrite (for_each_inherit_field children_list) by done.
    rewrite pcb_at_upd. ksimpl.
    destruct (decide (cur = q ∧ (cur < length (PT s))%nat)) as [[-> Hl]|Hn].
    + rewrite decide_True by (split_and!; (done || lia)).
      cbn. by rewrite (pcb_at_upd_field children_list).
    + rewrite decide_False by (intros (-> & ? & _); by apply Hn).
      by rewrite (pcb_at_upd_field children_list).
Qed.

Lemma tree_inv_sys_Exec cur call len buf s :
  alloc_inv s → tree_inv s →
  pstate (pcb_at s cur) ≠ FREE →
  tree_inv (snd (sys_Exec cur call len buf s)).
Proof.
  intros Hinv Htree Hcur. rewrite sys_Exec_run.
  destruct (pcb_freelist s) as [np|] eqn:Hf; [|done]. cbn [snd].
  destruct (alloc_inv_head s np Hinv Hf) as [Hnp Hfree].
  assert (Hlen : length (PT s) = MAX_PROC) by (by destruct Hinv).
  assert (Hne : cur ≠ np) by (intros ->; done).
  set (s' := exec_blocks cur np call len buf s).
  assert (Hl' : length (PT s') = length (PT s)).
  { subst s'. unfold exec_blocks.
    destruct (exec_main_thread_keeps np call len buf
                (snd (exec_arguments np call len buf
                   (snd (exec_inherit cur np (snd (acquire_PCB s)))))))
      as ((-> & _) & _).
    by rewrite exec_arguments_length, exec_inherit_length,
      acquire_PCB_length. }
  assert (Hch : ∀ q, children_list (pcb_at s' q) =
            if decide (q = cur ∧ (cur < length (PT s))%nat
                       ∧ 1 < Z.of_nat np)
            then np :: children_list (pcb_at s q)
            else children_list (pcb_at s q)).
  { intros q. subst s'. rewrite exec_blocks_field_np by done.
    rewrite exec_inherit_children, acquire_PCB_length.
    by rewrite (acquire_PCB_field children_list). }
  assert (Hex : ∀ q, exited_list (pcb_at s' q) = exited_list (pcb_at s q)).
  { intros q. subst s'. rewrite exec_blocks_field_np by done.
    rewrite (exec_inherit_field exited_list) by done.
    by rewrite (acquire_PCB_field exited_list). }
  assert (Hst : ∀ q, q ≠ np → pstate (pcb_at s' q) = pstate (pcb_at s q)).
  { intros q Hq. subst s'. rewrite exec_blocks_field_np by done.
    rewrite (exec_inherit_field pstate) by done.
    rewrite (acquire_PCB_pstate s np) by done.
    rewrite decide_False; [done|]. intros [-> _]. done. }
  assert (Hpa : ∀ q, q ≠ np → parent (pcb_at s' q) = parent (pcb_at s q)).
  { intros q Hq. subst s'. rewrite exec_blocks_field_np by done.
    rewrite exec_inherit_parent_ne by done.
    by rewrite (acquire_PCB_field parent). }
  assert (Hnew : pstate (pcb_at s' np) = ALIVE
                 ∧ (1 < Z.of_nat np → parent (pcb_at s' np) = Some cur)).
  { subst s'. rewrite !exec_blocks_field_np by done. split.
    - rewrite (exec_inherit_field pstate) by done.
      rewrite (acquire_PCB_pstate s np) by done.
      rewrite decide_True; [done|]. split; [done|lia].
    - intros H1. rewrite exec_inherit_parent
        by (rewrite acquire_PCB_length; lia).
      unfold get_pid.
      replace (Z.of_nat np <=? 1) with false by (symmetry; lia). done. }
  intros p Hp. rewrite Hl' in Hp.
  destruct (Htree p Hp) as (N1 & N2 & M1 & M2).
  assert (Hold1 : ∀ c, c ∈ children_list (pcb_at s p) →
            pstate (pcb_at s' c) ≠ FREE ∧ parent (pcb_at s' c) = Some p).
  { intros c Hc. destruct (M1 c Hc) as [Hu Hpar].
    assert (c ≠ np) by (intros ->; done).
    by rewrite Hst, Hpa. }
  assert (Hold2 : ∀ c, c ∈ exited_list (pcb_at s p) →
            pstate (pcb_at s' c) = ZOMBIE ∧ parent (pcb_at s' c) = Some p).
  { intros c Hc. destruct (M2 c Hc) as [Hz Hpar].
    assert (c ≠ np) by (intros ->; congruence).
    by rewrite Hst, Hpa. }
  rewrite Hch, Hex.
  destruct (decide (p = cur ∧ (cur < length (PT s))%nat ∧ 1 < Z.of_nat np))
    as [Hd|Hd]; split_and!; try done.
  - apply NoDup_cons. split; [|exact N1].
    intros Hin. destruct (M1 np Hin) as [Hu _]. by apply Hu.
  - intros c Hc.
    apply elem_of_cons in Hc as [->|Hc]; [|by apply Hold1].
    destruct Hd as (-> & _ & H1). destruct Hnew as [-> Hpar].
    split; [done|by apply Hpar].
Qed.

(** X14.  The system calls keep the allocator and the process tree
    consistent, each run from its first line up to its return or its first
    sleep: [sys_Exec] called by a process whose slot is in use (so that
    the slot it takes is FREE and is in no list), [sys_WaitChild] and
    [sys_Exit].  So does the continuation of a [sys_WaitChild] that slept
    waiting for the child [c], when it wakes up and [c] has not been
    reclaimed in the meantime; the code does not check that, and on a
    child that has been reclaimed the continuation keeps the tree
    consistent but not the allocator. *)
Theorem system_calls_keep_tree_consistent (s : kstate) :
  alloc_inv s → tree_inv s →
  (∀ cur call len buf,
     pstate (pcb_at s cur) ≠ FREE →
     alloc_inv (snd (sys_Exec cur call len buf s))
     ∧ tree_inv (snd (sys_Exec cur call len buf s)))
  ∧ (∀ cur cpid status,
       alloc_inv (snd (sys_WaitChild cur cpid status s))
       ∧ tree_inv (snd (sys_WaitChild cur cpid status s)))
  ∧ (∀ c cpid status,
       (pstate (pcb_at s c) ≠ FREE →
        alloc_inv (snd (wait_for_specific_child_loop c cpid status s)))
       ∧ tree_inv (snd (wait_for_specific_child_loop c cpid status s)))
  ∧ (∀ cur v,
       alloc_inv (snd (sys_Exit cur v s))
       ∧ tree_inv (snd (sys_Exit cur v s))).
Proof.
  intros Hinv Htree. split_and!.
  - intros cur call len buf Hcur. split;
      [by apply sys_Exec_inv|by apply tree_inv_sys_Exec].
  - intros cur cpid status. split;
      [by apply sys_WaitChild_inv|by apply tree_inv_sys_WaitChild].
  - intros c cpid status. split;
      [intros Hc; by apply wait_for_specific_child_loop_inv
      |by apply tree_inv_wait_for_specific_child_loop].
  - intros cur v. split; [by apply sys_Exit_inv|by apply tree_inv_sys_Exit].
Qed.

Lemma wait_for_any_child_no_assert cur status s :
  tree_inv s → fst (wait_for_any_child cur status s) ≠ WAssertFailed.
Proof.
  intros Htree. unfold wait_for_any_child.
  destruct (is_rlist_empty _); [done|].
  destruct (exited_list (pcb_at s cur)) as [|c l] eqn:Hex; [done|].
  assert (Hcur : (cur < length (PT s))%nat).
  { destruct (decide (cur < length (PT s))%nat) as [|Hge]; [done|].
    rewrite pcb_at_out_of_range in Hex by lia. done. }
  destruct (Htree cur Hcur) as (_ & _ & _ & M2).
  destruct (M2 c) as [Hz _]; [rewrite Hex; by left|].
  rewrite decide_True by done. by destruct (cleanup_zombie c status s).
Qed.

Lemma sys_WaitChild_no_assert cur cpid status s :
  tree_inv s → fst (sys_WaitChild cur cpid status s) ≠ WAssertFailed.
Proof.
  intros Htree. unfold sys_WaitChild. case_decide.
  - unfold wait_for_specific_child.
    destruct (_ || _); [done|].
    destruct (get_pcb s cpid) as [c|]; [|done].
    case_decide; [done|].
    unfold wait_for_specific_child_loop. case_decide; [done|].
    by destruct (cleanup_zombie c status s).
  - by apply wait_for_any_child_no_assert.
Qed.

Lemma sys_Exit_drain_no_assert fuel cur v : ∀ s,
  tree_inv s → fst (sys_Exit_drain fuel cur v s) ≠ ExitAssertFailed.
Proof.
  induction fuel as [|fuel IH]; intros s Hinv; cbn [sys_Exit_drain];
    pose proof (tree_inv_sys_WaitChild cur NOPROC false s Hinv) as Hw;
    pose proof (sys_WaitChild_no_assert cur NOPROC false s Hinv) as Hn;
    destruct (sys_WaitChild cur NOPROC false s) as [[|pid st|] s'];
    cbn [fst snd] in *; try done; case_decide; try done.
  by apply IH.
Qed.

(** X15.  On a consistent process tree the assertion of [wait_for_any_child],
    that the first exited child is a ZOMBIE, never fails: neither
    [sys_WaitChild] nor the loop of [sys_Exit] stops on it. *)
Theorem wait_assertion_never_fails (s : kstate) (cur : nat) (cpid : Z)
    (status : bool) (v : Z) :
  tree_inv s →
  fst (sys_WaitChild cur cpid status s) ≠ WAssertFailed
  ∧ fst (sys_Exit cur v s) ≠ ExitAssertFailed.
Proof.
  intros Htree. split.
  - by apply sys_WaitChild_no_assert.
  - unfold sys_Exit.
    set (s1 := if decide (v ≠ 0) then upd_pcb cur (set_exitval v) s else s).
    assert (H1 : tree_inv s1).
    { subst s1. case_decide; [|done].
      eapply tree_inv_ext; [| | | | |exact Htree].
      - apply length_PT_upd.
      - intros q. by apply (pcb_at_upd_field children_list).
      - intros q. by apply (pcb_at_upd_field exited_list).
      - intros q. by apply (pcb_at_upd_field pstate).
      - intros q. by apply (pcb_at_upd_field parent). }
    destruct (get_pid (Some cur) =? 1); [|done].
    by apply sys_Exit_drain_no_assert.
Qed.

(** ** A new PID is not in use *)

(** X18.  On a table whose allocator is consistent, the PID that a
    successful [sys_Exec] returns is a PID of the table that no process
    had, neither an ALIVE one nor a ZOMBIE; after the call it names the new
    process, and every other slot is in the state it was in. *)
Theorem sys_Exec_pid_is_fresh (cur : nat) (call : option nat) (len : Z)
    (buf : option nat) (s : kstate) :
  alloc_inv s →
  fst (sys_Exec cur call len buf s) ≠ NOPROC →
  let pid := fst (sys_Exec cur call len buf s) in
  let s' := snd (sys_Exec cur call len buf s) in
  0 ≤ pid < Z.of_nat MAX_PROC
  ∧ get_pcb s pid = None
  ∧ get_pcb s' pid = Some (Z.to_nat pid)
  ∧ ∀ q, q ≠ Z.to_nat pid → pstate (pcb_at s' q) = pstate (pcb_at s q).
Proof.
  intros Hinv Hpid pid s'. subst pid s'. revert Hpid. rewrite sys_Exec_run.
  destruct (pcb_freelist s) as [np|] eqn:Hf; [|done]. cbn [fst snd].
  intros _. destruct (alloc_inv_head s np Hinv Hf) as [Hnp Hfree].
  assert (Hlen : length (PT s) = MAX_PROC) by (by destruct Hinv).
  destruct (exec_blocks_new_slot cur np call len buf s Hf) as [Hal _];
    [lia|].
  unfold get_pcb. rewrite Nat2Z.id, Hal, Hfree.
  rewrite decide_True by done. rewrite decide_False by done.
  split; [lia|]. split_and!; [done|done|].
  intros q Hq. rewrite exec_blocks_field_np by done.
  rewrite (exec_inherit_field pstate) by done.
  rewrite (acquire_PCB_pstate s np) by done.
  rewrite decide_False; [done|]. intros [-> _]. done.
Qed.

(** ** The states a running system reaches *)

Lemma tree_inv_acquire_PCB s :
  alloc_inv s → tree_inv s → tree_inv (snd (acquire_PCB s)).
Proof.
  intros Hinv Htree.
  destruct (pcb_freelist s) as [np|] eqn:Hf.
  2:{ unfold acquire_PCB. by rewrite Hf. }
  destruct (alloc_inv_head s np Hinv Hf) as [Hnp Hfree].
  intros p Hp. rewrite acquire_PCB_length in Hp.
  destruct (Htree p Hp) as (N1 & N2 & M1 & M2).
  rewrite (acquire_PCB_field children_list),
    (acquire_PCB_field exited_list) by done.
  split_and!; [done|done| |]; intros c Hc;
    rewrite (acquire_PCB_field parent) by done;
    rewrite (acquire_PCB_pstate s np) by done.
  - destruct (M1 c Hc) as [Hu Hpar].
    destruct (decide (np = c ∧ (np < length (PT s))%nat)); done.
  - destruct (M2 c Hc) as [Hz Hpar].
    rewrite decide_False; [done|]. intros [-> _]. congruence.
Qed.

Lemma tree_inv_set_zombie cur s :
  tree_inv s → tree_inv (upd_pcb cur (set_pstate ZOMBIE) s).
Proof.
  intros Htree p Hp. rewrite length_PT_upd in Hp.
  destruct (Htree p Hp) as (N1 & N2 & M1 & M2).
  rewrite (pcb_at_upd_field children_list),
    (pcb_at_upd_field exited_list) by done.
  split_and!; [done|done| |]; intros c Hc;
    rewrite (pcb_at_upd_field parent) by done; rewrite pcb_at_upd;
    destruct (decide (cur = c ∧ (cur < length (PT s))%nat)) as [[-> _]|_].
  - split; [done|by apply M1].
  - by apply M1.
  - split; [done|by apply M2].
  - by apply M2.
Qed.

(** The exit step of the design document keeps the tree consistent,
    whether the zombie leaves the children list or not. *)
Lemma tree_inv_thread_exit_last relocate cur s :
  tree_inv s → tree_inv (snd (thread_exit_last relocate cur s)).
Proof.
  intros Htree. unfold thread_exit_last. case_decide as Hal; [|done].
  pose proof (tree_inv_set_zombie cur s Htree) as H1.
  set (s1 := upd_pcb cur (set_pstate ZOMBIE) s) in *. cbv zeta.
  destruct (parent (pcb_at s1 cur)) as [pp|] eqn:Hpar; [|done]. cbn [snd].
  assert (Hcur : (cur < length (PT s))%nat).
  { destruct (decide (cur < length (PT s))%nat) as [|Hge]; [done|].
    rewrite pcb_at_out_of_range in Hal by lia. done. }
  assert (Hz : pstate (pcb_at s1 cur) = ZOMBIE).
  { subst s1. by rewrite pcb_at_upd_eq. }
  set (f := λ b : PCB,
         set_exited_list (rlist_push_back (exited_list b) cur)
           (if relocate
            then set_children_list (rlist_unlink cur (children_list b)) b
            else b)).
  intros p Hp. rewrite length_PT_upd in Hp.
  destruct (H1 p Hp) as (N1 & N2 & M1 & M2).
  assert (Hst : ∀ c,
            pstate (pcb_at (upd_pcb pp f s1) c) = pstate (pcb_at s1 c)
            ∧ parent (pcb_at (upd_pcb pp f s1) c) = parent (pcb_at s1 c)).
  { intros c.
    rewrite (pcb_at_upd_field pstate), (pcb_at_upd_field parent);
      [done| |]; intros b; subst f; by destruct relocate. }
  assert (Hnew : cur ∉ exited_list (pcb_at s1 p)).
  { intros Hc.
    assert (Hin : cur ∈ exited_list (pcb_at s p)).
    { subst s1. by rewrite (pcb_at_upd_field exited_list) in Hc. }
    destruct (Htree p) as (_ & _ & _ & M2').
    { subst s1. by rewrite length_PT_upd in Hp. }
    destruct (M2' cur Hin) as [Hz' _]. congruence. }
  rewrite pcb_at_upd.
  destruct (decide (pp = p ∧ (pp < length (PT s1))%nat)) as [[-> _]|_].
  - assert (Hch : NoDup (children_list (f (pcb_at s1 p)))
                  ∧ ∀ c, c ∈ children_list (f (pcb_at s1 p)) →
                         c ∈ children_list (pcb_at s1 p)).
    { subst f. destruct relocate; cbn; [|done].
      unfold rlist_unlink. split; [by apply NoDup_filter|].
      by intros c [_ Hc]%list_elem_of_filter. }
    assert (Hexl : exited_list (f (pcb_at s1 p))
                   = exited_list (pcb_at s1 p) ++ [cur]).
    { subst f. by destruct relocate. }
    destruct Hch as [Hch1 Hch2]. rewrite Hexl. split_and!.
    + done.
    + apply NoDup_app. split_and!; [done| |apply NoDup_singleton].
      intros c Hc ->%list_elem_of_singleton. done.
    + intros c Hc. destruct (Hst c) as [-> ->]. by apply M1, Hch2.
    + intros c Hc. destruct (Hst c) as [-> ->].
      apply elem_of_app in Hc as [Hc|Hc]; [by apply M2|].
      apply list_elem_of_singleton in Hc as ->. done.
  - split_and!; [done|done| |]; intros c Hc;
      destruct (Hst c) as [-> ->]; [by apply M1|by apply M2].
Qed.

Lemma tree_call_allowed_call_allowed s c :
  tree_call_allowed s c → call_allowed s c.
Proof. by destruct c. Qed.

Lemma run_call_tree_inv c s :
  alloc_inv s → tree_inv s → tree_call_allowed s c →
  alloc_inv (run_call c s) ∧ tree_inv (run_call c s).
Proof.
  intros Hinv Htree Hok. split.
  { apply run_call_inv; [done|by apply tree_call_allowed_call_allowed]. }
  destruct c as [|p|cur call len buf|cur cpid st|c cpid st|cur v rel]; simpl.
  - by apply tree_inv_acquire_PCB.
  - done.
  - by apply tree_inv_sys_Exec.
  - by apply tree_inv_sys_WaitChild.
  - by apply tree_inv_wait_for_specific_child_loop.
  - pose proof (tree_inv_sys_Exit cur v s Htree) as He.
    destruct (sys_Exit cur v s) as [[] s']; simpl in He; try done.
    by apply tree_inv_thread_exit_last.
Qed.

Lemma run_calls_tree_inv l : ∀ s,
  alloc_inv s → tree_inv s → tree_calls_allowed s l →
  alloc_inv (run_calls l s) ∧ tree_inv (run_calls l s).
Proof.
  induction l as [|c l IH]; intros s Hinv Htree Hok; [done|].
  destruct Hok as [Hc Hl]. simpl.
  destruct (run_call_tree_inv c s Hinv Htree Hc) as [H1 H2].
  by apply IH.
Qed.

(** X19.  Every state that a system reaches from [initialize_processes] by
    steps of these kinds has a consistent allocator and a consistent
    process tree: calls of [sys_Exec] made by a process whose slot is in
    use, of [sys_WaitChild], of [sys_Exit] (followed by the exit step of
    the design document, the zombie leaving the children list or not) and
    of [acquire_PCB], each run up to its return or its first sleep, and
    continuations of a [sys_WaitChild] that slept waiting for a child and
    wakes up with the child not reclaimed yet.  In such a state
    [sys_WaitChild] does not stop on its assertion, and a successful
    [sys_Exec] returns a PID that no process has. *)
Theorem reachable_states_consistent (cur0 : nat) (s0 s : kstate)
    (l : list kernel_call) :
  initialize_processes cur0 s0 = Some s →
  tree_calls_allowed s l →
  alloc_inv (run_calls l s)
  ∧ tree_inv (run_calls l s)
  ∧ (∀ cur cpid status,
       fst (sys_WaitChild cur cpid status (run_calls l s)) ≠ WAssertFailed)
  ∧ (∀ cur call len buf,
       fst (sys_Exec cur call len buf (run_calls l s)) ≠ NOPROC →
       get_pcb (run_calls l s)
         (fst (sys_Exec cur call len buf (run_calls l s))) = None).
Proof.
  intros Hboot Hok.
  assert (Hn : (0 < MAX_PROC)%nat).
  { destruct MAX_PROC eqn:E; [|lia]. exfalso.
    unfold initialize_processes in Hboot.
    pose proof (initialize_table_chain s0) as Hchain.
    rewrite E in Hchain. cbn [seq free_chain] in Hchain.
    rewrite sys_Exec_run, Hchain in Hboot.
    replace (NOPROC =? 0) with false in Hboot by (symmetry; lia). done. }
  destruct (initialize_processes_table cur0 s0 Hn)
    as (s' & Hs' & Hinv & Htree & _).
  assert (s' = s) as -> by congruence.
  destruct (run_calls_tree_inv l s Hinv Htree Hok) as [H1 H2].
  split_and!; [done|done| |].
  - intros cur cpid status. by apply sys_WaitChild_no_assert.
  - intros cur call len buf. rewrite sys_Exec_run.
    destruct (pcb_freelist (run_calls l s)) as [np|] eqn:Hf; [|done].
    cbn [fst]. intros _.
    destruct (alloc_inv_head _ np H1 Hf) as [_ Hfree].
    unfold get_pcb. rewrite Nat2Z.id. by rewrite decide_True.
Qed.

(** ** A waiter that wakes up too late *)

Lemma sys_Exec_freelist cur call len buf s np :
  pcb_freelist s = Some np →
  (np < length (PT s))%nat →
  pcb_freelist (snd (sys_Exec cur call len buf s)) = parent (pcb_at s np).
Proof.
  intros Hf Hnp. rewrite sys_Exec_run, Hf. cbn [snd].
  destruct (exec_blocks_frame cur np call len buf s Hf Hnp)
    as [(_ & -> & _) _].
  unfold acquire_PCB. rewrite Hf. ksimpl.
  by rewrite (pcb_at_upd_field parent).
Qed.

(** X20.  [wait_for_specific_child] does not look at the child again after
    its sleep, except to see that it is not ALIVE.  When two threads sleep
    waiting for the same child and the child exits, the first to wake up
    reclaims it and the second runs [cleanup_zombie] on the slot that is
    FREE already, the head of the free list: it returns the PID as well,
    [process_count] goes down once more while the same slots are in use,
    the slot becomes its own successor on the free list, and the next two
    calls of [sys_Exec] both return its PID. *)
Theorem wait_resumed_after_reclaim_releases_again (c : nat) (cpid : Z)
    (status : bool) (s : kstate) (cur1 cur2 : nat)
    (call1 call2 : option nat) (len1 len2 : Z) (buf1 buf2 : option nat) :
  (c < length (PT s))%nat →
  pstate (pcb_at s c) = FREE →
  pcb_freelist s = Some c →
  let r := wait_for_specific_child_loop c cpid status s in
  let e1 := sys_Exec cur1 call1 len1 buf1 (snd r) in
  let e2 := sys_Exec cur2 call2 len2 buf2 (snd e1) in
  fst r = WReturn cpid (if status then Some (exitval (pcb_at s c)) else None)
  ∧ process_count (snd r) = uint_decr (process_count s)
  ∧ used_slots (snd r) = used_slots s
  ∧ pcb_freelist (snd r) = Some c
  ∧ parent (pcb_at (snd r) c) = Some c
  ∧ fst e1 = Z.of_nat c
  ∧ fst e2 = Z.of_nat c.
Proof.
  intros Hc Hfree Hf r e1 e2.
  assert (Hr1 : fst r = WReturn cpid (fst (cleanup_zombie c status s))).
  { subst r. unfold wait_for_specific_child_loop.
    rewrite decide_False by (by rewrite Hfree).
    by destruct (cleanup_zombie c status s). }
  assert (Hr2 : snd r = snd (cleanup_zombie c status s)).
  { subst r. unfold wait_for_specific_child_loop.
    rewrite decide_False by (by rewrite Hfree).
    by destruct (cleanup_zombie c status s). }
  destruct (cleanup_zombie_released c status s Hc) as (H1 & H2 & H3 & H4).
  assert (Hl : (c < length (PT (snd r)))%nat).
  { by rewrite Hr2, cleanup_zombie_length. }
  assert (Hp : parent (pcb_at (snd r) c) = Some c).
  { by rewrite Hr2, H3. }
  assert (Hh : pcb_freelist (snd r) = Some c) by (by rewrite Hr2).
  assert (He1 : pcb_freelist (snd e1) = Some c).
  { subst e1. rewrite (sys_Exec_freelist _ _ _ _ _ c) by done. done. }
  split_and!.
  - by rewrite Hr1, cleanup_zombie_status.
  - by rewrite Hr2.
  - rewrite Hr2. apply used_slots_ext. intros q.
    destruct (decide (q = c)) as [->|Hq].
    + by rewrite H1, Hfree.
    + by rewrite (cleanup_zombie_other pstate).
  - done.
  - done.
  - subst e1. by rewrite sys_Exec_fst, Hh.
  - subst e2. by rewrite sys_Exec_fst, He1.
Qed.

End Counter.

End Sentinel.

End KernelProc.

(** ** The properties on the concrete tables

    The constants are instantiated with a table of 4 slots, 3 handles per
    process, NOPROC = -1, 4 argument bytes per information record and a
    record of 48 bytes. *)

Lemma release_acquire_roundtrip_witness :
  (2 < length (PT demo_run))%nat
  ∧ 0 ≤ process_count demo_run < UINT_MOD
  ∧ fst (acquire_PCB (snd (release_PCB 2 demo_run))) = Some 2%nat
  ∧ process_count (snd (acquire_PCB (snd (release_PCB 2 demo_run)))) = 3.
Proof.
  assert (H1 : (2 < length (PT demo_run))%nat) by (simpl; lia).
  assert (H2 : 0 ≤ process_count demo_run < UINT_MOD)
    by (unfold UINT_MOD; simpl; lia).
  destruct (release_acquire_roundtrip demo_run 2 H1 H2) as (A & _ & C & _).
  exact (conj H1 (conj H2 (conj A C))).
Defined.

Lemma sys_WaitChild_NOPROC_witness :
  -1 < 0
  ∧ wait_fails_at_once 4 (-1) 1 3 demo_run
  ∧ sys_WaitChild 4 (-1) 1 3 true demo_run = (WReturn (-1) None, demo_run).
Proof.
  assert (H1 : -1 < 0) by lia.
  assert (H2 : wait_fails_at_once 4 (-1) 1 3 demo_run).
  { left. split; [lia|]. right. right. left. reflexivity. }
  split_and!; [exact H1|exact H2|].
  exact (proj2 (sys_WaitChild_NOPROC 4 (-1) H1 1 3 true demo_run) H2).
Defined.


Lemma sys_Exit_exitval_witness :
  (1 < length (PT demo_run))%nat
  ∧ fst (sys_Exit 4 (-1) 1 0 demo_run) ≠ ExitOutOfFuel
  ∧ exitval (pcb_at (snd (sys_Exit 4 (-1) 2 0 demo_run)) 2) = 7
  ∧ exitval (pcb_at (snd (sys_Exit 4 (-1) 2 9 demo_run)) 2) = 9.
Proof.
  assert (H0 : -1 < 0) by lia.
  assert (H1 : (1 < length (PT demo_run))%nat) by (simpl; lia).
  assert (H2 : (2 < length (PT demo_run))%nat) by (simpl; lia).
  split_and!.
  - exact H1.
  - exact (proj1 (sys_Exit_exitval 4 (-1) H0 1 0 demo_run H1)).
  - exact (proj2 (sys_Exit_exitval 4 (-1) H0 2 0 demo_run H2)).
  - exact (proj2 (sys_Exit_exitval 4 (-1) H0 2 9 demo_run H2)).
Defined.

Lemma process_count_counts_used_slots_witness :
  let start :=
    snd (sys_Exec 3 (-1) 0 None 0 None (initialize_table 4 3 demo_off)) in
  let calls :=
    [CallExec 0 (Some 10%nat) 3 None;
     CallExec 1 (Some 11%nat) 2 (Some 0%nat); CallWaitChild 1 2 true;
     CallExit 2 7 false; CallWaitResume 2 2 true; CallAcquire;
     CallRelease 2] in
  -1 < 0
  ∧ Z.of_nat 4 < UINT_MOD
  ∧ initialize_processes 4 3 (-1) 0 demo_off = Some start
  ∧ calls_allowed 4 3 (-1) start calls
  ∧ process_count (run_calls 4 3 (-1) calls start) = 2
  ∧ process_count (run_calls 4 3 (-1) calls start)
    = Z.of_nat (used_slots 4 (run_calls 4 3 (-1) calls start)).
Proof.
  intros start calls.
  assert (H0 : -1 < 0) by lia.
  assert (H1 : Z.of_nat 4 < UINT_MOD) by (unfold UINT_MOD; simpl; lia).
  assert (H2 : initialize_processes 4 3 (-1) 0 demo_off = Some start)
    by (vm_compute; reflexivity).
  assert (H3 : calls_allowed 4 3 (-1) start calls).
  { vm_compute. repeat split; try lia; intros H; discriminate H. }
  split_and!; [exact H0|exact H1|exact H2|exact H3|vm_compute; reflexivity|].
  exact (proj1 (process_count_counts_used_slots 4 3 (-1) H0 H1 0 demo_off
                  start calls (or_intror H2) H3)).
Defined.

Lemma sys_Exec_fails_iff_table_full_witness :
  let reqs :=
    [mkReq 0 None 0 None; mkReq 0 (Some 10%nat) 0 None;
     mkReq 1 (Some 11%nat) 2 (Some 0%nat); mkReq 1 (Some 12%nat) 0 None] in
  -1 < 0
  ∧ Z.of_nat 4 < UINT_MOD
  ∧ length reqs = 4%nat
  ∧ execs_defined 3 (-1) (initialize_table 4 3 demo_off) reqs
  ∧ fst (exec_all 3 (-1) reqs (initialize_table 4 3 demo_off)) = [0; 1; 2; 3]
  ∧ fst (sys_Exec 3 (-1) 1 (Some 13%nat) 0 None
           (snd (exec_all 3 (-1) reqs (initialize_table 4 3 demo_off))))
    = -1.
Proof.
  intros reqs.
  assert (H0 : -1 < 0) by lia.
  assert (H1 : Z.of_nat 4 < UINT_MOD) by (unfold UINT_MOD; simpl; lia).
  assert (H2 : length reqs = 4%nat) by reflexivity.
  assert (H3 : execs_defined 3 (-1) (initialize_table 4 3 demo_off) reqs).
  { split; [exact I|]. split; [exact I|]. split; [|split; exact I].
    exists [x61; x62]. split; [vm_compute; reflexivity|simpl; lia]. }
  destruct (sys_Exec_fails_iff_table_full 4 3 (-1) H0 H1) as (_ & _ & _ & H).
  destruct (H demo_off reqs (mkReq 1 (Some 13%nat) 0 None) H2 H3)
    as (_ & _ & E).
  split_and!; [exact H0|exact H1|exact H2|exact H3|vm_compute; reflexivity|].
  exact (f_equal fst E).
Defined.


Lemma sys_GetPPid_parent_or_NOPROC_witness :
  pcb_freelist demo_run = Some 3%nat
  ∧ (3 < length (PT demo_run))%nat
  ∧ sys_GetPPid (-1) 3
      (snd (sys_Exec 3 (-1) 1 (Some 12%nat) 2 (Some 0%nat) demo_run))
    = sys_GetPid (-1) 1.
Proof.
  assert (H1 : pcb_freelist demo_run = Some 3%nat) by reflexivity.
  assert (H2 : (3 < length (PT demo_run))%nat) by (simpl; lia).
  assert (H4 : 1 < Z.of_nat 3) by lia.
  split_and!; [exact H1|exact H2|].
  destruct (sys_GetPPid_parent_or_NOPROC 3 (-1) 1 (Some 12%nat) 2
              (Some 0%nat) demo_run 3 H1 H2) as (A & _ & _).
  exact (proj2 (A H4)).
Defined.

Lemma sys_Exec_main_thread_last_witness :
  pcb_freelist demo_run = Some 3%nat
  ∧ (3 < length (PT demo_run))%nat
  ∧ thread_count
      (pcb_at (snd (sys_Exec 3 (-1) 1 (Some 12%nat) 2 (Some 0%nat) demo_run))
              3) = 1
  ∧ main_thread
      (pcb_at (snd (sys_Exec 3 (-1) 1 (Some 12%nat) 2 (Some 0%nat) demo_run))
              3) = Some 2%nat.
Proof.
  assert (H1 : pcb_freelist demo_run = Some 3%nat) by reflexivity.
  assert (H2 : (3 < length (PT demo_run))%nat) by (simpl; lia).
  split_and!; [exact H1|exact H2| |].
  - destruct (sys_Exec_main_thread_last 3 (-1) 1 12 2 (Some 0%nat)
                demo_run 3 H1 H2) as (_ & _ & _ & A & _).
    exact A.
  - destruct (sys_Exec_main_thread_last 3 (-1) 1 12 2 (Some 0%nat)
                demo_run 3 H1 H2) as (_ & _ & A & _).
    exact A.
Defined.

Lemma procinfo_read_next_used_slot_witness :
  length (PT demo_run) = 4%nat
  ∧ (pcbcursor (mkCb 3 demo_info) ≤ 4)%nat
  ∧ length (pi_args (info (mkCb 3 demo_info))) = 4%nat
  ∧ procinfo_read 4 (-1) 4 48 (Some (mkCb 3 demo_info)) demo_run
    = Some (mkRead 0 (Some (mkCb 4 demo_info)) None).
Proof.
  assert (H1 : length (PT demo_run) = 4%nat) by reflexivity.
  assert (H2 : (pcbcursor (mkCb 3 demo_info) ≤ 4)%nat) by (simpl; lia).
  assert (H3 : length (pi_args (info (mkCb 3 demo_info))) = 4%nat)
    by reflexivity.
  split_and!; [exact H1|exact H2|exact H3|].
  destruct (procinfo_read_next_used_slot 4 (-1) 4 48 (mkCb 3 demo_info)
              demo_run H1 H2 H3) as (_ & A & _).
  apply A. intros k Hk. simpl in Hk.
  assert (k = 3%nat) as -> by lia. reflexivity.
Defined.

(** ** The running table is consistent *)

Lemma demo_run_alloc_inv : alloc_inv 4 demo_run.
Proof.
  split_and!; [reflexivity|vm_compute; reflexivity|].
  exists [3%nat]. split_and!.
  - cbn. split_and!; [reflexivity|lia|reflexivity].
  - apply NoDup_singleton.
  - intros p. rewrite list_elem_of_singleton. split.
    + intros ->. split; [lia|reflexivity].
    + intros [Hp Hf].
      destruct p as [|[|[|[|p]]]]; [discriminate Hf..|reflexivity|lia].
Qed.

Lemma demo_run_tree_inv : tree_inv demo_run.
Proof.
  intros p Hp.
  destruct p as [|[|[|[|p]]]]; [| | | |cbn in Hp; lia]; cbn;
    (split_and!;
     [first [apply NoDup_nil_2 | apply NoDup_singleton]
     |first [apply NoDup_nil_2 | apply NoDup_singleton]
     |intros c Hc|intros c Hc]);
    first [by apply elem_of_nil in Hc
          |apply list_elem_of_singleton in Hc as ->; by split].
Qed.

(** ** The further properties on the concrete tables *)

Lemma sys_Exec_writes_two_slots_witness :
  pcb_freelist demo_run = Some 3%nat
  ∧ 1%nat ≠ 3%nat
  ∧ (1 < length (PT demo_run))%nat
  ∧ children_list
      (pcb_at (snd (sys_Exec 3 (-1) 1 (Some 12%nat) 2 (Some 0%nat) demo_run))
              1) = [3%nat; 2%nat]
  ∧ pcb_at (snd (sys_Exec 3 (-1) 1 (Some 12%nat) 2 (Some 0%nat) demo_run)) 2
    = pcb_at demo_run 2.
Proof.
  assert (H1 : pcb_freelist demo_run = Some 3%nat) by reflexivity.
  assert (H2 : 1%nat ≠ 3%nat) by lia.
  assert (H3 : (1 < length (PT demo_run))%nat) by (simpl; lia).
  destruct (sys_Exec_writes_two_slots 3 (-1) 1 (Some 12%nat) 2 (Some 0%nat)
              demo_run 3 H1 H2 H3) as [A B].
  split_and!; [exact H1|exact H2|exact H3| |].
  - exact (f_equal children_list B).
  - apply A; lia.
Defined.

Lemma sys_Exec_pid_names_live_process_witness :
  pcb_freelist demo_run = Some 3%nat
  ∧ (3 < length (PT demo_run))%nat
  ∧ fst (sys_Exec 3 (-1) 1 (Some 12%nat) 2 (Some 0%nat) demo_run) = 3
  ∧ get_pcb (snd (sys_Exec 3 (-1) 1 (Some 12%nat) 2 (Some 0%nat) demo_run))
      3 = Some 3%nat
  ∧ get_pcb demo_run 3 = None.
Proof.
  assert (H1 : pcb_freelist demo_run = Some 3%nat) by reflexivity.
  assert (H2 : (3 < length (PT demo_run))%nat) by (simpl; lia).
  destruct (sys_Exec_pid_names_live_process 3 (-1) 1 (Some 12%nat) 2
              (Some 0%nat) demo_run 3 H1 H2) as (A & _ & C & D).
  split_and!; [exact H1|exact H2|exact A| |].
  - rewrite A in C. exact C.
  - rewrite A in D. apply D. reflexivity.
Defined.

Lemma get_pcb_get_pid_witness :
  0 ≤ 2
  ∧ get_pcb demo_run (get_pid (-1) (Some 2%nat)) = Some 2%nat
  ∧ get_pid (-1) (get_pcb demo_run 2) = 2.
Proof.
  assert (H1 : 0 ≤ 2) by lia.
  destruct (get_pcb_get_pid (-1) demo_run 2 2) as [A B].
  split_and!; [exact H1|exact A|].
  exact (B H1 2%nat eq_refl).
Defined.

Lemma sys_Exec_copies_arguments_witness :
  pcb_freelist demo_run = Some 3%nat
  ∧ (3 < length (PT demo_run))%nat
  ∧ copy_defined demo_run 2 (Some 0%nat)
  ∧ args (pcb_at
            (snd (sys_Exec 3 (-1) 1 (Some 12%nat) 2 (Some 0%nat) demo_run))
            3) = Some 2%nat
  ∧ ∃ blk,
      heap (snd (sys_Exec 3 (-1) 1 (Some 12%nat) 2 (Some 0%nat) demo_run))
        !! 2%nat = Some blk
      ∧ Z.of_nat (length blk) = 2.
Proof.
  assert (H1 : pcb_freelist demo_run = Some 3%nat) by reflexivity.
  assert (H2 : (3 < length (PT demo_run))%nat) by (simpl; lia).
  assert (H3 : copy_defined demo_run 2 (Some 0%nat)).
  { exists [x61; x62]. split; [reflexivity|simpl; lia]. }
  destruct (sys_Exec_copies_arguments 3 (-1) 1 (Some 12%nat) 2 (Some 0%nat)
              demo_run 3 H1 H2 H3)
    as (_ & _ & _ & A & _ & src & blk & _ & C & _ & D).
  split_and!; [exact H1|exact H2|exact H3|exact A|].
  exists blk. split; [exact C|exact D].
Defined.

Lemma sys_Exec_without_task_witness :
  pcb_freelist demo_run = Some 3%nat
  ∧ tcbs (snd (sys_Exec 3 (-1) 1 None 0 None demo_run)) = tcbs demo_run
  ∧ sched (snd (sys_Exec 3 (-1) 1 None 0 None demo_run)) = [].
Proof.
  assert (H1 : pcb_freelist demo_run = Some 3%nat) by reflexivity.
  destruct (sys_Exec_without_task 3 (-1) 1 0 None demo_run 3 H1)
    as (A & _ & C & _).
  split_and!; [exact H1|exact A|exact C].
Defined.

Lemma sys_WaitChild_named_child_witness :
  (2 < 4)%nat
  ∧ (2 < length (PT demo_run))%nat
  ∧ Z.of_nat 2 ≠ -1
  ∧ pstate (pcb_at demo_run 2) ≠ FREE
  ∧ parent (pcb_at demo_run 2) = Some 1%nat
  ∧ fst (sys_WaitChild 4 (-1) 1 (Z.of_nat 2) true demo_run)
    = WReturn (Z.of_nat 2) (Some 7)
  ∧ pcb_freelist (snd (sys_WaitChild 4 (-1) 1 (Z.of_nat 2) true demo_run))
    = Some 2%nat.
Proof.
  assert (H1 : (2 < 4)%nat) by lia.
  assert (H2 : (2 < length (PT demo_run))%nat) by (simpl; lia).
  assert (H3 : Z.of_nat 2 ≠ -1) by lia.
  assert (H4 : pstate (pcb_at demo_run 2) ≠ FREE)
    by (intros H; discriminate H).
  assert (H5 : parent (pcb_at demo_run 2) = Some 1%nat) by reflexivity.
  destruct (sys_WaitChild_named_child 4 (-1) 1 2 true demo_run
              H1 H2 H3 H4 H5) as [_ A].
  destruct (A eq_refl) as (B & _ & C & _).
  split_and!; [exact H1|exact H2|exact H3|exact H4|exact H5|exact B|exact C].
Defined.

Lemma sys_Exec_reuses_reclaimed_pid_witness :
  length (PT demo_run) = 4%nat
  ∧ fst (sys_WaitChild 4 (-1) 1 2 true demo_run) = WReturn 2 (Some 7)
  ∧ 2 ≠ -1
  ∧ fst (sys_Exec 3 (-1) 0 (Some 13%nat) 0 None
           (snd (sys_WaitChild 4 (-1) 1 2 true demo_run))) = 2.
Proof.
  assert (H1 : length (PT demo_run) = 4%nat) by reflexivity.
  assert (H2 : sys_WaitChild 4 (-1) 1 2 true demo_run =
               (WReturn 2 (Some 7),
                snd (sys_WaitChild 4 (-1) 1 2 true demo_run)))
    by (vm_compute; reflexivity).
  assert (H3 : 2 ≠ -1) by lia.
  split_and!; [exact H1|exact (f_equal fst H2)|exact H3|].
  exact (proj1 (sys_Exec_reuses_reclaimed_pid 4 3 (-1) 1 2 true demo_run _
                  2 (Some 7) 0 (Some 13%nat) 0 None H1 H2 H3)).
Defined.

Lemma procinfo_read_all_lists_used_slots_witness :
  length (PT demo_run) = 4%nat
  ∧ 0 < 48
  ∧ length (pi_args demo_info) = 4%nat
  ∧ ∃ l, procinfo_read_all 4 (-1) 4 48 5 (init_procinfo_cb demo_info)
           demo_run = Some l
         ∧ pi_pid <$> l = [0; 1; 2].
Proof.
  assert (H1 : length (PT demo_run) = 4%nat) by reflexivity.
  assert (H2 : 0 < 48) by lia.
  assert (H3 : length (pi_args demo_info) = 4%nat) by reflexivity.
  assert (H4 : ∀ p, (p < 4)%nat → pstate (pcb_at demo_run p) ≠ FREE →
                    args_readable 4 demo_run (pcb_at demo_run p)).
  { intros p Hp Hu. destruct p as [|[|[|[|p]]]].
    - left. reflexivity.
    - left. reflexivity.
    - right. exists 1%nat, [x61; x62].
      split_and!; [reflexivity|reflexivity|vm_compute; lia].
    - exfalso. apply Hu. reflexivity.
    - lia. }
  destruct (procinfo_read_all_lists_used_slots 4 (-1) 4 48 demo_info demo_run
              H1 H2 H3 H4) as (l & A & _ & C & _).
  split_and!; [exact H1|exact H2|exact H3|].
  exists l. split; [exact A|exact C].
Defined.

Lemma acquire_release_roundtrip_witness :
  pcb_freelist demo_run = Some 3%nat
  ∧ (3 < length (PT demo_run))%nat
  ∧ pstate (pcb_at demo_run 3) = FREE
  ∧ 0 ≤ process_count demo_run < UINT_MOD
  ∧ snd (release_PCB 3 (snd (acquire_PCB demo_run))) = demo_run.
Proof.
  assert (H1 : pcb_freelist demo_run = Some 3%nat) by reflexivity.
  assert (H2 : (3 < length (PT demo_run))%nat) by (simpl; lia).
  assert (H3 : pstate (pcb_at demo_run 3) = FREE) by reflexivity.
  assert (H4 : 0 ≤ process_count demo_run < UINT_MOD)
    by (unfold UINT_MOD; simpl; lia).
  exact (conj H1 (conj H2 (conj H3 (conj H4
           (proj2 (acquire_release_roundtrip demo_run 3 H1 H2 H3 H4)))))).
Defined.


Lemma sys_Exec_then_sys_WaitChild_witness :
  -1 < 0
  ∧ pcb_freelist demo_run = Some 3%nat
  ∧ (3 < length (PT demo_run))%nat
  ∧ (3 < 4)%nat
  ∧ fst (sys_WaitChild 4 (-1) 1
           (fst (sys_Exec 3 (-1) 1 (Some 12%nat) 2 (Some 0%nat) demo_run))
           true
           (snd (sys_Exec 3 (-1) 1 (Some 12%nat) 2 (Some 0%nat) demo_run)))
    = WBlocked
  ∧ fst (sys_WaitChild 4 (-1) 0
           (fst (sys_Exec 3 (-1) 1 (Some 12%nat) 2 (Some 0%nat) demo_run))
           true
           (snd (sys_Exec 3 (-1) 1 (Some 12%nat) 2 (Some 0%nat) demo_run)))
    = WReturn (-1) None.
Proof.
  assert (H0 : -1 < 0) by lia.
  assert (H1 : pcb_freelist demo_run = Some 3%nat) by reflexivity.
  assert (H2 : (3 < length (PT demo_run))%nat) by (simpl; lia).
  assert (H3 : (3 < 4)%nat) by lia.
  destruct (sys_Exec_then_sys_WaitChild 4 3 (-1) H0 1 (Some 12%nat) 2
              (Some 0%nat) true demo_run 3 H1 H2 H3) as [_ A].
  split_and!; [exact H0|exact H1|exact H2|exact H3| |].
  - exact (f_equal fst (A 1%nat)).
  - exact (f_equal fst (A 0%nat)).
Defined.

Lemma initialize_processes_starts_idle_witness :
  -1 < 0
  ∧ Z.of_nat 4 < UINT_MOD
  ∧ (0 < 4)%nat
  ∧ ∃ s', initialize_processes 4 3 (-1) 0 demo_off = Some s'
          ∧ process_count s' = 1
          ∧ pstate (pcb_at s' 0) = ALIVE
          ∧ pcb_freelist s' = Some 1%nat.
Proof.
  assert (H0 : -1 < 0) by lia.
  assert (H1 : Z.of_nat 4 < UINT_MOD) by (unfold UINT_MOD; simpl; lia).
  assert (H2 : (0 < 4)%nat) by lia.
  destruct (proj1 (initialize_processes_starts_idle 4 3 (-1) H0 H1 0
                     demo_off) H2)
    as (s' & A & _ & _ & B & C & _ & _ & D & _).
  split_and!; [exact H0|exact H1|exact H2|].
  exists s'. split_and!; [exact A|exact B|exact C|exact D].
Defined.

Lemma exec_all_after_boot_pids_ascend_witness :
  let reqs := [mkReq 0 (Some 10%nat) 0 None;
               mkReq 1 (Some 11%nat) 2 (Some 0%nat)] in
  let s0 := snd (sys_Exec 3 (-1) 0 None 0 None (initialize_table 4 3 demo_off))
  in
  Z.of_nat 4 < UINT_MOD
  ∧ initialize_processes 4 3 (-1) 0 demo_off = Some s0
  ∧ (S (length reqs) ≤ 4)%nat
  ∧ execs_defined 3 (-1) s0 reqs
  ∧ fst (exec_all 3 (-1) reqs s0) = [1; 2].
Proof.
  intros reqs s0.
  assert (H1 : Z.of_nat 4 < UINT_MOD) by (unfold UINT_MOD; simpl; lia).
  assert (H2 : initialize_processes 4 3 (-1) 0 demo_off = Some s0)
    by (vm_compute; reflexivity).
  assert (H3 : (S (length reqs) ≤ 4)%nat) by (simpl; lia).
  assert (H4 : execs_defined 3 (-1) s0 reqs).
  { split; [exact I|]. split; [|exact I].
    exists [x61; x62]. split; [vm_compute; reflexivity|simpl; lia]. }
  split_and!; [exact H1|exact H2|exact H3|exact H4|].
  exact (exec_all_after_boot_pids_ascend 4 3 (-1) H1 0 demo_off s0 reqs
           H2 H3 H4).
Defined.

Lemma system_calls_keep_tree_consistent_witness :
  -1 < 0
  ∧ Z.of_nat 4 < UINT_MOD
  ∧ alloc_inv 4 demo_run
  ∧ tree_inv demo_run
  ∧ pstate (pcb_at demo_run 1) ≠ FREE
  ∧ pstate (pcb_at demo_run 2) ≠ FREE
  ∧ tree_inv (snd (sys_Exec 3 (-1) 1 (Some 12%nat) 2 (Some 0%nat) demo_run))
  ∧ tree_inv (snd (sys_WaitChild 4 (-1) 1 2 true demo_run))
  ∧ alloc_inv 4 (snd (wait_for_specific_child_loop 2 2 true demo_run))
  ∧ tree_inv (snd (sys_Exit 4 (-1) 1 0 demo_run)).
Proof.
  assert (H0 : -1 < 0) by lia.
  assert (H1 : Z.of_nat 4 < UINT_MOD) by (unfold UINT_MOD; simpl; lia).
  assert (H2 : pstate (pcb_at demo_run 1) ≠ FREE)
    by (intros H; discriminate H).
  assert (H3 : pstate (pcb_at demo_run 2) ≠ FREE)
    by (intros H; discriminate H).
  destruct (system_calls_keep_tree_consistent 4 3 (-1) H0 H1 demo_run
              demo_run_alloc_inv demo_run_tree_inv) as (A & B & R & C).
  split_and!; [exact H0|exact H1|exact demo_run_alloc_inv
              |exact demo_run_tree_inv|exact H2|exact H3| | | |].
  - exact (proj2 (A 1%nat (Some 12%nat) 2 (Some 0%nat) H2)).
  - exact (proj2 (B 1%nat 2 true)).
  - exact (proj1 (R 2%nat 2 true) H3).
  - exact (proj2 (C 1%nat 0)).
Defined.

Lemma wait_assertion_never_fails_witness :
  tree_inv demo_run
  ∧ fst (sys_WaitChild 4 (-1) 1 (-1) true demo_run) ≠ WAssertFailed
  ∧ fst (sys_Exit 4 (-1) 1 0 demo_run) ≠ ExitAssertFailed.
Proof.
  exact (conj demo_run_tree_inv
           (wait_assertion_never_fails 4 (-1) demo_run 1 (-1) true 0
              demo_run_tree_inv)).
Defined.

Lemma start_main_thread_runs_task_on_own_copy_witness :
  let task := λ (t : nat) (n : Z) (a : option nat),
                ret (if decide (a = Some 2%nat) then 7 else 0) : K Z in
  pcb_freelist demo_run = Some 3%nat
  ∧ (3 < length (PT demo_run))%nat
  ∧ fst (start_main_thread_body 4 (-1) task 3
           (snd (sys_Exec 3 (-1) 1 (Some 12%nat) 2 (Some 0%nat) demo_run)))
    = Some (ExitThreadExit 7).
Proof.
  intros task.
  assert (H1 : pcb_freelist demo_run = Some 3%nat) by reflexivity.
  assert (H2 : (3 < length (PT demo_run))%nat) by (simpl; lia).
  split_and!; [exact H1|exact H2|].
  exact (f_equal fst
           (start_main_thread_runs_task_on_own_copy 4 3 (-1) task 1 12 2
              (Some 0%nat) demo_run 3 H1 H2)).
Defined.

Lemma sys_Exec_pid_is_fresh_witness :
  alloc_inv 4 demo_run
  ∧ fst (sys_Exec 3 (-1) 1 (Some 12%nat) 2 (Some 0%nat) demo_run) ≠ -1
  ∧ get_pcb demo_run
      (fst (sys_Exec 3 (-1) 1 (Some 12%nat) 2 (Some 0%nat) demo_run)) = None
  ∧ pstate
      (pcb_at (snd (sys_Exec 3 (-1) 1 (Some 12%nat) 2 (Some 0%nat) demo_run))
              2) = ZOMBIE.
Proof.
  assert (H2 : fst (sys_Exec 3 (-1) 1 (Some 12%nat) 2 (Some 0%nat) demo_run)
               ≠ -1) by (vm_compute; discriminate).
  destruct (sys_Exec_pid_is_fresh 4 3 (-1) 1 (Some 12%nat) 2
              (Some 0%nat) demo_run demo_run_alloc_inv H2)
    as (_ & A & _ & B).
  split_and!; [exact demo_run_alloc_inv|exact H2|exact A|].
  apply (B 2%nat). vm_compute. discriminate.
Defined.

Lemma reachable_states_consistent_witness :
  let calls :=
    [CallExec 0 (Some 10%nat) 3 None;
     CallExec 1 (Some 11%nat) 2 (Some 0%nat); CallWaitChild 1 2 true;
     CallExit 2 7 false; CallWaitResume 2 2 true;
     CallExec 1 (Some 12%nat) 0 None; CallExit 2 5 true;
     CallWaitChild 1 (-1) true] in
  let s := snd (sys_Exec 3 (-1) 0 None 0 None (initialize_table 4 3 demo_off))
  in
  -1 < 0
  ∧ Z.of_nat 4 < UINT_MOD
  ∧ initialize_processes 4 3 (-1) 0 demo_off = Some s
  ∧ tree_calls_allowed 4 3 (-1) s calls
  ∧ alloc_inv 4 (run_calls 4 3 (-1) calls s)
  ∧ tree_inv (run_calls 4 3 (-1) calls s).
Proof.
  intros calls s.
  assert (H0 : -1 < 0) by lia.
  assert (H1 : Z.of_nat 4 < UINT_MOD) by (unfold UINT_MOD; simpl; lia).
  assert (H2 : initialize_processes 4 3 (-1) 0 demo_off = Some s)
    by (vm_compute; reflexivity).
  assert (H3 : tree_calls_allowed 4 3 (-1) s calls).
  { vm_compute. repeat split; intros H; discriminate H. }
  destruct (reachable_states_consistent 4 3 (-1) H0 H1 0 demo_off s calls
              H2 H3) as (A & B & _).
  exact (conj H0 (conj H1 (conj H2 (conj H3 (conj A B))))).
Defined.

Lemma wait_resumed_after_reclaim_releases_again_witness :
  let s := snd (sys_WaitChild 4 (-1) 1 2 true demo_run) in
  (2 < length (PT s))%nat
  ∧ pstate (pcb_at s 2) = FREE
  ∧ pcb_freelist s = Some 2%nat
  ∧ fst (wait_for_specific_child_loop 2 2 true s) = WReturn 2 (Some 7)
  ∧ process_count (snd (wait_for_specific_child_loop 2 2 true s)) = 1
  ∧ used_slots 4 (snd (wait_for_specific_child_loop 2 2 true s)) = 2%nat
  ∧ fst (sys_Exec 3 (-1) 1 (Some 12%nat) 0 None
           (snd (wait_for_specific_child_loop 2 2 true s))) = 2
  ∧ fst (sys_Exec 3 (-1) 1 (Some 13%nat) 0 None
           (snd (sys_Exec 3 (-1) 1 (Some 12%nat) 0 None
                   (snd (wait_for_specific_child_loop 2 2 true s))))) = 2.
Proof.
  intros s.
  assert (H1 : (2 < length (PT s))%nat) by (vm_compute; lia).
  assert (H2 : pstate (pcb_at s 2) = FREE) by (vm_compute; reflexivity).
  assert (H3 : pcb_freelist s = Some 2%nat) by (vm_compute; reflexivity).
  destruct (wait_resumed_after_reclaim_releases_again 4 3 (-1) 2 2 true s
              1 1 (Some 12%nat) (Some 13%nat) 0 0 None None H1 H2 H3)
    as (A & B & C & _ & _ & E & F).
  split_and!; [exact H1|exact H2|exact H3|exact A| | |exact E|exact F].
  - rewrite B. vm_compute. reflexivity.
  - rewrite C. vm_compute. reflexivity.
Defined.

(** ** Where the design document and the code part *)

(** C1 as the document states it fails: one call of [release_PCB] on the
    FREE slot 0 of the fresh table leaves no slot in use and takes the
    unsigned counter from 0 to 2^32 - 1. *)
Lemma process_count_release_free_counterexample :
  Forall allocator_call [CallRelease 0]
  ∧ process_count
      (run_calls 4 3 (-1) [CallRelease 0] (initialize_table 4 3 demo_off))
    = 4294967295
  ∧ used_slots 4
      (run_calls 4 3 (-1) [CallRelease 0] (initialize_table 4 3 demo_off))
    = 0%nat
  ∧ process_count
      (run_calls 4 3 (-1) [CallRelease 0] (initialize_table 4 3 demo_off))
    ≠ Z.of_nat
        (used_slots 4
           (run_calls 4 3 (-1) [CallRelease 0]
              (initialize_table 4 3 demo_off))).
Proof.
  split_and!.
  - repeat constructor.
  - vm_compute. reflexivity.
  - vm_compute. reflexivity.
  - vm_compute. discriminate.
Qed.


(** C7 as the document states it fails: init calls Exec with the buffer in
    block 0; the new process owns the fresh block 2, and the thread-control
    record holds the pointer to block 0. *)
Lemma ptcb_holds_caller_pointer_counterexample :
  ptcbs (snd (sys_Exec 3 (-1) 1 (Some 12%nat) 2 (Some 0%nat) demo_run))
    !! 2%nat
  = Some (mkPTCB (Some 12%nat) 2 (Some 0%nat) (Some 2%nat))
  ∧ args (pcb_at
            (snd (sys_Exec 3 (-1) 1 (Some 12%nat) 2 (Some 0%nat) demo_run))
            3)
    = Some 2%nat
  ∧ ptcb_args <$>
      (ptcbs (snd (sys_Exec 3 (-1) 1 (Some 12%nat) 2 (Some 0%nat) demo_run))
         !! 2%nat)
    ≠ Some (args (pcb_at
                    (snd (sys_Exec 3 (-1) 1 (Some 12%nat) 2 (Some 0%nat)
                            demo_run))
                    3)).
Proof.
  split_and!; try (vm_compute; reflexivity).
  vm_compute. discriminate.
Qed.

(** C8 as the document states it fails: after the boot, init (PID 1) has
    no parent and [sys_GetPPid] returns -1 for it, which is NOPROC and not
    the PID of the idle process, nor any PID. *)
Lemma sys_GetPPid_of_init_counterexample :
  parent
    (pcb_at
       (run_calls 4 3 (-1)
          [CallExec 0 None 0 None; CallExec 0 (Some 10%nat) 0 None]
          (initialize_table 4 3 demo_off))
       1)
  = None
  ∧ sys_GetPPid (-1) 1
      (run_calls 4 3 (-1)
         [CallExec 0 None 0 None; CallExec 0 (Some 10%nat) 0 None]
         (initialize_table 4 3 demo_off))
    = -1
  ∧ sys_GetPPid (-1) 1
      (run_calls 4 3 (-1)
         [CallExec 0 None 0 None; CallExec 0 (Some 10%nat) 0 None]
         (initialize_table 4 3 demo_off))
    ≠ IDLE_PID.
Proof.
  split_and!; try (vm_compute; reflexivity).
  vm_compute. discriminate.
Qed.

(** C9 at a record the code cannot read.  After the boot, init is made by
    Exec with a NULL buffer and the length 3, which leaves [args] NULL and
    [argl] 3 in its slot.  The read of slot 0 succeeds and moves the cursor
    to 1; the next read reaches init, reads its first argument byte through
    the NULL pointer and returns nothing. *)
Theorem procinfo_read_null_args_fault :
  args
    (pcb_at
       (run_calls 4 3 (-1)
          [CallExec 0 None 0 None; CallExec 0 (Some 10%nat) 3 None]
          (initialize_table 4 3 demo_off))
       1)
  = None
  ∧ argl
      (pcb_at
         (run_calls 4 3 (-1)
            [CallExec 0 None 0 None; CallExec 0 (Some 10%nat) 3 None]
            (initialize_table 4 3 demo_off))
         1)
    = 3
  ∧ rd_cb <$>
      procinfo_read 4 (-1) 4 48 (Some (mkCb 0 demo_info))
        (run_calls 4 3 (-1)
           [CallExec 0 None 0 None; CallExec 0 (Some 10%nat) 3 None]
           (initialize_table 4 3 demo_off))
    = Some (Some (mkCb 1 (mkInfo 0 (-1) 1 0 None 0 [x00; x00; x00; x00])))
  ∧ procinfo_read 4 (-1) 4 48 (Some (mkCb 1 demo_info))
      (run_calls 4 3 (-1)
         [CallExec 0 None 0 None; CallExec 0 (Some 10%nat) 3 None]
         (initialize_table 4 3 demo_off))
    = None.
Proof. split_and!; vm_compute; reflexivity. Qed.
